(** * SSH Operations Hub: the dispatch core of [ssh_operations_hub.py]

    A shallow embedding of the class [SSHOperationsHub]: host validation
    ([_expand_range], [_validate_ip_suffix], [_validate_ip_prefix],
    [_parse_ips]), task construction ([_substitute_variables] and the loops
    of [execute_commands]), the remote executor ([_execute_ssh_command]) and
    the result loop of the dispatcher; and, around them, the construction
    of the hub with its configuration files ([__init__], [_load_config],
    [_parse_allowed_ips]), the signal handler, the availability check
    ([_check_ssh]) and the entry point [run].

    Conventions.
    - A Python [str] is a [string]; the character with code [n] stands for
      the code point [n], so the model covers the code points below 256.
      The character classes below are Python's on that range.
    - Python integers are [Z]; limits of the interpreter on the size of an
      integer literal or of a list are not modelled.
    - Code that can raise returns a [result]; code that logs, reads the
      shutdown event or starts a process runs in the monad [M] over [world].
    - The remote-shell client is an external process: what an invocation
      does, or which exception the call of [subprocess.run] raises, is
      given by an oracle, a parameter of the development.
    - The thread pool of [execute_commands] is run in one schedule, each
      task to its end in the order of submission; properties of the
      dispatcher are stated where the schedule does not matter, and the
      entry point is related to the dispatcher as to a single call. *)

From Stdlib Require Import ZArith List Bool Lia Ascii String DecimalString.
From Stdlib Require DecimalPos.
From stdpp Require Import base gmap sets list strings.

Open Scope string_scope.

(** ** Python string primitives *)

Module PyStr.

Definition code (c : ascii) : N := N_of_ascii c.

(** The line feed; string literals have no escape for it. *)
Definition LF : ascii := "010"%char.
Definition nl : string := String LF "".

(** ['0'..'9']: what [\d] matches and what [int] reads, below 256. *)
Definition is_decimal (c : ascii) : bool :=
  ((48 <=? code c) && (code c <=? 57))%N.

(** A character of [str.isdigit]: a decimal digit or one of the
    superscripts U+00B2, U+00B3, U+00B9. *)
Definition char_isdigit (c : ascii) : bool :=
  is_decimal c || (code c =? 178)%N || (code c =? 179)%N || (code c =? 185)%N.

(** A character of [str.isspace], which [str.strip()] removes:
    U+0009..U+000D, U+001C..U+001F, the space, U+0085 and U+00A0. *)
Definition char_isspace (c : ascii) : bool :=
  ((9 <=? code c) && (code c <=? 13))%N
  || ((28 <=? code c) && (code c <=? 32))%N
  || (code c =? 133)%N || (code c =? 160)%N.

(** The blanks [int] skips around a literal: as [char_isspace] without
    U+001C..U+001F. *)
Definition char_int_space (c : ascii) : bool :=
  ((9 <=? code c) && (code c <=? 13))%N
  || (code c =? 32)%N || (code c =? 133)%N || (code c =? 160)%N.

Fixpoint all_chars (p : ascii -> bool) (s : string) : bool :=
  match s with
  | "" => true
  | String c s' => p c && all_chars p s'
  end.

Definition nonempty (s : string) : bool :=
  match s with "" => false | _ => true end.

(** [s.isdigit()] *)
Definition isdigit (s : string) : bool := nonempty s && all_chars char_isdigit s.

Fixpoint char_in (c : ascii) (chars : string) : bool :=
  match chars with
  | "" => false
  | String d chars' => Ascii.eqb c d || char_in c chars'
  end.

Fixpoint lstrip_by (p : ascii -> bool) (s : string) : string :=
  match s with
  | "" => ""
  | String c s' => if p c then lstrip_by p s' else s
  end.

Fixpoint rstrip_by (p : ascii -> bool) (s : string) : string :=
  match s with
  | "" => ""
  | String c s' =>
      match rstrip_by p s' with
      | "" => if p c then "" else String c ""
      | r => String c r
      end
  end.

(** [s.strip()] *)
Definition strip (s : string) : string :=
  rstrip_by char_isspace (lstrip_by char_isspace s).

(** [s.rstrip(chars)] *)
Definition rstrip (chars : string) (s : string) : string :=
  rstrip_by (fun c => char_in c chars) s.

(** [s.split(sep, maxsplit)] for a separator of one character. *)
Fixpoint split_max (maxsplit : nat) (sep : ascii) (s : string) {struct s}
  : list string :=
  match maxsplit with
  | O => [s]
  | S m =>
      match s with
      | "" => [""]
      | String c s' =>
          if Ascii.eqb c sep then "" :: split_max m sep s'
          else match split_max maxsplit sep s' with
               | w :: ws => String c w :: ws
               | [] => [String c ""]
               end
      end
  end.

(** [s.split(sep)] for a separator of one character. *)
Fixpoint split (sep : ascii) (s : string) : list string :=
  match s with
  | "" => [""]
  | String c s' =>
      if Ascii.eqb c sep then "" :: split sep s'
      else match split sep s' with
           | w :: ws => String c w :: ws
           | [] => [String c ""]
           end
  end.

(** [sep.join(l)] *)
Fixpoint join (sep : string) (l : list string) : string :=
  match l with
  | [] => ""
  | [x] => x
  | x :: rest => x ++ sep ++ join sep rest
  end.

(** [sub in s] *)
Fixpoint contains (sub s : string) : bool :=
  String.prefix sub s
  || match s with
     | "" => false
     | String _ s' => contains sub s'
     end.

(** [s.replace(old, new)]: the occurrences of [old] are found from left
    to right and do not overlap; [skip] counts the characters of an
    occurrence still to be passed over. *)
Fixpoint replace_go (old new : string) (skip : nat) (s : string) : string :=
  match s with
  | "" => ""
  | String c s' =>
      match skip with
      | S k => replace_go old new k s'
      | O =>
          if String.prefix old s
          then new ++ replace_go old new (String.length old - 1) s'
          else String c (replace_go old new 0 s')
      end
  end.

(** With an empty [old], [new] goes before every character and at the end. *)
Fixpoint replace_empty (new s : string) : string :=
  new ++ match s with
         | "" => ""
         | String c s' => String c (replace_empty new s')
         end.

Definition replace (old new s : string) : string :=
  match old with
  | "" => replace_empty new s
  | _ => replace_go old new 0 s
  end.

(** [str(i)] *)
Definition str (i : Z) : string := NilZero.string_of_int (Z.to_int i).

Definition digit_value (c : ascii) : Z := Z.of_N (code c) - 48.

(** The digits of an integer literal: decimal digits, with single
    underscores allowed between two digits. *)
Fixpoint literal_value (acc : Z) (after_digit : bool) (s : string) : option Z :=
  match s with
  | "" => if after_digit then Some acc else None
  | String c s' =>
      if is_decimal c then literal_value (10 * acc + digit_value c) true s'
      else if Ascii.eqb c "_" then
        if after_digit then literal_value acc false s' else None
      else None
  end.

(** [int(s)] in base ten, [None] for [ValueError]: blanks around the
    literal are skipped, one sign is allowed. *)
Definition parse_int (s : string) : option Z :=
  match rstrip_by char_int_space (lstrip_by char_int_space s) with
  | String "+" ds => literal_value 0 false ds
  | String "-" ds => option_map Z.opp (literal_value 0 false ds)
  | ds => literal_value 0 false ds
  end.

(** [range(a, b)] *)
Definition range (a b : Z) : list Z :=
  List.map (fun i => (a + Z.of_nat i)%Z) (seq 0 (Z.to_nat (b - a))).

(** The double quote; a string literal cannot hold one. *)
Definition dquote : string := String "034"%char "".

(** [s.split()]: the maximal runs of characters that are not whitespace. *)
Fixpoint split_ws (s : string) : list string :=
  match s with
  | "" => []
  | String c s' =>
      if char_isspace c then split_ws s'
      else
        match s' with
        | "" => [String c ""]
        | String d _ =>
            if char_isspace d then String c "" :: split_ws s'
            else match split_ws s' with
                 | w :: ws => String c w :: ws
                 | [] => [String c ""]
                 end
        end
  end.

(** [s.startswith(p)] *)
Definition startswith (p s : string) : bool := String.prefix p s.

(** [s.strip(chars)] *)
Definition strip_chars (chars s : string) : string :=
  rstrip_by (fun c => char_in c chars) (lstrip_by (fun c => char_in c chars) s).

End PyStr.

(** ** The fragment of [re] the prefix check uses *)

Module Re.

Inductive regex : Type :=
| Bol                                  (* ^ *)
| Eol                                  (* $ *)
| Digit                                (* \d *)
| Lit (c : ascii)                      (* an escaped character, as \. *)
| Seq (r1 r2 : regex)
| Repeat (lo hi : nat) (r : regex).    (* r{lo,hi} *)

(** A position of the matcher: the number of characters consumed and
    the rest of the subject. *)
Definition pos : Type := nat * string.

Fixpoint iterate (step : pos -> list pos) (n : nat) (p : pos) : list pos :=
  match n with
  | O => [p]
  | S k => flat_map (iterate step k) (step p)
  end.

(** Every position at which a match of [r] started at [p] can end.
    [^] holds at the start of the subject only; [$] holds at its end and
    just before a line feed that ends it. *)
Fixpoint run (r : regex) (p : pos) : list pos :=
  match r with
  | Bol => match fst p with O => [p] | S _ => [] end
  | Eol => if String.eqb (snd p) "" || String.eqb (snd p) PyStr.nl then [p] else []
  | Digit =>
      match snd p with
      | String c s' => if PyStr.is_decimal c then [(S (fst p), s')] else []
      | "" => []
      end
  | Lit d =>
      match snd p with
      | String c s' => if Ascii.eqb c d then [(S (fst p), s')] else []
      | "" => []
      end
  | Seq r1 r2 => flat_map (run r2) (run r1 p)
  | Repeat lo hi r' =>
      flat_map (fun n => iterate (run r') n p) (seq lo (hi + 1 - lo))
  end.

(** [re.match(r, s)] is not [None]. *)
Definition matches (r : regex) (s : string) : bool :=
  match run r (0, s) with
  | [] => false
  | _ :: _ => true
  end.

(** The words a pattern without anchors matches. *)
Fixpoint power (L : string -> Prop) (k : nat) (w : string) : Prop :=
  match k with
  | O => w = ""
  | S k' => exists u v, w = u ++ v /\ L u /\ power L k' v
  end.

Fixpoint lang (r : regex) (w : string) : Prop :=
  match r with
  | Bol | Eol => False
  | Digit => exists c, PyStr.is_decimal c = true /\ w = String c ""
  | Lit d => w = String d ""
  | Seq r1 r2 => exists u v, w = u ++ v /\ lang r1 u /\ lang r2 v
  | Repeat lo hi r' => exists k, (lo <= k <= hi)%nat /\ power (lang r') k w
  end.

Fixpoint anchor_free (r : regex) : bool :=
  match r with
  | Bol | Eol => false
  | Digit | Lit _ => true
  | Seq r1 r2 => anchor_free r1 && anchor_free r2
  | Repeat _ _ r' => anchor_free r'
  end.

End Re.

(** ** Results, exceptions and the world *)

Inductive exn : Type :=
| ValueError
| AttributeError
| FileNotFoundError
| TimeoutExpired
| CalledProcessError (returncode : Z) (stdout stderr : option string)
| PermissionError
| OSError
| UnicodeDecodeError
| RuntimeError.

Inductive result (A : Type) : Type :=
| Ok (a : A)
| Raise (e : exn).
Arguments Ok {A} a.
Arguments Raise {A} e.

Inductive level : Type := INFO | WARNING | ERROR.

(** What the program has done so far and what it can observe:
    [shutdown_event] is the threading event the signal handler sets,
    [ssh_calls] the argument vectors passed to [subprocess.run], oldest
    first, [logged] the records handed to the logger, oldest first. *)
Record world : Type := World {
  shutdown_event : bool;
  ssh_calls : list (list string);
  logged : list (level * string)
}.

Definition M (A : Type) : Type := world -> result A * world.

Definition ret {A} (a : A) : M A := fun w => (Ok a, w).
Definition raise {A} (e : exn) : M A := fun w => (Raise e, w).
Definition bind {A B} (m : M A) (k : A -> M B) : M B :=
  fun w => match m w with
           | (Ok a, w') => k a w'
           | (Raise e, w') => (Raise e, w')
           end.

(** The body of a [try]: its outcome is handed to the [except] clauses. *)
Definition attempt {A} (m : M A) : M (result A) :=
  fun w => let '(r, w') := m w in (Ok r, w').

Notation "'let*' x := m 'in' k" := (bind m (fun x => k))
  (at level 10, x name, m at level 100, k at level 200).

(** The same for code that only raises. *)
Definition rbind {A B} (r : result A) (k : A -> result B) : result B :=
  match r with
  | Ok a => k a
  | Raise e => Raise e
  end.

Notation "'let?' x := r 'in' k" := (rbind r (fun x => k))
  (at level 10, x name, r at level 100, k at level 200).

Definition shutdown_is_set : M bool := fun w => (Ok (shutdown_event w), w).

Definition logger (lv : level) (msg : string) : M unit :=
  fun w => (Ok tt, World (shutdown_event w) (ssh_calls w) (logged w ++ [(lv, msg)])).

(** [for x in l: body], where the body says whether to [break]. *)
Inductive flow : Type := Continue | Break.

Fixpoint for_each {A} (l : list A) (body : A -> M flow) : M unit :=
  match l with
  | [] => ret tt
  | x :: l' =>
      let* f := body x in
      match f with
      | Break => ret tt
      | Continue => for_each l' body
      end
  end.

(** [all(f(x) for x in l)] *)
Fixpoint py_all {A} (f : A -> result bool) (l : list A) : result bool :=
  match l with
  | [] => Ok true
  | x :: l' =>
      match f x with
      | Ok true => py_all f l'
      | Ok false => Ok false
      | Raise e => Raise e
      end
  end.

(** [int(s)] *)
Definition int (s : string) : result Z :=
  match PyStr.parse_int s with
  | Some z => Ok z
  | None => Raise ValueError
  end.

(** ** The external remote-shell client *)

(** How one run of the client ends, as [subprocess.run] sees it.
    [Fails e] is a call of [subprocess.run] that raises [e] by itself:
    another [OSError] than [FileNotFoundError] when the binary is found
    and cannot be executed ([PermissionError]), or the
    [UnicodeDecodeError] of [text=True] on captured output that is not
    text; [out] and [err] of [Exits] are the captured output as text. *)
Inductive process : Type :=
| Exits (returncode : Z) (out err : string)
| Hangs                                       (* runs past the timeout *)
| NotLaunched                                 (* the binary is not found *)
| Fails (e : exn).

Record CompletedProcess : Type := Completed {
  returncode : Z;
  stdout : option string;
  stderr : option string
}.

(** ** The hub *)

Record SSHOperationsHub : Type := Hub {
  ip_prefix : string;
  allowed_ips : list string;
  max_parallel_connections : nat;
  ssh_options : list string;
  global_timeout : nat;
  connection_timeout : nat
}.

Definition PLACEHOLDER : string := "$CLIENT_NUM".

(** The pattern of [_validate_ip_prefix]: ^(\d{1,3}\.){2}\d{1,3}$ *)
Definition IP_PREFIX_RE : Re.regex :=
  Re.Seq Re.Bol
    (Re.Seq (Re.Repeat 2 2 (Re.Seq (Re.Repeat 1 3 Re.Digit) (Re.Lit ".")))
       (Re.Seq (Re.Repeat 1 3 Re.Digit) Re.Eol)).

(** [ip.split('.')[-1]] *)
Definition client_num_of (ip : string) : string := List.last (PyStr.split "." ip) "".

Definition label_of (ip : string) : string :=
  "[Client " ++ client_num_of ip ++ " | " ++ ip ++ "]".

Definition task : Type := string * string * string.

Section Hub.

Variable self : SSHOperationsHub.

(** The [n]-th call of [subprocess.run] of the run, with its argument
    vector, ends as [client n args] says. *)
Variable client : nat -> list string -> process.

(** The text of an exception, for the dispatcher's error record. *)
Variable exn_text : exn -> string.

(** [subprocess.run(args, timeout=..., check=True)], with the output
    captured ([capture_output=True, text=True]) or sent to [DEVNULL]. *)
Definition subprocess_run (args : list string) (capture_output : bool)
  : M CompletedProcess :=
  fun w =>
    let w' := World (shutdown_event w) (ssh_calls w ++ [args]) (logged w) in
    let kept (s : string) := if capture_output then Some s else None in
    match client (List.length (ssh_calls w)) args with
    | NotLaunched => (Raise FileNotFoundError, w')
    | Fails e => (Raise e, w')
    | Hangs => (Raise TimeoutExpired, w')
    | Exits rc out err =>
        if (rc =? 0)%Z then (Ok (Completed rc (kept out) (kept err)), w')
        else (Raise (CalledProcessError rc (kept out) (kept err)), w')
    end.

Definition _expand_range (range_str : string) : result (list string) :=
  let last_return := Ok (if PyStr.isdigit range_str then [range_str] else []) in
  if PyStr.contains "-" range_str then
    (* the [try] block: [Some l] when it returns [l], [None] when it ends *)
    let tried :=
      match PyStr.split_max 1 "-" range_str with
      | [start; end_] =>
          let? start_num := int start in
          let? end_num := int end_ in
          if (start_num <=? end_num)%Z
          then Ok (Some (List.map PyStr.str (PyStr.range start_num (end_num + 1))))
          else Ok None
      | _ => Raise ValueError           (* the unpacking fails *)
      end in
    match tried with
    | Ok (Some l) => Ok l
    | Ok None => last_return
    | Raise ValueError => last_return   (* except ValueError: pass *)
    | Raise e => Raise e
    end
  else last_return.

Definition _validate_ip_suffix (ip_suffix : string) : bool :=
  PyStr.isdigit ip_suffix && bool_decide (ip_suffix ∈ allowed_ips self).

Definition _validate_ip_prefix (prefix : string) : result bool :=
  let prefix := PyStr.rstrip "." prefix in
  if negb (Re.matches IP_PREFIX_RE prefix) then Ok false
  else
    let octets := PyStr.split "." prefix in
    py_all (fun octet => let? n := int octet in Ok ((0 <=? n)%Z && (n <=? 255)%Z))
    octets.

(** The loop state of [_parse_ips]. *)
Record parse_state : Type := ParseState {
  valid_ips : list string;
  errors : list string;
  seen : gset string
}.

Definition _parse_ips_step (st : parse_state) (ip_suffix : string) : M parse_state :=
  if negb (_validate_ip_suffix ip_suffix) then
    ret (ParseState (valid_ips st)
           (errors st ++ ["Invalid or disallowed IP suffix '" ++ ip_suffix ++ "'"])
           (seen st))
  else if bool_decide (ip_suffix ∈ seen st) then
    let* _ := logger WARNING ("Skipping duplicate IP suffix '" ++ ip_suffix ++ "'") in
    ret st
  else
    ret (ParseState (valid_ips st ++ [ip_prefix self ++ "." ++ ip_suffix])
           (errors st)
           ({[ ip_suffix ]} ∪ seen st)).

Fixpoint _parse_ips_loop (ip_suffixes : list string) (st : parse_state)
  : M parse_state :=
  match ip_suffixes with
  | [] => ret st
  | ip_suffix :: rest =>
      let* st' := _parse_ips_step st ip_suffix in
      _parse_ips_loop rest st'
  end.

Definition _parse_ips (ip_suffixes : list string) : M (list string * list string) :=
  let* st := _parse_ips_loop ip_suffixes (ParseState [] [] ∅) in
  ret (valid_ips st, errors st).

Definition _execute_ssh_command (user ip command : string) : M (bool * string) :=
  let client_num := List.last (PyStr.split "." ip) "" in
  let label := "[Client " ++ client_num ++ " | " ++ ip ++ "]" in
  let* is_set := shutdown_is_set in
  if is_set then ret (false, label ++ " Aborted due to shutdown")
  else
    let test_cmd :=
      (["ssh"] ++ ssh_options self ++ [(user ++ "@" ++ ip)%string; "exit"; "0"])%list in
    let* probe := attempt (subprocess_run test_cmd false) in
    match probe with
    | Raise TimeoutExpired | Raise (CalledProcessError _ _ _) =>
        ret (false, label ++ " Error: Could not establish SSH connection to "
                      ++ user ++ "@" ++ ip)
    | Raise e => raise e
    | Ok _ =>
        let* _ := logger INFO (label ++ " Running '" ++ command ++ "' on " ++ user ++ "@" ++ ip) in
        let actual_cmd :=
          (["ssh"] ++ ssh_options self ++ [(user ++ "@" ++ ip)%string; command])%list in
        let* outcome := attempt (subprocess_run actual_cmd true) in
        match outcome with
        | Ok res =>
            match stdout res with
            | None => raise AttributeError
            | Some out =>
                let output_lines :=
                  List.fold_left
                    (fun output_lines line =>
                       if PyStr.nonempty line
                       then (output_lines ++ [(label ++ " " ++ line)%string])%list
                       else output_lines)
                    (PyStr.split PyStr.LF (PyStr.strip out)) [] in
                ret (true, PyStr.join PyStr.nl output_lines)
            end
        | Raise TimeoutExpired => ret (false, label ++ " Error: Command timed out")
        | Raise (CalledProcessError rc _ err) =>
            let error_output :=
              match err with
              | Some e => if PyStr.nonempty e then PyStr.strip e else "Unknown error"
              | None => "Unknown error"
              end in
            ret (false, label ++ " Error: Command failed with status " ++ PyStr.str rc
                          ++ PyStr.nl ++ label ++ " Output: " ++ error_output)
        | Raise e => raise e
        end
    end.

Definition _substitute_variables (text client_num : string) : string :=
  PyStr.replace PLACEHOLDER client_num text.

(** The two loops of [execute_commands] that fill [tasks]. *)
Definition build_tasks (primary_ips secondary_ips : list string)
    (primary_user secondary_user command : string) : list task :=
  let tasks := [] in
  let tasks :=
    List.fold_left
      (fun tasks ip =>
         let client_num := List.last (PyStr.split "." ip) "" in
         let user := _substitute_variables primary_user client_num in
         let cmd := _substitute_variables command client_num in
         (tasks ++ [(user, ip, cmd)])%list)
      primary_ips tasks in
  List.fold_left
    (fun tasks ip =>
       let client_num := List.last (PyStr.split "." ip) "" in
       let user := _substitute_variables secondary_user client_num in
       let cmd := _substitute_variables command client_num in
       (tasks ++ [(user, ip, cmd)])%list)
    secondary_ips tasks.

(** [executor.submit] for every task. The calls are run one after the
    other in the order of submission, each to its end: this is one of the
    schedules of the pool, the one in which every future is finished when
    the results are collected. A future keeps the outcome of its call, a
    raised exception included. *)
Fixpoint submit_all (tasks : list task) : M (list (task * result (bool * string))) :=
  match tasks with
  | [] => ret []
  | (user, ip, cmd) :: rest =>
      let* r := attempt (_execute_ssh_command user ip cmd) in
      let* futures := submit_all rest in
      ret (((user, ip, cmd), r) :: futures)
  end.

(** [execute_commands]. [completed] lists, by index of submission, the
    futures in the order [as_completed] yields them. In the schedule of
    [submit_all] every future is finished when [as_completed] is called:
    it yields them without waiting, so its [timeout] cannot expire and
    its [TimeoutError] does not arise; runs in which tasks are still
    pending at that point, where the limit [global_timeout] and the size
    [max_parallel_connections] of the pool matter, are outside this
    definition. *)
Definition execute_commands (completed : list nat)
    (primary_ips secondary_ips : list string)
    (primary_user secondary_user command : string) : M unit :=
  match primary_ips, secondary_ips with
  | [], [] => logger WARNING "No IP addresses specified"
  | _, _ =>
      if negb (PyStr.nonempty command) then logger WARNING "No command specified"
      else
        let tasks :=
          build_tasks primary_ips secondary_ips primary_user secondary_user command in
        let* futures := submit_all tasks in
        for_each completed
          (fun i =>
             let* is_set := shutdown_is_set in
             if is_set then ret Break
             else
               match futures !! i with
               | None => ret Continue
               | Some (_, Ok (success, output)) =>
                   let* _ := (if PyStr.nonempty output then logger INFO output else ret tt) in
                   ret Continue
               | Some ((user, ip, cmd), Raise e) =>
                   let client_num := List.last (PyStr.split "." ip) "" in
                   let label := "[Client " ++ client_num ++ " | " ++ ip ++ "]" in
                   let* _ := logger ERROR (label ++ " Unexpected error: " ++ exn_text e) in
                   ret Continue
               end)
  end.

End Hub.

(** ** Reference notions used in the statements *)

Module Spec.

(** A token of decimal digits and the number it writes. *)
Definition is_digits (s : string) : bool :=
  PyStr.nonempty s && PyStr.all_chars PyStr.is_decimal s.

Fixpoint value_from (acc : Z) (s : string) : Z :=
  match s with
  | "" => acc
  | String c s' => value_from (10 * acc + PyStr.digit_value c) s'
  end.

Definition decimal_value (s : string) : Z := value_from 0 s.

(** [l] is [a; a+1; ...; b]. *)
Definition interval (a b : Z) (l : list Z) : Prop :=
  Z.of_nat (List.length l) = (b - a + 1)%Z
  /\ forall i, (i < List.length l)%nat -> List.nth i l 0%Z = (a + Z.of_nat i)%Z.

Definition is_empty (s : string) : bool := negb (PyStr.nonempty s).

(** Empty or made of whitespace only. *)
Definition is_blank (s : string) : bool := PyStr.all_chars PyStr.char_isspace s.

(** The lines of [out] that are not [blank], each behind the label,
    joined with line feeds. *)
Definition labelled_lines (blank : string -> bool) (label out : string) : string :=
  PyStr.join PyStr.nl
    (List.map (fun line => label ++ " " ++ line)
       (List.filter (fun line => negb (blank line)) (PyStr.split PyStr.LF out))).

(** One to three decimal digits that write a number of [0..255]. *)
Definition octet_group (g : string) : bool :=
  is_digits g && (String.length g <=? 3)%nat && (decimal_value g <=? 255)%Z.

(** Exactly three groups between dots, each an octet group. *)
Definition three_groups (p : string) : bool :=
  match PyStr.split "." p with
  | [a; b; c] => octet_group a && octet_group b && octet_group c
  | _ => false
  end.

(** [k] dots. *)
Fixpoint dots (k : nat) : string :=
  match k with
  | O => ""
  | S k' => String "." (dots k')
  end.

(** One trailing dot removed, when there is one. *)
Fixpoint strip_one_dot (s : string) : string :=
  match s with
  | "" => ""
  | String c "" => if Ascii.eqb c "." then "" else s
  | String c s' => String c (strip_one_dot s')
  end.

(** What happens to the suffix at position [i] of the list [l]. *)
Inductive disposition : Type := Accepted | Rejected | Duplicate.

Definition disposition_of (valid : string -> bool) (l : list string)
    (i : nat) (s : string) : disposition :=
  if negb (valid s) then Rejected
  else if bool_decide (s ∈ take i l) then Duplicate
  else Accepted.

Definition same (d1 d2 : disposition) : bool :=
  match d1, d2 with
  | Accepted, Accepted | Rejected, Rejected | Duplicate, Duplicate => true
  | _, _ => false
  end.

Fixpoint enumerate_from (n : nat) (l : list string) : list (nat * string) :=
  match l with
  | [] => []
  | x :: l' => (n, x) :: enumerate_from (S n) l'
  end.

(** The suffixes of [rest], the part of [full] from position [n] on,
    that have disposition [d] in [full], in the order of the list. *)
Definition with_disposition_from (valid : string -> bool) (d : disposition)
    (full : list string) (n : nat) (rest : list string) : list string :=
  List.map snd
    (List.filter (fun p => same (disposition_of valid full (fst p) (snd p)) d)
       (enumerate_from n rest)).

(** The suffixes of [l] with disposition [d], in the order of [l]. *)
Definition with_disposition (valid : string -> bool) (d : disposition)
    (l : list string) : list string :=
  with_disposition_from valid d l 0 l.

(** The host of a suffix, and what [_parse_ips] says of a suffix it
    rejects or skips. *)
Definition host_of (self : SSHOperationsHub) (s : string) : string :=
  ip_prefix self ++ "." ++ s.

Definition complaint (s : string) : string :=
  "Invalid or disallowed IP suffix '" ++ s ++ "'".

Definition duplicate_notice (s : string) : level * string :=
  (WARNING, "Skipping duplicate IP suffix '" ++ s ++ "'").

(** The task of one host, for the user template of its group. *)
Definition task_of (user_template command_template ip : string) : task :=
  (PyStr.replace PLACEHOLDER (client_num_of ip) user_template, ip,
   PyStr.replace PLACEHOLDER (client_num_of ip) command_template).

(** The argument vectors of the two invocations of the client for a task. *)
Definition probe_argv (self : SSHOperationsHub) (user ip : string) : list string :=
  (["ssh"] ++ ssh_options self ++ [(user ++ "@" ++ ip)%string; "exit"; "0"])%list.

Definition command_argv (self : SSHOperationsHub) (user ip command : string)
  : list string :=
  (["ssh"] ++ ssh_options self ++ [(user ++ "@" ++ ip)%string; command])%list.

(** The record [_execute_ssh_command] logs before the command phase. *)
Definition running_record (user ip command : string) : level * string :=
  (INFO, label_of ip ++ " Running '" ++ command ++ "' on " ++ user ++ "@" ++ ip).

(** What [execute_commands] logs when it returns before building tasks. *)
Definition guard_notice (primary_ips secondary_ips : list string) (command : string)
  : list (level * string) :=
  match primary_ips, secondary_ips with
  | [], [] => [(WARNING, "No IP addresses specified")]
  | _, _ => if PyStr.nonempty command then [] else [(WARNING, "No command specified")]
  end.

End Spec.

(** A hub and a world to run the examples in. *)
Definition hub0 : SSHOperationsHub :=
  Hub "10.200.142" ["1"; "2"; "3"; "4"; "5"; "20"; "21"; "150"; "151"] 10
    ["-o"; "BatchMode=yes"; "-o"; "ConnectTimeout=5";
     "-o"; "StrictHostKeyChecking=accept-new"; "-o"; "ControlMaster=no"]
    3600 10.

Definition w0 : world := World false [] [].

(** ** Configuration, pre-flight and the entry point *)

(** How a call that can end the process, or not come back, ends.
    [SystemExit] is not an [Exception]: no [except Exception] catches it. *)
Inductive ending (A : Type) : Type :=
| Returns (a : A)
| SystemExit (code : Z)
| NeverReturns.
Arguments Returns {A} a.
Arguments SystemExit {A} code.
Arguments NeverReturns {A}.

Definition ebind {A B} (m : M (ending A)) (k : A -> M (ending B)) : M (ending B) :=
  let* r := m in
  match r with
  | Returns a => k a
  | SystemExit code => ret (SystemExit code)
  | NeverReturns => ret NeverReturns
  end.

Notation "'let!' x := m 'in' k" := (ebind m (fun x => k))
  (at level 10, x name, m at level 100, k at level 200).

(** A configuration file as [_load_config] meets it: absent, or present
    with the lines its iteration yields and the exception, if any, that
    opening or reading it raises after them; or beyond the reach of
    [config_file.exists()], which then raises (an [OSError] that is not
    the absence of the file, such as a directory that cannot be
    searched). *)
Inductive config_file : Type :=
| Absent
| Present (lines : list string) (failure : option exn)
| Inaccessible (e : exn).

(** What [parser.parse_args] returns. *)
Record Namespace : Type := Parsed {
  primary : option (list string);
  secondary : option (list string);
  puser : string;
  suser : string;
  cmd : string;
  ip_prefix_arg : option string
}.

(** The hub as [__init__] sets it before the configuration is loaded. *)
Definition default_hub : SSHOperationsHub :=
  Hub "10.200.142"
    ["1"; "2"; "3"; "4"; "5"; "6"; "7"; "8"; "9"; "10";
     "15"; "17"; "20"; "21"; "22"; "23"; "24"; "25"]
    10
    ["-o"; "BatchMode=yes"; "-o"; "ConnectTimeout=5";
     "-o"; "StrictHostKeyChecking=accept-new"; "-o"; "ControlMaster=no"]
    3600 10.

(** [self.ip_prefix = value] and [self.allowed_ips = value] *)
Definition set_ip_prefix (self : SSHOperationsHub) (value : string) : SSHOperationsHub :=
  Hub value (allowed_ips self) (max_parallel_connections self) (ssh_options self)
    (global_timeout self) (connection_timeout self).

Definition set_allowed_ips (self : SSHOperationsHub) (value : list string)
  : SSHOperationsHub :=
  Hub (ip_prefix self) value (max_parallel_connections self) (ssh_options self)
    (global_timeout self) (connection_timeout self).

(** [self.shutdown_event.set()] *)
Definition shutdown_set : M unit :=
  fun w => (Ok tt, World true (ssh_calls w) (logged w)).

Fixpoint _parse_allowed_ips_loop (ranges : list string) (allowed : list string)
  : result (list string) :=
  match ranges with
  | [] => Ok allowed
  | range_str :: rest =>
      let? expanded := _expand_range range_str in
      _parse_allowed_ips_loop rest (allowed ++ expanded)
  end.

Definition _parse_allowed_ips (allowed_ips_str : string) : result (list string) :=
  let ranges := PyStr.split_ws allowed_ips_str in
  _parse_allowed_ips_loop ranges [].

(** The body of the loop over the lines of a configuration file. *)
Definition _load_config_line (self : SSHOperationsHub) (line : string)
  : result SSHOperationsHub :=
  let line := PyStr.strip line in
  if PyStr.nonempty line && negb (PyStr.startswith "#" line) then
    if PyStr.contains "=" line then
      match PyStr.split_max 1 "=" line with
      | [key; value] =>
          let key := PyStr.strip key in
          let value := PyStr.strip_chars PyStr.dquote (PyStr.strip value) in
          if String.eqb key "IP_PREFIX" then Ok (set_ip_prefix self value)
          else if String.eqb key "ALLOWED_IPS" then
            let? allowed := _parse_allowed_ips value in
            Ok (set_allowed_ips self allowed)
          else Ok self
      | _ => Raise ValueError           (* the unpacking fails *)
      end
    else Ok self
  else Ok self.

(** The [with open ... for line in f] of one file: the hub as the lines
    read so far have left it, and the exception that ended the reading,
    if one did. *)
Fixpoint _load_config_file (self : SSHOperationsHub) (lines : list string)
    (failure : option exn) : SSHOperationsHub * option exn :=
  match lines with
  | [] => (self, failure)
  | line :: rest =>
      match _load_config_line self line with
      | Ok self' => _load_config_file self' rest failure
      | Raise e => (self, Some e)
      end
  end.

Section Entry.

Variable client : nat -> list string -> process.
Variable exn_text : exn -> string.

(** [parser.parse_args(args)], which ends the process on a bad command
    line. *)
Variable parse_args : list string -> ending Namespace.

(** The loop of [_load_config] over the configuration locations, each
    with the text of its path and what is found there. The test
    [config_file.exists()] is outside the [try]: what it raises leaves
    the loop. *)
Fixpoint _load_config (config_locations : list (string * config_file))
    (self : SSHOperationsHub) : M SSHOperationsHub :=
  match config_locations with
  | [] => ret self
  | (config_file, Absent) :: rest => _load_config rest self
  | (config_file, Inaccessible e) :: rest => raise e
  | (config_file, Present lines failure) :: rest =>
      match _load_config_file self lines failure with
      | (self', None) => ret self'                                  (* break *)
      | (self', Some e) =>
          let* _ := logger WARNING ("Failed to load config from " ++ config_file
                                    ++ ": " ++ exn_text e) in
          _load_config rest self'
      end
  end.

(** [__init__]. The fields are set to their defaults; [signal_signal]
    is what the two registrations of the handler do ([signal.signal]
    raises [ValueError] outside the main thread); the set-up of the logger
    is taken to succeed; [config_locations] is the list that
    [_load_config] builds before its loop, or the exception of
    [Path.home()] when the home directory cannot be determined. *)
Definition __init__ (signal_signal : result unit)
    (config_locations : result (list (string * config_file)))
  : M SSHOperationsHub :=
  match signal_signal with
  | Raise e => raise e
  | Ok _ =>
      match config_locations with
      | Raise e => raise e
      | Ok config_locations => _load_config config_locations default_hub
      end
  end.

Definition _signal_handler : M (ending unit) :=
  let* _ := logger INFO "Interrupted! Stopping all SSH connections..." in
  let* _ := shutdown_set in
  ret (SystemExit 1).

(** [subprocess.run(args, check=True)] without a timeout and with the
    output sent to [DEVNULL]: a client that hangs is waited for. *)
Definition subprocess_run_untimed (args : list string) : M (ending CompletedProcess) :=
  fun w =>
    let w' := World (shutdown_event w) (ssh_calls w ++ [args]) (logged w) in
    match client (List.length (ssh_calls w)) args with
    | NotLaunched => (Raise FileNotFoundError, w')
    | Fails e => (Raise e, w')
    | Hangs => (Ok NeverReturns, w')
    | Exits rc out err =>
        if (rc =? 0)%Z then (Ok (Returns (Completed rc None None)), w')
        else (Raise (CalledProcessError rc None None), w')
    end.

Definition _check_ssh : M (ending bool) :=
  let* checked := attempt (subprocess_run_untimed ["ssh"; "-V"]) in
  match checked with
  | Ok (Returns _) => ret (Returns true)
  | Ok (SystemExit code) => ret (SystemExit code)
  | Ok NeverReturns => ret NeverReturns
  | Raise (CalledProcessError _ _ _) | Raise FileNotFoundError => ret (Returns false)
  | Raise e => raise e
  end.

(** [for error in errors: self.logger.error(f"Error: {error}")] *)
Fixpoint log_errors (errors : list string) : M unit :=
  match errors with
  | [] => ret tt
  | error :: rest =>
      let* _ := logger ERROR ("Error: " ++ error) in
      log_errors rest
  end.

(** The two blocks of [run] that validate a group of suffixes. *)
Definition run_parse_group (self : SSHOperationsHub) (group : option (list string))
  : M (list string) :=
  match group with
  | Some (suffix :: suffixes) =>
      let* parsed := _parse_ips self (suffix :: suffixes) in
      let* _ := log_errors (snd parsed) in
      ret (fst parsed)
  | _ => ret []
  end.

(** [run]. [completed] is the order in which [as_completed] yields the
    futures of the dispatch, as for [execute_commands]. *)
Definition run (self : SSHOperationsHub) (completed : list nat) (args : list string)
  : M (ending unit) :=
  let! available := _check_ssh in
  if negb available then
    let* _ := logger ERROR "Error: SSH client is not installed" in
    ret (SystemExit 1)
  else
    let! parsed_args := ret (parse_args args) in
    let! self :=
      match ip_prefix_arg parsed_args with
      | Some (String c given) =>
          let prefix := PyStr.rstrip "." (String c given) in
          match _validate_ip_prefix prefix with
          | Raise e => raise e
          | Ok false =>
              let* _ := logger ERROR
                          "Error: Invalid IP prefix format. Use format: XXX.XXX.XXX (0-255)" in
              ret (SystemExit 1)
          | Ok true => ret (Returns (set_ip_prefix self prefix))
          end
      | _ => ret (Returns self)
      end in
    let* primary_ips := run_parse_group self (primary parsed_args) in
    let* secondary_ips := run_parse_group self (secondary parsed_args) in
    match primary_ips, secondary_ips with
    | [], [] =>
        let* _ := logger ERROR "Error: No valid IP addresses found" in
        ret (SystemExit 1)
    | _, _ =>
        if negb (PyStr.nonempty (cmd parsed_args)) then
          let* _ := logger ERROR "Error: No command specified" in
          ret (SystemExit 1)
        else
          let* _ := execute_commands self client exn_text completed
                      primary_ips secondary_ips
                      (puser parsed_args) (suser parsed_args) (cmd parsed_args) in
          ret (Returns tt)
    end.

End Entry.

(** ** Reference notions for the further properties *)

Module Ref.

(** What a token of the allow-list expands to. *)
Definition expansion (token : string) : list string :=
  match _expand_range token with
  | Ok l => l
  | Raise _ => []
  end.

(** The settings that no configuration file can change. *)
Definition same_settings (a b : SSHOperationsHub) : Prop :=
  max_parallel_connections a = max_parallel_connections b
  /\ ssh_options a = ssh_options b
  /\ global_timeout a = global_timeout b
  /\ connection_timeout a = connection_timeout b.

(** The exceptions that the two [except] clauses of
    [_execute_ssh_command] name. *)
Definition handled (e : exn) : bool :=
  match e with
  | TimeoutExpired | CalledProcessError _ _ _ => true
  | _ => false
  end.

(** The call of [subprocess.run] raises [e] by itself. *)
Definition call_raises (p : process) (e : exn) : Prop :=
  (p = NotLaunched /\ e = FileNotFoundError) \/ p = Fails e.

(** Not empty and without whitespace: what [str.split()] yields. *)
Definition is_token (t : string) : bool :=
  PyStr.nonempty t && PyStr.all_chars (fun c => negb (PyStr.char_isspace c)) t.

(** The body of the result loop of [execute_commands], for the futures
    of the submitted tasks. *)
Definition report (exn_text : exn -> string)
    (futures : list (task * result (bool * string))) (i : nat) : M flow :=
  let* is_set := shutdown_is_set in
  if is_set then ret Break
  else
    match futures !! i with
    | None => ret Continue
    | Some (_, Ok (success, output)) =>
        let* _ := (if PyStr.nonempty output then logger INFO output else ret tt) in
        ret Continue
    | Some ((user, ip, cmd), Raise e) =>
        let client_num := List.last (PyStr.split "." ip) "" in
        let label := "[Client " ++ client_num ++ " | " ++ ip ++ "]" in
        let* _ := logger ERROR (label ++ " Unexpected error: " ++ exn_text e) in
        ret Continue
    end.

(** The exceptions that the [except] clause of [_check_ssh] names. *)
Definition check_catches (e : exn) : bool :=
  match e with
  | CalledProcessError _ _ _ | FileNotFoundError => true
  | _ => false
  end.

(** What [run] logs while it validates a group of suffixes: the warnings
    of [_parse_ips] for the repeated suffixes, then one error for each
    suffix that fails the validation. *)
Definition group_records (self : SSHOperationsHub) (group : option (list string))
  : list (level * string) :=
  (List.map Spec.duplicate_notice
     (Spec.with_disposition (_validate_ip_suffix self) Spec.Duplicate (default [] group))
   ++ List.map (fun s => (ERROR, ("Error: " ++ Spec.complaint s)%string))
        (Spec.with_disposition (_validate_ip_suffix self) Spec.Rejected
           (default [] group)))%list.

(** [Some q] when the string is [q] followed by one line feed. *)
Fixpoint without_final_lf (s : string) : option string :=
  match s with
  | "" => None
  | String c s' =>
      match s' with
      | "" => if Ascii.eqb c PyStr.LF then Some "" else None
      | _ => option_map (String c) (without_final_lf s')
      end
  end.

End Ref.

(** * Properties *)

(** ** Strings *)

#[local] Arguments String.append !s1 s2 : simpl nomatch.

Section StringFacts.

Lemma str_app_assoc (a b c : string) : (a ++ b) ++ c = a ++ b ++ c.
Proof. induction a as [|x a IH]; simpl; [done | by rewrite IH]. Qed.

Lemma str_app_nil_r (a : string) : a ++ "" = a.
Proof. induction a as [|x a IH]; simpl; [done | by rewrite IH]. Qed.

Lemma str_app_length (a b : string) :
  String.length (a ++ b) = (String.length a + String.length b)%nat.
Proof. induction a as [|x a IH]; simpl; [done | by rewrite IH]. Qed.

Lemma prefix_iff (a s : string) :
  String.prefix a s = true <-> exists b, s = a ++ b.
Proof.
  revert s. induction a as [|x a IH]; intros s.
  - split; [intros _; by exists s | by destruct s].
  - destruct s as [|y s]; simpl.
    + split; [done | intros [b Hb]; discriminate].
    + destruct (ascii_dec x y) as [->|Hne].
      * rewrite IH. split; intros [b Hb]; exists b; congruence.
      * split; [done | intros [b Hb]; congruence].
Qed.

Lemma prefix_app (a s t : string) :
  String.prefix a s = true -> String.prefix a (s ++ t) = true.
Proof.
  rewrite !prefix_iff. intros [b ->]. exists (b ++ t). apply str_app_assoc.
Qed.

Lemma contains_iff (sub s : string) :
  PyStr.contains sub s = true <-> exists a b, s = a ++ sub ++ b.
Proof.
  induction s as [|x s IH]; cbn [PyStr.contains].
  - rewrite orb_false_r, prefix_iff. split.
    + intros [b Hb]. by exists "", b.
    + intros [a [b Hb]]. destruct a; [by exists b | discriminate].
  - rewrite orb_true_iff, IH, prefix_iff. split.
    + intros [[b Hb] | [a [b Hb]]].
      * by exists "", b.
      * exists (String x a), b. simpl. by rewrite Hb.
    + intros [a [b Hb]]. destruct a as [|y a]; simpl in Hb.
      * left. by exists b.
      * right. exists a, b. congruence.
Qed.

Lemma contains_cons_false (sub : string) (x : ascii) (s : string) :
  PyStr.contains sub (String x s) = false ->
  String.prefix sub (String x s) = false /\ PyStr.contains sub s = false.
Proof. cbn [PyStr.contains]. by rewrite orb_false_iff. Qed.

End StringFacts.

(** ** Splitting and joining *)

Section SplitFacts.

Lemma split_nonempty (sep : ascii) (s : string) : PyStr.split sep s <> [].
Proof.
  destruct s as [|x s]; simpl; [done |].
  destruct (Ascii.eqb x sep); [done |].
  by destruct (PyStr.split sep s).
Qed.

Lemma split_app_sep (sep : ascii) (a b : string) :
  PyStr.split sep (a ++ String sep b) = (PyStr.split sep a ++ PyStr.split sep b)%list.
Proof.
  induction a as [|x a IH]; simpl.
  - by rewrite Ascii.eqb_refl.
  - rewrite IH. destruct (Ascii.eqb x sep); [done |].
    pose proof (split_nonempty sep a) as Hne.
    by destruct (PyStr.split sep a).
Qed.

Lemma split_without_sep (p : ascii -> bool) (sep : ascii) (s : string) :
  p sep = false -> PyStr.all_chars p s = true -> PyStr.split sep s = [s].
Proof.
  intros Hsep. induction s as [|x s IH]; simpl; [done |].
  rewrite andb_true_iff. intros [Hx Hs].
  destruct (Ascii.eqb_spec x sep) as [->|_]; [congruence |].
  by rewrite (IH Hs).
Qed.

Lemma join_split (sep : ascii) (s : string) :
  PyStr.join (String sep "") (PyStr.split sep s) = s.
Proof.
  induction s as [|x s IH]; simpl; [done |].
  pose proof (split_nonempty sep s) as Hne.
  destruct (Ascii.eqb_spec x sep) as [->|_].
  - destruct (PyStr.split sep s) as [|w ws]; [done |].
    change (PyStr.join (String sep "") ("" :: w :: ws))
      with ("" ++ String sep "" ++ PyStr.join (String sep "") (w :: ws)).
    by rewrite IH.
  - destruct (PyStr.split sep s) as [|w ws]; [done |].
    destruct ws as [|w' ws]; simpl in *; by rewrite <- IH.
Qed.

Lemma join_cons (sep x y : string) (l : list string) :
  PyStr.join sep (x :: y :: l) = x ++ sep ++ PyStr.join sep (y :: l).
Proof. reflexivity. Qed.

Lemma fold_left_snoc {A B} (f : A -> B) (l : list A) (init : list B) :
  List.fold_left (fun acc x => (acc ++ [f x])%list) l init = (init ++ List.map f l)%list.
Proof.
  revert init. induction l as [|x l IH]; intros init; simpl.
  - by rewrite app_nil_r.
  - rewrite IH. by rewrite <- app_assoc.
Qed.

Lemma client_num_of_host (prefix suffix : string) :
  PyStr.isdigit suffix = true -> client_num_of (prefix ++ "." ++ suffix) = suffix.
Proof.
  unfold PyStr.isdigit, client_num_of. rewrite andb_true_iff. intros [_ Hd].
  change ("." ++ suffix) with (String "." suffix).
  rewrite split_app_sep, (split_without_sep PyStr.char_isdigit "." suffix); [| done | done].
  apply last_last.
Qed.

End SplitFacts.

(** ** Substitution of the placeholder *)

Section Replace.

Lemma replace_go_skip (old new u s : string) :
  PyStr.replace_go old new (String.length u) (u ++ s) = PyStr.replace_go old new 0 s.
Proof.
  induction u as [|x u IH]; simpl; [| done].
  by destruct s.
Qed.

Lemma replace_go_hit (x : ascii) (old' new s : string) :
  PyStr.replace_go (String x old') new 0 (String x old' ++ s)
  = new ++ PyStr.replace_go (String x old') new 0 s.
Proof.
  cbn [String.append PyStr.replace_go].
  assert (String.prefix (String x old') (String x (old' ++ s)) = true) as ->.
  { apply prefix_iff. by exists s. }
  cbn [String.length].
  replace (S (String.length old') - 1)%nat with (String.length old') by lia.
  by rewrite replace_go_skip.
Qed.

Lemma replace_go_miss (old new : string) (x : ascii) (s : string) :
  String.prefix old (String x s) = false ->
  PyStr.replace_go old new 0 (String x s) = String x (PyStr.replace_go old new 0 s).
Proof. cbn [PyStr.replace_go]. by intros ->. Qed.

Lemma replace_go_free (old new t : string) :
  PyStr.contains old t = false -> PyStr.replace_go old new 0 t = t.
Proof.
  induction t as [|x t IH]; [done |].
  intros [Hp Hc]%contains_cons_false.
  by rewrite replace_go_miss, IH.
Qed.

(** A prefix of [t ++ r] lies in [t] or runs over its end. *)
Lemma prefix_straddle (p t r : string) :
  String.prefix p (t ++ r) = true ->
  String.prefix p t = true
  \/ exists v, v <> "" /\ p = t ++ v /\ String.prefix v r = true.
Proof.
  revert p. induction t as [|y t IH]; intros p.
  - destruct p as [|x p]; [by left |]. right. by exists (String x p).
  - destruct p as [|x p]; [by left |].
    cbn [String.append String.prefix].
    destruct (ascii_dec x y) as [->|_]; [| done].
    intros [Hp | (v & Hv & -> & Hr)]%IH; [by left | right].
    by exists v.
Qed.

(** The first character of the placeholder occurs nowhere else in it. *)
Lemma placeholder_no_inner_dollar (x : ascii) (u v : string) :
  PLACEHOLDER = String x u ++ String "$" v -> False.
Proof.
  unfold PLACEHOLDER. cbn [String.append]. intros H. injection H as _ H.
  do 10 (destruct u as [|? u]; cbn [String.append] in H;
         [discriminate | injection H as _ H]).
  destruct u; discriminate.
Qed.

Lemma placeholder_not_across (t rest : string) :
  t <> "" ->
  String.prefix PLACEHOLDER t = false ->
  String.prefix PLACEHOLDER (t ++ PLACEHOLDER ++ rest) = false.
Proof.
  intros Hne Hp. apply not_true_is_false.
  intros [Hin | (v & Hv & Heq & Hr)]%prefix_straddle; [congruence |].
  destruct t as [|x t]; [done |].
  destruct v as [|y v]; [done |].
  unfold PLACEHOLDER at 1 in Hr. cbn [String.append String.prefix] in Hr.
  destruct (ascii_dec y "$") as [->|_]; [| done].
  by apply placeholder_no_inner_dollar in Heq.
Qed.

Lemma replace_go_piece (new t rest : string) :
  PyStr.contains PLACEHOLDER t = false ->
  PyStr.replace_go PLACEHOLDER new 0 (t ++ PLACEHOLDER ++ rest)
  = t ++ new ++ PyStr.replace_go PLACEHOLDER new 0 rest.
Proof.
  induction t as [|x t IH]; intros Hfree.
  - apply (replace_go_hit "$" "CLIENT_NUM").
  - pose proof Hfree as [Hp Hc]%contains_cons_false.
    cbn [String.append]. rewrite replace_go_miss.
    + by rewrite IH.
    + by apply (placeholder_not_across (String x t)).
Qed.

Lemma substitute_unfold (text client_num : string) :
  _substitute_variables text client_num
  = PyStr.replace_go PLACEHOLDER client_num 0 text.
Proof. reflexivity. Qed.

Lemma substitute_join (pieces : list string) (client_num : string) :
  pieces <> [] ->
  Forall (fun t => PyStr.contains PLACEHOLDER t = false) pieces ->
  _substitute_variables (PyStr.join PLACEHOLDER pieces) client_num
  = PyStr.join client_num pieces.
Proof.
  rewrite substitute_unfold.
  induction pieces as [|t pieces IH]; [done |]. intros _ Hall.
  apply Forall_cons in Hall as [Ht Hall].
  destruct pieces as [|t' pieces].
  - by apply replace_go_free.
  - rewrite !join_cons, replace_go_piece by done.
    by rewrite IH.
Qed.

Lemma placeholder_pieces (text : string) :
  exists pieces,
    pieces <> []
    /\ Forall (fun t => PyStr.contains PLACEHOLDER t = false) pieces
    /\ text = PyStr.join PLACEHOLDER pieces.
Proof.
  remember (String.length text) as n eqn:Hn.
  revert text Hn. induction n as [n IH] using lt_wf_ind. intros text ->.
  destruct text as [|x text].
  - exists [""]. repeat split; [done | by constructor].
  - destruct (String.prefix PLACEHOLDER (String x text)) eqn:Hp.
    + apply prefix_iff in Hp as [r Hr].
      destruct (IH (String.length r)) with (text := r) as (ps & Hne & Hall & ->); [| done |].
      { rewrite Hr, str_app_length. unfold PLACEHOLDER. simpl. lia. }
      exists ("" :: ps). split; [done |]. split; [by constructor |].
      rewrite Hr. by destruct ps.
    + destruct (IH (String.length text)) with (text := text)
        as (ps & Hne & Hall & Heq); [simpl; lia | done |].
      destruct ps as [|q ps]; [done |].
      apply Forall_cons in Hall as [Hq Hall].
      exists (String x q :: ps). split; [done |]. split.
      * constructor; [| done]. cbn [PyStr.contains]. rewrite Hq, orb_false_r.
        apply not_true_is_false. intros Hpq.
        assert (String.prefix PLACEHOLDER (String x text) = true); [| congruence].
        rewrite Heq. destruct ps as [|q' ps].
        -- done.
        -- rewrite join_cons. by apply (prefix_app _ (String x q)).
      * rewrite Heq. by destruct ps.
Qed.

End Replace.

(** C10. [_substitute_variables] replaces every occurrence of the
    placeholder: a text cut at its occurrences into pieces free of the
    placeholder comes back as the same pieces with the client number
    between them, every text can be cut that way, a text without the
    placeholder comes back unchanged, and an occurrence that starts a
    longer name is replaced like any other. *)
Theorem substitute_replaces_every_placeholder :
  (forall (pieces : list string) (client_num : string),
      pieces <> [] ->
      Forall (fun t => PyStr.contains PLACEHOLDER t = false) pieces ->
      _substitute_variables (PyStr.join PLACEHOLDER pieces) client_num
      = PyStr.join client_num pieces)
  /\ (forall text : string,
        exists pieces,
          pieces <> []
          /\ Forall (fun t => PyStr.contains PLACEHOLDER t = false) pieces
          /\ text = PyStr.join PLACEHOLDER pieces)
  /\ (forall text client_num : string,
        PyStr.contains PLACEHOLDER text = false ->
        _substitute_variables text client_num = text)
  /\ (forall client_num : string,
        _substitute_variables "id $CLIENT_NUMBER of $CLIENT_NUM" client_num
        = "id " ++ client_num ++ "BER of " ++ client_num).
Proof.
  split; [exact substitute_join |].
  split; [exact placeholder_pieces |].
  split.
  - intros text client_num Hfree.
    apply (substitute_join [text] client_num); [done | by constructor].
  - intros client_num.
    transitivity (PyStr.join client_num ["id "; "BER of "; ""]).
    + apply (substitute_join ["id "; "BER of "; ""] client_num); [done |].
      by repeat constructor.
    + rewrite !join_cons. cbn [PyStr.join]. by rewrite str_app_nil_r.
Qed.

Lemma substitute_replaces_every_placeholder_witness :
  _substitute_variables "user$CLIENT_NUM@$CLIENT_NUMBER" "7" = "user7@7BER"
  /\ _substitute_variables "echo test" "5" = "echo test".
Proof.
  split.
  - apply (proj1 substitute_replaces_every_placeholder ["user"; "@"; "BER"] "7").
    + discriminate.
    + repeat constructor.
  - apply (proj1 (proj2 (proj2 substitute_replaces_every_placeholder)) "echo test" "5").
    reflexivity.
Defined.

(** C4. The task list is the primary tasks followed by the secondary
    tasks, each group in the order of its hosts; the user and the command
    of a task are its group's user template and the command template with
    the placeholder replaced by the last dotted segment of the host, which
    for a host built from a validated suffix is that suffix; empty host
    lists give no task. *)
Theorem build_tasks_primary_then_secondary :
  (forall (primary_ips secondary_ips : list string)
          (primary_user secondary_user command : string),
      build_tasks primary_ips secondary_ips primary_user secondary_user command
      = (List.map (Spec.task_of primary_user command) primary_ips
         ++ List.map (Spec.task_of secondary_user command) secondary_ips)%list)
  /\ (forall (prefix suffix user_template command : string),
        PyStr.isdigit suffix = true ->
        Spec.task_of user_template command (prefix ++ "." ++ suffix)
        = (_substitute_variables user_template suffix, prefix ++ "." ++ suffix,
           _substitute_variables command suffix))
  /\ (forall primary_user secondary_user command : string,
        build_tasks [] [] primary_user secondary_user command = []).
Proof.
  split; [| split].
  - intros. unfold build_tasks.
    rewrite (fold_left_snoc
               (fun ip => (_substitute_variables primary_user (List.last (PyStr.split "." ip) ""),
                           ip,
                           _substitute_variables command (List.last (PyStr.split "." ip) "")))).
    rewrite (fold_left_snoc
               (fun ip => (_substitute_variables secondary_user (List.last (PyStr.split "." ip) ""),
                           ip,
                           _substitute_variables command (List.last (PyStr.split "." ip) "")))).
    done.
  - intros prefix suffix user_template command Hd.
    unfold Spec.task_of. by rewrite client_num_of_host.
  - done.
Qed.

Lemma build_tasks_primary_then_secondary_witness :
  Spec.task_of "user$CLIENT_NUM" "echo $CLIENT_NUM" ("10.200.142" ++ "." ++ "21")
  = ("user21", "10.200.142.21", "echo 21").
Proof.
  apply (proj1 (proj2 build_tasks_primary_then_secondary)
           "10.200.142" "21" "user$CLIENT_NUM" "echo $CLIENT_NUM").
  reflexivity.
Defined.

Example build_tasks_ex :
  build_tasks ["10.0.0.1"; "10.0.0.2"] [] "u$CLIENT_NUM" "admin" "echo $CLIENT_NUM"
  = [("u1", "10.0.0.1", "echo 1"); ("u2", "10.0.0.2", "echo 2")].
Proof. reflexivity. Qed.

(** ** The remote executor *)

Section Executor.

Variable self : SSHOperationsHub.
Variable client : nat -> list string -> process.

Lemma fold_left_keep {A B} (keep : A -> bool) (f : A -> B) (l : list A) (init : list B) :
  List.fold_left (fun acc x => if keep x then (acc ++ [f x])%list else acc) l init
  = (init ++ List.map f (List.filter keep l))%list.
Proof.
  revert init. induction l as [|x l IH]; intros init; simpl.
  - by rewrite app_nil_r.
  - rewrite IH. destruct (keep x); [| done]. simpl. by rewrite <- app_assoc.
Qed.

Lemma execute_after_probe (user ip command : string) (w : world) (o e : string) :
  shutdown_event w = false ->
  client (List.length (ssh_calls w)) (Spec.probe_argv self user ip) = Exits 0 o e ->
  _execute_ssh_command self client user ip command w
  = (let w2 := World false
                 (ssh_calls w ++ [Spec.probe_argv self user ip;
                                  Spec.command_argv self user ip command])
                 (logged w ++ [Spec.running_record user ip command]) in
     match client (S (List.length (ssh_calls w)))
             (Spec.command_argv self user ip command) with
     | NotLaunched => (Raise FileNotFoundError, w2)
     | Fails TimeoutExpired =>
         (Ok (false, label_of ip ++ " Error: Command timed out"), w2)
     | Fails (CalledProcessError rc _ err) =>
         (Ok (false,
              label_of ip ++ " Error: Command failed with status " ++ PyStr.str rc
              ++ PyStr.nl ++ label_of ip ++ " Output: "
              ++ match err with
                 | Some e => if PyStr.nonempty e then PyStr.strip e else "Unknown error"
                 | None => "Unknown error"
                 end), w2)
     | Fails e => (Raise e, w2)
     | Hangs => (Ok (false, label_of ip ++ " Error: Command timed out"), w2)
     | Exits rc out err =>
         if (rc =? 0)%Z
         then (Ok (true,
                   PyStr.join PyStr.nl
                     (List.fold_left
                        (fun output_lines line =>
                           if PyStr.nonempty line
                           then (output_lines ++ [(label_of ip ++ " " ++ line)%string])%list
                           else output_lines)
                        (PyStr.split PyStr.LF (PyStr.strip out)) [])), w2)
         else (Ok (false,
                   label_of ip ++ " Error: Command failed with status " ++ PyStr.str rc
                   ++ PyStr.nl ++ label_of ip ++ " Output: "
                   ++ (if PyStr.nonempty err then PyStr.strip err else "Unknown error")), w2)
     end).
Proof.
  destruct w as [sd calls log]. cbn [shutdown_event ssh_calls logged].
  intros -> Hprobe.
  unfold _execute_ssh_command, bind, attempt, shutdown_is_set, subprocess_run, logger,
    ret, raise.
  cbn [shutdown_event ssh_calls logged].
  fold (Spec.probe_argv self user ip). rewrite Hprobe.
  cbn [Z.eqb shutdown_event ssh_calls logged].
  fold (Spec.command_argv self user ip command).
  rewrite length_app. cbn [List.length]. rewrite Nat.add_1_r, <- app_assoc.
  cbn [app].
  destruct (client (S (List.length calls)) (Spec.command_argv self user ip command))
    as [rc out err | | | e']; [| done | done | by destruct e'].
  destruct (rc =? 0)%Z; done.
Qed.

End Executor.




(** C2, as the code has it. After a successful probe and a command that
    exits with status zero, the result is a success whose message is the
    captured standard output, stripped of the whitespace at its two ends,
    cut at line feeds, without its empty lines, each line behind the label
    [[Client <last dotted segment of the host> | <host>]] and a space, the
    lines joined with line feeds. *)
Theorem success_message_is_labelled_lines
    (self : SSHOperationsHub) (client : nat -> list string -> process)
    (user ip command : string) (w : world) (out err : string) :
  shutdown_event w = false ->
  (exists o e, client (List.length (ssh_calls w)) (Spec.probe_argv self user ip)
               = Exits 0 o e) ->
  client (S (List.length (ssh_calls w))) (Spec.command_argv self user ip command)
  = Exits 0 out err ->
  fst (_execute_ssh_command self client user ip command w)
  = Ok (true,
        Spec.labelled_lines Spec.is_empty
          ("[Client " ++ List.last (PyStr.split "." ip) "" ++ " | " ++ ip ++ "]")
          (PyStr.strip out)).
Proof.
  intros Hsd (o & e & Hprobe) Hcmd.
  rewrite (execute_after_probe self client user ip command w o e Hsd Hprobe), Hcmd.
  cbn [Z.eqb fst]. rewrite fold_left_keep. cbn [app].
  unfold Spec.labelled_lines, Spec.is_empty, label_of, client_num_of.
  do 4 f_equal. apply filter_ext. intros line. by destruct (PyStr.nonempty line).
Qed.

Lemma success_message_is_labelled_lines_witness :
  fst (_execute_ssh_command hub0
         (fun n _ => match n with
                     | O => Exits 0 "" ""
                     | S _ =>
                         Exits 0 ("  Hello World" ++ PyStr.nl ++ PyStr.nl
                                  ++ "Line 2" ++ PyStr.nl) ""
                     end)
         "testuser" "10.200.142.1" "echo test" w0)
  = Ok (true, "[Client 1 | 10.200.142.1] Hello World" ++ PyStr.nl
              ++ "[Client 1 | 10.200.142.1] Line 2").
Proof.
  apply (success_message_is_labelled_lines hub0 _ "testuser" "10.200.142.1" "echo test" w0
           ("  Hello World" ++ PyStr.nl ++ PyStr.nl ++ "Line 2" ++ PyStr.nl) "" eq_refl).
  - exists "", "". reflexivity.
  - reflexivity.
Defined.

(** C2 fails on output that starts with whitespace: the message is not
    the labelled lines of the captured output itself, whether a blank line
    is an empty line or a line of whitespace. *)
Lemma success_message_loses_leading_whitespace :
  let out := " 12:00:01 up 10 days" ++ PyStr.nl in
  let message :=
    fst (_execute_ssh_command hub0 (fun _ _ => Exits 0 out "")
           "root" "10.200.142.1" "uptime" w0) in
  message = Ok (true, "[Client 1 | 10.200.142.1] 12:00:01 up 10 days")
  /\ Spec.labelled_lines Spec.is_empty "[Client 1 | 10.200.142.1]" out
     = "[Client 1 | 10.200.142.1]  12:00:01 up 10 days"
  /\ Spec.labelled_lines Spec.is_blank "[Client 1 | 10.200.142.1]" out
     = "[Client 1 | 10.200.142.1]  12:00:01 up 10 days".
Proof. repeat split. Qed.

(** C3. After a successful probe, a command that runs past the timeout
    gives a failure whose message says that the command timed out; a
    command that exits with a non-zero status gives a failure whose
    message includes that status and the captured error output (the text
    between the whitespace at its two ends), or the words Unknown error
    when no error output was captured.  The message is given in full. *)
Theorem command_failure_messages
    (self : SSHOperationsHub) (client : nat -> list string -> process)
    (user ip command : string) (w : world) :
  shutdown_event w = false ->
  (exists o e, client (List.length (ssh_calls w)) (Spec.probe_argv self user ip)
               = Exits 0 o e) ->
  let outcome :=
    client (S (List.length (ssh_calls w))) (Spec.command_argv self user ip command) in
  (outcome = Hangs ->
   fst (_execute_ssh_command self client user ip command w)
   = Ok (false, label_of ip ++ " Error: Command timed out"))
  /\ (forall rc out err,
         outcome = Exits rc out err -> rc <> 0%Z ->
         exists message,
           fst (_execute_ssh_command self client user ip command w)
           = Ok (false, message)
           /\ message
              = label_of ip ++ " Error: Command failed with status " ++ PyStr.str rc
                ++ PyStr.nl ++ label_of ip ++ " Output: "
                ++ (if PyStr.nonempty err then PyStr.strip err else "Unknown error")
           /\ PyStr.contains (PyStr.str rc) message = true
           /\ PyStr.contains
                (if PyStr.nonempty err then PyStr.strip err else "Unknown error")
                message
              = true).
Proof.
  intros Hsd (o & e & Hprobe) outcome. subst outcome.
  rewrite (execute_after_probe self client user ip command w o e Hsd Hprobe).
  split.
  - by intros ->.
  - intros rc out err -> Hrc. apply Z.eqb_neq in Hrc. rewrite Hrc.
    eexists. split; [done |]. split; [done |]. split.
    + apply contains_iff.
      exists (label_of ip ++ " Error: Command failed with status "), 
        (PyStr.nl ++ label_of ip ++ " Output: "
         ++ (if PyStr.nonempty err then PyStr.strip err else "Unknown error")).
      by rewrite !str_app_assoc.
    + apply contains_iff.
      exists (label_of ip ++ " Error: Command failed with status " ++ PyStr.str rc
              ++ PyStr.nl ++ label_of ip ++ " Output: "), "".
      by rewrite str_app_nil_r, !str_app_assoc.
Qed.

Lemma command_failure_messages_witness :
  let message :=
    "[Client 1 | 10.200.142.1] Error: Command failed with status 127"
    ++ PyStr.nl ++ "[Client 1 | 10.200.142.1] Output: command not found" in
  fst (_execute_ssh_command hub0
         (fun n _ => match n with
                     | O => Exits 0 "" ""
                     | S _ => Exits 127 "" ("command not found" ++ PyStr.nl)
                     end)
         "testuser" "10.200.142.1" "badcommand" w0)
  = Ok (false, message)
  /\ PyStr.contains "127" message = true
  /\ PyStr.contains "command not found" message = true.
Proof.
  destruct (proj2 (command_failure_messages hub0
                     (fun n _ => match n with
                                 | O => Exits 0 "" ""
                                 | S _ => Exits 127 "" ("command not found" ++ PyStr.nl)
                                 end)
                     "testuser" "10.200.142.1" "badcommand" w0 eq_refl
                     (ex_intro _ "" (ex_intro _ "" eq_refl)))
              127%Z "" ("command not found" ++ PyStr.nl) eq_refl ltac:(discriminate))
    as (message & Hrun & -> & Hstatus & Houtput).
  split; [exact Hrun |]. split; [exact Hstatus | exact Houtput].
Defined.

(** ** Shutdown *)

Section Shutdown.

Variable self : SSHOperationsHub.
Variable client : nat -> list string -> process.
Variable exn_text : exn -> string.

Lemma execute_when_shutdown (user ip command : string) (w : world) :
  shutdown_event w = true ->
  _execute_ssh_command self client user ip command w
  = (Ok (false, label_of ip ++ " Aborted due to shutdown"), w).
Proof.
  intros Hsd.
  unfold _execute_ssh_command, bind, shutdown_is_set, ret. by rewrite Hsd.
Qed.

Lemma submit_all_when_shutdown (tasks : list task) (w : world) :
  shutdown_event w = true ->
  exists futures, submit_all self client tasks w = (Ok futures, w).
Proof.
  intros Hsd. induction tasks as [|[[user ip] cmd] tasks [futures IH]].
  - by exists [].
  - cbn [submit_all]. unfold bind, attempt at 1.
    rewrite execute_when_shutdown by done.
    fold (@bind (list (task * result (bool * string)))). unfold bind. rewrite IH.
    by eexists.
Qed.

Lemma result_loop_when_shutdown (completed : list nat) (body : nat -> M flow) (w : world) :
  shutdown_event w = true ->
  for_each completed
    (fun i => let* is_set := shutdown_is_set in
              if is_set then ret Break else body i) w
  = (Ok tt, w).
Proof.
  intros Hsd. destruct completed as [|i completed]; [done |].
  cbn [for_each]. unfold bind, shutdown_is_set. by rewrite Hsd.
Qed.

Lemma dispatch_when_shutdown (completed : list nat)
    (primary_ips secondary_ips : list string)
    (primary_user secondary_user command : string) (w : world) :
  shutdown_event w = true ->
  exists w',
    execute_commands self client exn_text completed
      primary_ips secondary_ips primary_user secondary_user command w = (Ok tt, w')
    /\ shutdown_event w' = true
    /\ ssh_calls w' = ssh_calls w
    /\ logged w'
       = (logged w ++ Spec.guard_notice primary_ips secondary_ips command)%list.
Proof.
  intros Hsd.
  assert (forall tasks,
             exists w',
               (let* futures := submit_all self client tasks in
                for_each completed
                  (fun i =>
                     let* is_set := shutdown_is_set in
                     if is_set then ret Break
                     else
                       match futures !! i with
                       | None => ret Continue
                       | Some (_, Ok (success, output)) =>
                           let* _ := (if PyStr.nonempty output
                                      then logger INFO output else ret tt) in
                           ret Continue
                       | Some ((user, ip, cmd), Raise e) =>
                           let client_num := List.last (PyStr.split "." ip) "" in
                           let label := "[Client " ++ client_num ++ " | " ++ ip ++ "]" in
                           let* _ := logger ERROR (label ++ " Unexpected error: "
                                                   ++ exn_text e) in
                           ret Continue
                       end)) w = (Ok tt, w')
               /\ shutdown_event w' = true
               /\ ssh_calls w' = ssh_calls w
               /\ logged w' = (logged w ++ [])%list) as Hrun.
  { intros tasks.
    destruct (submit_all_when_shutdown tasks w Hsd) as [futures Hf].
    exists w. unfold bind at 1. rewrite Hf.
    rewrite (result_loop_when_shutdown completed _ w Hsd).
    by rewrite app_nil_r. }
  unfold execute_commands, Spec.guard_notice.
  destruct (PyStr.nonempty command) eqn:Hcmd; cbn [negb].
  - destruct primary_ips as [|p ps]; [destruct secondary_ips as [|s ss] |];
      [by eexists | apply Hrun | apply Hrun].
  - destruct primary_ips as [|p ps]; [destruct secondary_ips as [|s ss] |];
      by eexists.
Qed.

End Shutdown.

(** C8. With the shutdown event set, [_execute_ssh_command] returns at
    once a failure with the message Aborted due to shutdown behind the
    label and leaves the world as it was, so the client is not invoked;
    and [execute_commands] invokes no client and logs no result, whatever
    the tasks and the order of completion: the only record it can add is
    the notice of its own guards for empty input. *)
Theorem shutdown_aborts_and_reports_nothing
    (self : SSHOperationsHub) (client : nat -> list string -> process)
    (exn_text : exn -> string) (w : world) :
  shutdown_event w = true ->
  (forall user ip command : string,
      _execute_ssh_command self client user ip command w
      = (Ok (false, label_of ip ++ " Aborted due to shutdown"), w))
  /\ (forall (completed : list nat) (primary_ips secondary_ips : list string)
             (primary_user secondary_user command : string),
         let run := execute_commands self client exn_text completed
                      primary_ips secondary_ips primary_user secondary_user command w in
         fst run = Ok tt
         /\ shutdown_event (snd run) = true
         /\ ssh_calls (snd run) = ssh_calls w
         /\ logged (snd run)
            = (logged w ++ Spec.guard_notice primary_ips secondary_ips command)%list).
Proof.
  intros Hsd. split.
  - intros. by apply execute_when_shutdown.
  - intros completed primary_ips secondary_ips primary_user secondary_user command run.
    subst run.
    destruct (dispatch_when_shutdown self client exn_text completed primary_ips
                secondary_ips primary_user secondary_user command w Hsd)
      as (w' & -> & Hw').
    exact (conj eq_refl Hw').
Qed.

Lemma shutdown_aborts_and_reports_nothing_witness :
  _execute_ssh_command hub0 (fun _ _ => Exits 0 "ok" "") "root" "10.200.142.1" "uptime"
    (World true [] [])
  = (Ok (false, "[Client 1 | 10.200.142.1] Aborted due to shutdown"), World true [] []).
Proof.
  apply (proj1 (shutdown_aborts_and_reports_nothing hub0 (fun _ _ => Exits 0 "ok" "")
                  (fun _ => "") (World true [] []) eq_refl)).
Defined.

(** An exception that leaves [_execute_ssh_command] is kept by the
    future and logged by the result loop behind the label of its task. *)
Example dispatch_launch_failure_ex :
  logged (snd (execute_commands hub0 (fun _ _ => NotLaunched)
                 (fun _ => "[Errno 2] No such file or directory: 'ssh'")
                 [0]%nat ["10.0.0.1"] [] "root" "admin" "echo hi" w0))
  = [(ERROR, "[Client 1 | 10.0.0.1] Unexpected error: "
             ++ "[Errno 2] No such file or directory: 'ssh'")].
Proof. reflexivity. Qed.

Example dispatch_ex :
  logged (snd (execute_commands hub0 (fun _ _ => Exits 0 "ok" "") (fun _ => "")
                 [1; 0]%nat ["10.0.0.1"; "10.0.0.2"] [] "root" "admin" "echo hi" w0))
  = [(INFO, "[Client 1 | 10.0.0.1] Running 'echo hi' on root@10.0.0.1");
     (INFO, "[Client 2 | 10.0.0.2] Running 'echo hi' on root@10.0.0.2");
     (INFO, "[Client 2 | 10.0.0.2] ok");
     (INFO, "[Client 1 | 10.0.0.1] ok")].
Proof. reflexivity. Qed.

(** ** Reading integers and expanding ranges *)

Section Integers.

Lemma decimal_not_int_space (c : ascii) :
  PyStr.is_decimal c = true -> PyStr.char_int_space c = false.
Proof. by destruct c as [[] [] [] [] [] [] [] []]. Qed.

Lemma literal_unsigned (c : ascii) (s : string) :
  PyStr.is_decimal c = true ->
  match String c s with
  | String "+" ds => PyStr.literal_value 0 false ds
  | String "-" ds => option_map Z.opp (PyStr.literal_value 0 false ds)
  | ds => PyStr.literal_value 0 false ds
  end = PyStr.literal_value 0 false (String c s).
Proof. by destruct c as [[] [] [] [] [] [] [] []]. Qed.

Lemma decimal_isdigit (c : ascii) :
  PyStr.is_decimal c = true -> PyStr.char_isdigit c = true.
Proof. unfold PyStr.char_isdigit. by intros ->. Qed.

Lemma rstrip_by_keeps (p : ascii -> bool) (s : string) :
  PyStr.all_chars (fun c => negb (p c)) s = true -> PyStr.rstrip_by p s = s.
Proof.
  induction s as [|x s IH]; [done |].
  cbn [PyStr.all_chars PyStr.rstrip_by]. rewrite andb_true_iff, negb_true_iff.
  intros [Hx Hs]. rewrite (IH Hs), Hx. by destruct s.
Qed.

Lemma all_chars_impl (p q : ascii -> bool) (s : string) :
  (forall c, p c = true -> q c = true) ->
  PyStr.all_chars p s = true -> PyStr.all_chars q s = true.
Proof.
  intros Hpq. induction s as [|x s IH]; [done |].
  cbn [PyStr.all_chars]. rewrite !andb_true_iff. intros [Hx Hs].
  split; [by apply Hpq | by apply IH].
Qed.

Lemma literal_value_digits (s : string) (acc : Z) (after_digit : bool) :
  PyStr.all_chars PyStr.is_decimal s = true ->
  after_digit = true \/ s <> "" ->
  PyStr.literal_value acc after_digit s = Some (Spec.value_from acc s).
Proof.
  revert acc after_digit. induction s as [|x s IH]; intros acc after_digit.
  - intros _ [-> | Hne]; done.
  - cbn [PyStr.all_chars PyStr.literal_value Spec.value_from].
    rewrite andb_true_iff. intros [-> Hs] _. apply IH; [done | by left].
Qed.

Lemma parse_int_digits (g : string) :
  Spec.is_digits g = true -> PyStr.parse_int g = Some (Spec.decimal_value g).
Proof.
  unfold Spec.is_digits, PyStr.parse_int. rewrite andb_true_iff. intros [Hne Hd].
  destruct g as [|c g]; [done |].
  pose proof Hd as Hd'. cbn [PyStr.all_chars] in Hd'.
  apply andb_true_iff in Hd' as [Hc Hg].
  cbn [PyStr.lstrip_by]. rewrite (decimal_not_int_space c Hc).
  rewrite rstrip_by_keeps.
  - etransitivity; [by apply literal_unsigned |].
    by apply literal_value_digits; [| right].
  - apply (all_chars_impl PyStr.is_decimal); [| done].
    intros c' Hc'. by rewrite decimal_not_int_space.
Qed.

Lemma value_from_nonneg (s : string) (acc : Z) :
  PyStr.all_chars PyStr.is_decimal s = true -> (0 <= acc)%Z ->
  (0 <= Spec.value_from acc s)%Z.
Proof.
  revert acc. induction s as [|x s IH]; intros acc; [done |].
  cbn [PyStr.all_chars Spec.value_from]. rewrite andb_true_iff. intros [Hx Hs] Hacc.
  apply IH; [done |].
  assert (0 <= PyStr.digit_value x)%Z; [| lia].
  unfold PyStr.is_decimal in Hx. unfold PyStr.digit_value.
  apply andb_true_iff in Hx as [Hlo _]. apply N.leb_le in Hlo. lia.
Qed.

Lemma without_char (p : ascii -> bool) (sep : ascii) (s : string) :
  p sep = false -> PyStr.all_chars p s = true ->
  PyStr.contains (String sep "") s = false.
Proof.
  intros Hsep. induction s as [|x s IH]; [done |].
  cbn [PyStr.all_chars PyStr.contains String.prefix]. rewrite andb_true_iff.
  intros [Hx Hs]. rewrite (IH Hs), orb_false_r.
  destruct (ascii_dec sep x) as [<-|_]; [congruence | done].
Qed.

Lemma first_sep (sep : ascii) (s : string) :
  PyStr.contains (String sep "") s = true ->
  exists a b, s = a ++ String sep b /\ PyStr.contains (String sep "") a = false.
Proof.
  induction s as [|x s IH]; [done |].
  cbn [PyStr.contains String.prefix].
  destruct (ascii_dec sep x) as [<-|Hne].
  - intros _. by exists "", s.
  - cbn [orb]. intros (a & b & -> & Ha)%IH. exists (String x a), b.
    split; [done |]. cbn [PyStr.contains String.prefix].
    destruct (ascii_dec sep x); [done |]. by rewrite Ha.
Qed.

Lemma split_max_first (sep : ascii) (a b : string) :
  PyStr.contains (String sep "") a = false ->
  PyStr.split_max 1 sep (a ++ String sep b) = [a; b].
Proof.
  induction a as [|x a IH].
  - intros _. cbn. rewrite Ascii.eqb_refl. by destruct b.
  - cbn [PyStr.contains String.prefix]. destruct (ascii_dec sep x) as [<-|Hne]; [by destruct a |].
    cbn [orb]. intros Ha. cbn [String.append PyStr.split_max].
    destruct (Ascii.eqb_spec x sep) as [->|_]; [done |].
    by rewrite (IH Ha).
Qed.

Lemma range_interval (a b : Z) :
  (a <= b)%Z -> Spec.interval a b (PyStr.range a (b + 1)).
Proof.
  intros Hab. unfold Spec.interval, PyStr.range.
  rewrite length_map, length_seq. split; [lia |].
  intros i Hi.
  rewrite (nth_indep _ 0%Z (a + Z.of_nat 0)%Z) by by rewrite length_map, length_seq.
  rewrite (map_nth (fun i => (a + Z.of_nat i)%Z)), seq_nth by done. done.
Qed.

Lemma expand_range_bare (range_str : string) :
  PyStr.contains "-" range_str = false ->
  _expand_range range_str = Ok (if PyStr.isdigit range_str then [range_str] else []).
Proof. unfold _expand_range. by intros ->. Qed.

Lemma isdigit_without_dash (s : string) :
  PyStr.contains "-" s = true -> PyStr.isdigit s = false.
Proof.
  intros Hc. apply not_true_is_false. unfold PyStr.isdigit.
  rewrite andb_true_iff. intros [_ Hd].
  by rewrite (without_char PyStr.char_isdigit "-" s) in Hc.
Qed.

Lemma expand_range_dash (start end_ : string) :
  PyStr.contains "-" start = false ->
  _expand_range (start ++ "-" ++ end_)
  = Ok (match PyStr.parse_int start, PyStr.parse_int end_ with
        | Some a, Some b =>
            if (a <=? b)%Z then List.map PyStr.str (PyStr.range a (b + 1)) else []
        | _, _ => []
        end).
Proof.
  intros Hstart. unfold _expand_range.
  assert (PyStr.contains "-" (start ++ "-" ++ end_) = true) as Hdash.
  { apply contains_iff. by exists start, end_. }
  rewrite Hdash, (isdigit_without_dash _ Hdash).
  change ("-" ++ end_) with (String "-" end_).
  rewrite (split_max_first "-" start end_ Hstart).
  unfold int, rbind.
  destruct (PyStr.parse_int start) as [a|]; [| done].
  destruct (PyStr.parse_int end_) as [b|]; [| done].
  by destruct (a <=? b)%Z.
Qed.

End Integers.

(** C5, as the code has it. [_expand_range] never raises. A token
    without a dash is kept as it is when it is all digits and gives
    nothing otherwise. A token with a dash is cut at its first dash and
    its two parts are read as [int] reads them: when both are integers
    [a <= b] the result is the decimal strings of [a .. b], in every other
    case it is empty. In particular [digits-digits] gives exactly the
    decimal strings of [a, a+1, ..., b] when [a <= b] and nothing when
    [a > b]. *)
Theorem expand_range_amended (range_str : string) :
  (exists l, _expand_range range_str = Ok l)
  /\ (PyStr.contains "-" range_str = false ->
      _expand_range range_str
      = Ok (if PyStr.isdigit range_str then [range_str] else []))
  /\ (PyStr.contains "-" range_str = true ->
      exists start end_,
        range_str = start ++ "-" ++ end_ /\ PyStr.contains "-" start = false)
  /\ (forall start end_ : string,
         range_str = start ++ "-" ++ end_ ->
         PyStr.contains "-" start = false ->
         _expand_range range_str
         = Ok (match PyStr.parse_int start, PyStr.parse_int end_ with
               | Some a, Some b =>
                   if (a <=? b)%Z
                   then List.map PyStr.str (PyStr.range a (b + 1))
                   else []
               | _, _ => []
               end))
  /\ (forall start end_ : string,
         range_str = start ++ "-" ++ end_ ->
         Spec.is_digits start = true ->
         Spec.is_digits end_ = true ->
         if (Spec.decimal_value start <=? Spec.decimal_value end_)%Z
         then exists l,
             Spec.interval (Spec.decimal_value start) (Spec.decimal_value end_) l
             /\ _expand_range range_str = Ok (List.map PyStr.str l)
         else _expand_range range_str = Ok []).
Proof.
  assert (forall start end_ : string,
             range_str = start ++ "-" ++ end_ ->
             PyStr.contains "-" start = false ->
             _expand_range range_str
             = Ok (match PyStr.parse_int start, PyStr.parse_int end_ with
                   | Some a, Some b =>
                       if (a <=? b)%Z
                       then List.map PyStr.str (PyStr.range a (b + 1))
                       else []
                   | _, _ => []
                   end)) as Hdash.
  { intros start end_ -> Hstart. by apply expand_range_dash. }
  split; [| split; [| split; [| split]]].
  - destruct (PyStr.contains "-" range_str) eqn:Hc.
    + apply first_sep in Hc as (a & b & Heq & Ha).
      rewrite (Hdash a b Heq Ha). by eexists.
    + rewrite expand_range_bare by done. by eexists.
  - apply expand_range_bare.
  - intros (a & b & Heq & Ha)%first_sep. by exists a, b.
  - exact Hdash.
  - intros start end_ Heq Hs He.
    assert (PyStr.contains "-" start = false) as Hstart.
    { unfold Spec.is_digits in Hs. apply andb_true_iff in Hs as [_ Hs].
      by apply (without_char PyStr.is_decimal). }
    rewrite (Hdash start end_ Heq Hstart).
    rewrite (parse_int_digits start Hs), (parse_int_digits end_ He).
    destruct (Z.leb_spec (Spec.decimal_value start) (Spec.decimal_value end_)); [| done].
    eexists. split; [by apply range_interval | done].
Qed.

Lemma expand_range_amended_witness :
  _expand_range "7" = Ok ["7"]
  /\ _expand_range "1-3" = Ok (List.map PyStr.str [1; 2; 3]%Z).
Proof.
  split.
  - apply (proj1 (proj2 (expand_range_amended "7"))). reflexivity.
  - apply (proj1 (proj2 (proj2 (proj2 (expand_range_amended "1-3")))) "1" "3");
      reflexivity.
Defined.

(** C5 fails on tokens that are neither all digits nor of the form
    [digits-digits] and still expand, because [int] accepts more than
    digits: underscores between digits, a sign, blanks. *)
Lemma lenient_integer_tokens_expand :
  _expand_range "1_0-1_2" = Ok ["10"; "11"; "12"]
  /\ _expand_range "+1-3" = Ok ["1"; "2"; "3"]
  /\ PyStr.isdigit "1_0-1_2" = false
  /\ ~ (exists a b : string,
           "1_0-1_2" = a ++ "-" ++ b
           /\ Spec.is_digits a = true /\ Spec.is_digits b = true).
Proof.
  split; [reflexivity |]. split; [reflexivity |]. split; [reflexivity |].
  intros (a & b & Heq & Ha & _).
  destruct a as [|x a]; [discriminate |].
  cbn [String.append] in Heq. injection Heq as <- Heq.
  destruct a as [|y a]; [discriminate |].
  cbn [String.append] in Heq. injection Heq as <- Heq.
  discriminate.
Qed.

Example expand_range_tests :
  _expand_range "5" = Ok ["5"] /\ _expand_range "1-3" = Ok ["1"; "2"; "3"]
  /\ _expand_range "5-3" = Ok [] /\ _expand_range "abc" = Ok [].
Proof. repeat split. Qed.

(** ** Validation of the host suffixes *)

Section ParseIps.

Variable self : SSHOperationsHub.

Local Ltac cases := intuition (subst; try done; try congruence).

Lemma picks_cons (d : Spec.disposition) (pre : list string) (x : string)
    (rest : list string) :
  Spec.with_disposition_from (_validate_ip_suffix self) d
    (pre ++ x :: rest) (List.length pre) (x :: rest)
  = ((if Spec.same (if negb (_validate_ip_suffix self x) then Spec.Rejected
                    else if bool_decide (x ∈ pre) then Spec.Duplicate
                    else Spec.Accepted) d
      then [x] else [])
     ++ Spec.with_disposition_from (_validate_ip_suffix self) d
          ((pre ++ [x]) ++ rest) (List.length (pre ++ [x])) rest)%list.
Proof.
  unfold Spec.with_disposition_from. cbn [Spec.enumerate_from List.filter fst snd].
  unfold Spec.disposition_of at 1. rewrite take_app_length.
  rewrite <- app_assoc, length_app. cbn [app List.length]. rewrite Nat.add_1_r.
  by destruct (Spec.same _ d).
Qed.

Lemma parse_loop_spec (rest pre : list string) (st : parse_state) (w : world) :
  (forall s, s ∈ seen st <-> s ∈ pre /\ _validate_ip_suffix self s = true) ->
  exists seen',
    _parse_ips_loop self rest st w
    = (Ok (ParseState
             (valid_ips st
              ++ List.map (Spec.host_of self)
                   (Spec.with_disposition_from (_validate_ip_suffix self)
                      Spec.Accepted (pre ++ rest) (List.length pre) rest))
             (errors st
              ++ List.map Spec.complaint
                   (Spec.with_disposition_from (_validate_ip_suffix self)
                      Spec.Rejected (pre ++ rest) (List.length pre) rest))
             seen'),
       World (shutdown_event w) (ssh_calls w)
         (logged w
          ++ List.map Spec.duplicate_notice
               (Spec.with_disposition_from (_validate_ip_suffix self)
                  Spec.Duplicate (pre ++ rest) (List.length pre) rest))).
Proof.
  revert pre st w. induction rest as [|x rest IH]; intros pre st w Hseen.
  - exists (seen st). cbn. rewrite !app_nil_r. by destruct st, w.
  - cbn [_parse_ips_loop]. unfold bind at 1, _parse_ips_step.
    rewrite !picks_cons.
    destruct (_validate_ip_suffix self x) eqn:Hx; cbn [negb].
    + destruct (bool_decide_reflect (x ∈ seen st)) as [Hin | Hnot].
      * assert (x ∈ pre) as Hpre by by apply Hseen.
        rewrite (bool_decide_eq_true_2 _ Hpre).
        unfold bind, logger, ret.
        destruct (IH (pre ++ [x])%list st
                    (World (shutdown_event w) (ssh_calls w)
                       (logged w
                        ++ [(WARNING, "Skipping duplicate IP suffix '" ++ x ++ "'")])))
          as [seen' ->].
        { intros s. rewrite Hseen, elem_of_app, list_elem_of_singleton. cases. }
        exists seen'. cbn [Spec.same app List.map shutdown_event ssh_calls logged].
        by rewrite <- (app_assoc (logged w)).
      * assert (x ∉ pre) as Hpre by (intros Hpre; apply Hnot, Hseen; done).
        rewrite (bool_decide_eq_false_2 _ Hpre).
        unfold ret.
        destruct (IH (pre ++ [x])%list
                    (ParseState (valid_ips st ++ [ip_prefix self ++ "." ++ x])
                       (errors st) ({[ x ]} ∪ seen st)) w) as [seen' ->].
        { intros s. cbn [seen]. rewrite elem_of_union, elem_of_singleton, Hseen,
            elem_of_app, list_elem_of_singleton. cases. }
        exists seen'. cbn [Spec.same app List.map valid_ips errors].
        by rewrite <- (app_assoc (valid_ips st)).
    + unfold ret.
      destruct (IH (pre ++ [x])%list
                  (ParseState (valid_ips st)
                     (errors st ++ ["Invalid or disallowed IP suffix '" ++ x ++ "'"])
                     (seen st)) w) as [seen' ->].
      { intros s. cbn [seen]. rewrite Hseen, elem_of_app, list_elem_of_singleton.
        cases. }
      exists seen'. cbn [Spec.same app List.map valid_ips errors].
      by rewrite <- (app_assoc (errors st)).
Qed.

Lemma picks_rejected (full : list string) (n : nat) (rest : list string) :
  Spec.with_disposition_from (_validate_ip_suffix self) Spec.Rejected full n rest
  = List.filter (fun s => negb (_validate_ip_suffix self s)) rest.
Proof.
  unfold Spec.with_disposition_from. revert n.
  induction rest as [|x rest IH]; intros n; [done |].
  cbn [Spec.enumerate_from List.filter fst snd]. unfold Spec.disposition_of at 1.
  destruct (_validate_ip_suffix self x); cbn [negb].
  - destruct (bool_decide _); cbn [Spec.same]; apply IH.
  - cbn [Spec.same List.map snd]. f_equal. apply IH.
Qed.

Lemma picks_accepted (rest pre : list string) :
  NoDup (Spec.with_disposition_from (_validate_ip_suffix self) Spec.Accepted
           (pre ++ rest) (List.length pre) rest)
  /\ forall s,
      s ∈ Spec.with_disposition_from (_validate_ip_suffix self) Spec.Accepted
            (pre ++ rest) (List.length pre) rest
      <-> s ∈ rest /\ (s ∉ pre) /\ _validate_ip_suffix self s = true.
Proof.
  revert pre. induction rest as [|x rest IH]; intros pre.
  - split; [constructor |]. intros s. cbn. rewrite elem_of_nil. cases.
  - rewrite picks_cons.
    destruct (IH (pre ++ [x])%list) as [Hnd Hin].
    assert (forall s,
               s ∈ Spec.with_disposition_from (_validate_ip_suffix self) Spec.Accepted
                     ((pre ++ [x]) ++ rest) (List.length (pre ++ [x])) rest
               <-> s ∈ rest /\ s ≠ x /\ (s ∉ pre) /\ _validate_ip_suffix self s = true)
      as Hin'.
    { intros s. rewrite Hin, elem_of_app, list_elem_of_singleton. cases. }
    destruct (_validate_ip_suffix self x) eqn:Hx; cbn [negb].
    + destruct (bool_decide_reflect (x ∈ pre)) as [Hpre | Hpre]; cbn [Spec.same app].
      * split; [done |]. intros s. rewrite Hin', elem_of_cons. cases.
      * split.
        -- constructor; [| done]. rewrite Hin'. cases.
        -- intros s. rewrite !elem_of_cons, Hin'.
           destruct (decide (s = x)) as [-> | Hne]; cases.
    + cbn [Spec.same app]. split; [done |]. intros s. rewrite Hin', elem_of_cons.
      cases.
Qed.

End ParseIps.

(** C6. [_parse_ips] returns, never raising: the hosts of the suffixes
    that pass the validation and do not occur earlier in the list, in the
    order of the list, each host being the prefix, a dot and the suffix;
    one error string for every occurrence of a suffix that fails the
    validation; and it logs one warning, and no error, for every
    occurrence of a suffix that passes the validation and occurs earlier
    in the list. A suffix passes the validation exactly when it is all
    digits and in the allow-list; a host is returned exactly for the
    suffixes of the list that pass it, and no host is returned twice. *)
Theorem parse_ips_keeps_first_valid_occurrences
    (self : SSHOperationsHub) (ip_suffixes : list string) (w : world) :
  let valid := _validate_ip_suffix self in
  let hosts :=
    List.map (Spec.host_of self)
      (Spec.with_disposition valid Spec.Accepted ip_suffixes) in
  _parse_ips self ip_suffixes w
  = (Ok (hosts,
         List.map Spec.complaint
           (Spec.with_disposition valid Spec.Rejected ip_suffixes)),
     World (shutdown_event w) (ssh_calls w)
       (logged w
        ++ List.map Spec.duplicate_notice
             (Spec.with_disposition valid Spec.Duplicate ip_suffixes)))
  /\ (forall s, valid s = true <-> PyStr.isdigit s = true /\ s ∈ allowed_ips self)
  /\ (forall s, Spec.host_of self s ∈ hosts <-> s ∈ ip_suffixes /\ valid s = true)
  /\ NoDup hosts
  /\ Spec.with_disposition valid Spec.Rejected ip_suffixes
     = List.filter (fun s => negb (valid s)) ip_suffixes.
Proof.
  intros valid hosts.
  assert (Inj (=) (=) (Spec.host_of self)) as Hinj.
  { intros s1 s2 Heq. unfold Spec.host_of in Heq.
    by apply String.app_inj, String.app_inj in Heq. }
  destruct (picks_accepted self ip_suffixes []) as [Hnd Hin].
  split; [| split; [| split; [| split]]].
  - unfold _parse_ips, bind.
    destruct (parse_loop_spec self ip_suffixes [] (ParseState [] [] ∅) w)
      as [seen' ->].
    { intros s. cbn [seen]. rewrite elem_of_empty, elem_of_nil. intuition. }
    done.
  - intros s. unfold valid, _validate_ip_suffix.
    by rewrite andb_true_iff, bool_decide_eq_true.
  - intros s. unfold hosts. rewrite list_elem_of_fmap. split.
    + intros (s' & Heq & Hs'). apply Hinj in Heq as <-.
      apply Hin in Hs'. intuition.
    + intros [Hs Hv]. exists s. split; [done |]. apply Hin.
      repeat split; try done. apply not_elem_of_nil.
  - unfold hosts. by apply (NoDup_fmap (Spec.host_of self)).
  - apply (picks_rejected self).
Qed.

(** C6 fails on a repeated suffix that does not pass the validation:
    its second occurrence gives a second error, and no warning. *)
Lemma repeated_invalid_suffix_is_an_error :
  _parse_ips hub0 ["abc"; "abc"] w0
  = (Ok ([], ["Invalid or disallowed IP suffix 'abc'";
              "Invalid or disallowed IP suffix 'abc'"]), w0).
Proof. reflexivity. Qed.

Example parse_ips_tests :
  _parse_ips hub0 ["1"; "100"; "2"; "abc"] w0
  = (Ok (["10.200.142.1"; "10.200.142.2"],
         ["Invalid or disallowed IP suffix '100'";
          "Invalid or disallowed IP suffix 'abc'"]), w0)
  /\ _parse_ips hub0 ["1"; "1"; "2"] w0
     = (Ok (["10.200.142.1"; "10.200.142.2"], []),
        World false [] [(WARNING, "Skipping duplicate IP suffix '1'")]).
Proof. split; reflexivity. Qed.

(** ** The pattern matcher *)

Section Matcher.

Lemma iterate_lang (step : Re.pos -> list Re.pos) (L : string -> Prop) :
  (forall p q, In q (step p)
               <-> exists w, L w /\ snd p = w ++ snd q
                             /\ fst q = (fst p + String.length w)%nat) ->
  forall k p q,
    In q (Re.iterate step k p)
    <-> exists w, Re.power L k w /\ snd p = w ++ snd q
                  /\ fst q = (fst p + String.length w)%nat.
Proof.
  intros Hstep. induction k as [|k IH]; intros p q; cbn [Re.iterate Re.power].
  - split.
    + intros [<- | []]. exists "". cbn. by rewrite Nat.add_0_r.
    + intros (w & -> & Hs & Hn). left. cbn in Hs, Hn. rewrite Nat.add_0_r in Hn.
      destruct p, q; cbn in *; congruence.
  - rewrite in_flat_map. split.
    + intros (m & (u & Hu & Hsu & Hnu)%Hstep & (v & Hv & Hsv & Hnv)%IH).
      exists (u ++ v). split; [by exists u, v |].
      rewrite str_app_assoc, str_app_length, <- Hsv. split; [done | lia].
    + intros (w & (u & v & -> & Hu & Hv) & Hs & Hn).
      exists ((fst p + String.length u)%nat, v ++ snd q). split.
      * apply Hstep. exists u. cbn [fst snd]. by rewrite Hs, str_app_assoc.
      * apply IH. exists v. cbn [fst snd]. split; [done |]. split; [done |].
        rewrite Hn, str_app_length. lia.
Qed.

Lemma run_lang (r : Re.regex) :
  Re.anchor_free r = true ->
  forall p q,
    In q (Re.run r p)
    <-> exists w, Re.lang r w /\ snd p = w ++ snd q
                  /\ fst q = (fst p + String.length w)%nat.
Proof.
  induction r as [| | | d | r1 IH1 r2 IH2 | lo hi r IH]; cbn [Re.anchor_free];
    try discriminate.
  - intros _ [n s] [n' s']. cbn [Re.run Re.lang fst snd]. split.
    + destruct s as [|c s]; [done |].
      destruct (PyStr.is_decimal c) eqn:Hc; [| done].
      intros [[= <- <-] | []]. exists (String c ""). split; [by exists c |].
      cbn. split; [done | lia].
    + intros (w & (c & Hc & ->) & -> & ->). cbn. rewrite Hc. left. f_equal. lia.
  - intros _ [n s] [n' s']. cbn [Re.run Re.lang fst snd]. split.
    + destruct s as [|c s]; [done |].
      destruct (Ascii.eqb_spec c d) as [-> | _]; [| done].
      intros [[= <- <-] | []]. exists (String d ""). cbn. split; [done |].
      split; [done | lia].
    + intros (w & -> & -> & ->). cbn. rewrite Ascii.eqb_refl. left. f_equal. lia.
  - rewrite andb_true_iff. intros [H1 H2] p q. cbn [Re.run Re.lang].
    rewrite in_flat_map. split.
    + intros (m & (u & Hu & Hsu & Hnu)%(IH1 H1) & (v & Hv & Hsv & Hnv)%(IH2 H2)).
      exists (u ++ v). split; [by exists u, v |].
      rewrite str_app_assoc, str_app_length, <- Hsv. split; [done | lia].
    + intros (w & (u & v & -> & Hu & Hv) & Hs & Hn).
      exists ((fst p + String.length u)%nat, v ++ snd q). split.
      * apply (IH1 H1). exists u. cbn [fst snd]. by rewrite Hs, str_app_assoc.
      * apply (IH2 H2). exists v. cbn [fst snd]. split; [done |]. split; [done |].
        rewrite Hn, str_app_length. lia.
  - intros Hr p q. cbn [Re.run Re.lang]. rewrite in_flat_map. split.
    + intros (k & Hk%in_seq & (w & Hw)%(iterate_lang _ _ (IH Hr))).
      exists w. split; [| tauto]. exists k. split; [lia | tauto].
    + intros (w & (k & Hk & Hw) & Hs & Hn). exists k. split.
      * apply in_seq. lia.
      * apply (iterate_lang _ _ (IH Hr)). by exists w.
Qed.

Lemma power_digit (k : nat) (g : string) :
  Re.power (Re.lang Re.Digit) k g
  <-> String.length g = k /\ PyStr.all_chars PyStr.is_decimal g = true.
Proof.
  revert g. induction k as [|k IH]; intros g; cbn [Re.power Re.lang].
  - split; [by intros -> | intros [Hl _]; by destruct g].
  - split.
    + intros (u & v & -> & (c & Hc & ->) & [Hl Hv]%IH). cbn. by rewrite Hc, Hl, Hv.
    + destruct g as [|c g]; [by intros [? _] |]. cbn.
      rewrite andb_true_iff. intros [[= Hl] [Hc Hg]].
      exists (String c ""), g. split; [done |]. split; [by exists c |].
      by apply IH.
Qed.

(** One to three decimal digits. *)
Lemma group_lang (g : string) :
  Re.lang (Re.Repeat 1 3 Re.Digit) g
  <-> Spec.is_digits g = true /\ (String.length g <= 3)%nat.
Proof.
  cbn [Re.lang]. unfold Spec.is_digits. split.
  - intros (k & Hk & [Hl Hd]%power_digit). rewrite Hd.
    split; [| lia]. destruct g; [cbn in Hl; lia | done].
  - rewrite andb_true_iff. intros [[Hne Hd] Hl]. exists (String.length g). split.
    + destruct g; [done | cbn in *; lia].
    + by apply power_digit.
Qed.

Lemma in_run_seq (r1 r2 : Re.regex) (p q : Re.pos) :
  In q (Re.run (Re.Seq r1 r2) p) <-> exists m, In m (Re.run r1 p) /\ In q (Re.run r2 m).
Proof. cbn [Re.run]. apply in_flat_map. Qed.

Lemma in_run_bol (s : string) (q : Re.pos) :
  In q (Re.run Re.Bol (0%nat, s)) <-> q = (0%nat, s).
Proof. cbn. split; [by intros [<- | []] | intros ->; by left]. Qed.

Lemma in_run_eol (p q : Re.pos) :
  In q (Re.run Re.Eol p) <-> q = p /\ (snd p = "" \/ snd p = PyStr.nl).
Proof.
  cbn [Re.run].
  destruct (String.eqb_spec (snd p) "") as [He | He];
    [| destruct (String.eqb_spec (snd p) PyStr.nl) as [Hn | Hn]]; cbn [orb].
  - split; [intros [<- | []]; by split; [| left] | intros [-> _]; by left].
  - split; [intros [<- | []]; by split; [| right] | intros [-> _]; by left].
  - split; [done | intros [_ [? | ?]]; done].
Qed.

Lemma matches_iff (r : Re.regex) (s : string) :
  Re.matches r s = true <-> exists q, In q (Re.run r (0%nat, s)).
Proof.
  unfold Re.matches. destruct (Re.run r (0%nat, s)) as [|q l].
  - split; [done | by intros [q []]].
  - split; [intros _; exists q; by left | done].
Qed.

Lemma prefix_matches_iff (p : string) :
  Re.matches IP_PREFIX_RE p = true
  <-> exists a b c tail,
      p = a ++ "." ++ b ++ "." ++ c ++ tail
      /\ (tail = "" \/ tail = PyStr.nl)
      /\ (Spec.is_digits a = true /\ (String.length a <= 3)%nat)
      /\ (Spec.is_digits b = true /\ (String.length b <= 3)%nat)
      /\ (Spec.is_digits c = true /\ (String.length c <= 3)%nat).
Proof.
  rewrite matches_iff. unfold IP_PREFIX_RE.
  set (G := Re.Repeat 1 3 Re.Digit).
  set (R2 := Re.Repeat 2 2 (Re.Seq G (Re.Lit "."))).
  assert (Re.anchor_free G = true) as HG by done.
  assert (Re.anchor_free R2 = true) as HR2 by done.
  split.
  - intros (q & (m0 & ->%in_run_bol & Hq)%in_run_seq).
    apply in_run_seq in Hq as (m1 & Hm1 & (m2 & Hm2 & Hq)%in_run_seq).
    apply (run_lang _ HR2) in Hm1 as (w1 & Hw1 & Hs1 & _).
    apply (run_lang _ HG) in Hm2 as (c & Hc & Hs2 & _).
    apply in_run_eol in Hq as [_ Htail].
    cbn [snd] in Hs1. unfold R2 in Hw1. cbn [Re.lang] in Hw1. fold G in Hw1.
    destruct Hw1 as (k & Hk & Hw1). assert (k = 2%nat) as -> by lia.
    cbn [Re.power] in Hw1.
    destruct Hw1 as (u1 & v1 & -> & (a & d1 & -> & Ha & ->)
                     & (u2 & v2 & -> & (b & d2 & -> & Hb & ->) & ->)).
    exists a, b, c, (snd m2). split; [| split; [done |]].
    + rewrite Hs1, Hs2, str_app_nil_r, !str_app_assoc. done.
    + apply group_lang in Ha, Hb, Hc. done.
  - intros (a & b & c & tail & -> & Htail & Ha & Hb & Hc).
    exists ((String.length a + 1 + (String.length b + 1) + String.length c)%nat, tail).
    apply in_run_seq. exists (0%nat, a ++ "." ++ b ++ "." ++ c ++ tail).
    split; [by apply in_run_bol |].
    apply in_run_seq.
    exists ((String.length a + 1 + (String.length b + 1))%nat, c ++ tail). split.
    + apply (run_lang _ HR2). exists ((a ++ ".") ++ (b ++ ".") ++ "").
      cbn [fst snd]. split; [| split].
      * exists 2%nat. split; [lia |]. cbn [Re.power].
        exists (a ++ "."), ((b ++ ".") ++ ""). split; [done |]. split.
        -- exists a, ".". split; [done |]. split; [by apply group_lang | done].
        -- exists (b ++ "."), "". split; [done |]. split; [| done].
           exists b, ".". split; [done |]. split; [by apply group_lang | done].
      * by rewrite str_app_nil_r, !str_app_assoc.
      * rewrite str_app_nil_r, !str_app_length. cbn. lia.
    + apply in_run_seq.
      exists ((String.length a + 1 + (String.length b + 1) + String.length c)%nat, tail).
      split.
      * apply (run_lang _ HG). exists c. cbn [fst snd].
        split; [by apply group_lang | done].
      * apply in_run_eol. done.
Qed.

End Matcher.

(** ** Validation of the network prefix *)

Section Prefix.

Lemma rstrip_by_prefix (f : ascii -> bool) (s : string) :
  exists t, s = PyStr.rstrip_by f s ++ t.
Proof.
  induction s as [|x s [t IH]]; [by exists "" |].
  cbn [PyStr.rstrip_by]. destruct (PyStr.rstrip_by f s) as [|y r] eqn:Hr.
  - destruct (f x); [by exists (String x s) |]. exists t. cbn in *. by rewrite <- IH.
  - exists t. cbn in *. by rewrite <- IH.
Qed.

Lemma rstrip_by_all (f : ascii -> bool) (t : string) :
  PyStr.all_chars f t = true -> PyStr.rstrip_by f t = "".
Proof.
  induction t as [|x t IH]; [done |].
  cbn [PyStr.all_chars PyStr.rstrip_by]. rewrite andb_true_iff.
  intros [-> Ht]. by rewrite (IH Ht).
Qed.

Lemma rstrip_by_app_all (f : ascii -> bool) (s t : string) :
  PyStr.all_chars f t = true ->
  PyStr.rstrip_by f (s ++ t) = PyStr.rstrip_by f s.
Proof.
  intros Ht. induction s as [|x s IH].
  - by apply rstrip_by_all.
  - cbn [String.append PyStr.rstrip_by]. by rewrite IH.
Qed.

Lemma dots_all (k : nat) :
  PyStr.all_chars (fun c => PyStr.char_in c ".") (Spec.dots k) = true.
Proof.
  induction k as [|k IH]; [done |].
  cbn [Spec.dots PyStr.all_chars]. by rewrite IH.
Qed.

Lemma contains_prefix_false (sub a t : string) :
  PyStr.contains sub (a ++ t) = false -> PyStr.contains sub a = false.
Proof.
  intros Hc. apply not_true_is_false. intros (u & v & ->)%contains_iff.
  assert (PyStr.contains sub ((u ++ sub ++ v) ++ t) = true) as Ht; [| congruence].
  apply contains_iff. exists u, (v ++ t). by rewrite !str_app_assoc.
Qed.

Lemma digits_split (g : string) :
  Spec.is_digits g = true -> PyStr.split "." g = [g].
Proof.
  unfold Spec.is_digits. rewrite andb_true_iff. intros [_ Hd].
  by apply (split_without_sep PyStr.is_decimal).
Qed.

Lemma shape_split (a b c : string) :
  Spec.is_digits a = true -> Spec.is_digits b = true -> Spec.is_digits c = true ->
  PyStr.split "." (a ++ "." ++ b ++ "." ++ c) = [a; b; c].
Proof.
  intros Ha Hb Hc.
  change (a ++ "." ++ b ++ "." ++ c) with (a ++ String "." (b ++ String "." c)).
  by rewrite !split_app_sep, !digits_split.
Qed.

Lemma octet_group_iff (g : string) :
  Spec.octet_group g = true
  <-> Spec.is_digits g = true /\ (String.length g <= 3)%nat
      /\ (Spec.decimal_value g <= 255)%Z.
Proof.
  unfold Spec.octet_group.
  rewrite !andb_true_iff, Nat.leb_le, Z.leb_le. tauto.
Qed.

Lemma three_groups_iff (p : string) :
  Spec.three_groups p = true
  <-> exists a b c,
      p = a ++ "." ++ b ++ "." ++ c
      /\ Spec.octet_group a = true /\ Spec.octet_group b = true
      /\ Spec.octet_group c = true.
Proof.
  unfold Spec.three_groups. split.
  - destruct (PyStr.split "." p) as [|a [|b [|c [|d l]]]] eqn:Hs; try done.
    rewrite !andb_true_iff. intros [[Ha Hb] Hc]. exists a, b, c.
    split; [| done]. by rewrite <- (join_split "." p), Hs.
  - intros (a & b & c & -> & Ha & Hb & Hc).
    pose proof Ha as [Ha' _]%octet_group_iff.
    pose proof Hb as [Hb' _]%octet_group_iff.
    pose proof Hc as [Hc' _]%octet_group_iff.
    by rewrite shape_split, Ha, Hb, Hc.
Qed.

Lemma octet_in_range (g : string) :
  Spec.is_digits g = true -> (String.length g <= 3)%nat ->
  (let? n := int g in Ok ((0 <=? n)%Z && (n <=? 255)%Z))
  = Ok (Spec.octet_group g).
Proof.
  intros Hd Hl. unfold int, rbind, Spec.octet_group.
  rewrite (parse_int_digits g Hd), Hd.
  apply Nat.leb_le in Hl as ->.
  assert (0 <= Spec.decimal_value g)%Z as ->%Z.leb_le; [| done].
  unfold Spec.is_digits in Hd. apply andb_true_iff in Hd as [_ Hd].
  by apply value_from_nonneg.
Qed.

Lemma validate_ip_prefix_spec (raw : string) :
  PyStr.contains PyStr.nl raw = false ->
  _validate_ip_prefix raw = Ok (Spec.three_groups (PyStr.rstrip "." raw)).
Proof.
  intros Hnl. unfold _validate_ip_prefix.
  assert (PyStr.contains PyStr.nl (PyStr.rstrip "." raw) = false) as Hp.
  { destruct (rstrip_by_prefix (fun c => PyStr.char_in c ".") raw) as [t Ht].
    apply (contains_prefix_false _ _ t). unfold PyStr.rstrip. by rewrite <- Ht. }
  set (p := PyStr.rstrip "." raw) in *.
  destruct (Re.matches IP_PREFIX_RE p) eqn:Hm; cbn [negb].
  - apply prefix_matches_iff in Hm
      as (a & b & c & tail & Heq & Htail & [Ha La] & [Hb Lb] & [Hc Lc]).
    destruct Htail as [-> | ->].
    + rewrite str_app_nil_r in Heq. rewrite Heq.
      unfold Spec.three_groups. rewrite shape_split by done.
      cbn [py_all]. rewrite !octet_in_range by done.
      by destruct (Spec.octet_group a), (Spec.octet_group b), (Spec.octet_group c).
    + assert (PyStr.contains PyStr.nl p = true); [| congruence].
      apply contains_iff. exists (a ++ "." ++ b ++ "." ++ c), "".
      by rewrite Heq, !str_app_assoc.
  - destruct (Spec.three_groups p) eqn:H3; [| done].
    apply three_groups_iff in H3
      as (a & b & c & Heq & [Ha [La _]]%octet_group_iff
          & [Hb [Lb _]]%octet_group_iff & [Hc [Lc _]]%octet_group_iff).
    assert (Re.matches IP_PREFIX_RE p = true); [| congruence].
    apply prefix_matches_iff. exists a, b, c, "".
    rewrite str_app_nil_r. split; [done |]. split; [by left |].
    by repeat split.
Qed.

End Prefix.

(** C7, as the code has it. [_validate_ip_prefix] strips every trailing
    dot, so that any number of trailing dots changes nothing, and then,
    for a string without a line feed, accepts exactly the strings made of
    three groups between dots, each of one to three decimal digits that
    write a number of [0..255]. In particular [192.168.1] and [192.168.1.]
    are accepted and [256.1.1] and [192.168] are not. *)
Theorem validate_ip_prefix_amended :
  (forall raw : string,
      PyStr.contains PyStr.nl raw = false ->
      _validate_ip_prefix raw = Ok (Spec.three_groups (PyStr.rstrip "." raw)))
  /\ (forall (raw : string) (k : nat),
         PyStr.rstrip "." (raw ++ Spec.dots k) = PyStr.rstrip "." raw)
  /\ (forall p : string,
         Spec.three_groups p = true
         <-> exists a b c,
             p = a ++ "." ++ b ++ "." ++ c
             /\ Spec.octet_group a = true /\ Spec.octet_group b = true
             /\ Spec.octet_group c = true)
  /\ _validate_ip_prefix "192.168.1" = Ok true
  /\ _validate_ip_prefix "192.168.1." = Ok true
  /\ _validate_ip_prefix "256.1.1" = Ok false
  /\ _validate_ip_prefix "192.168" = Ok false.
Proof.
  split; [exact validate_ip_prefix_spec |].
  split; [| split; [exact three_groups_iff | by repeat split]].
  intros raw k. apply rstrip_by_app_all, dots_all.
Qed.

Lemma validate_ip_prefix_amended_witness :
  _validate_ip_prefix "10.0.0..." = Ok true.
Proof.
  apply (proj1 validate_ip_prefix_amended "10.0.0..."). reflexivity.
Defined.

(** C7 fails on a prefix with two trailing dots: with one dot stripped
    it has four groups, the last one empty, and still it is accepted. *)
Lemma two_trailing_dots_accepted :
  _validate_ip_prefix "192.168.1.." = Ok true
  /\ Spec.strip_one_dot "192.168.1.." = "192.168.1."
  /\ PyStr.split "." "192.168.1." = ["192"; "168"; "1"; ""]
  /\ Spec.three_groups (Spec.strip_one_dot "192.168.1..") = false.
Proof. repeat split. Qed.

Example validate_ip_prefix_tests :
  List.map _validate_ip_prefix
    ["10.0.0"; "172.16.10"; "192.168.1.1"; "abc.def.ghi"; "1.256.1"; "1.1.256"]
  = [Ok true; Ok true; Ok false; Ok false; Ok false; Ok false].
Proof. reflexivity. Qed.

(** A line feed at the end of the prefix is let through by the [$] of
    the pattern. *)
Example validate_ip_prefix_line_feed :
  _validate_ip_prefix ("192.168.1" ++ PyStr.nl) = Ok true.
Proof. reflexivity. Qed.

(** ** The string primitives on the inputs of the test suite *)

Example split_ex : PyStr.split "." "10.200.142.1" = ["10"; "200"; "142"; "1"].
Proof. reflexivity. Qed.

Example split_max_ex : PyStr.split_max 1 "-" "1-2-3" = ["1"; "2-3"].
Proof. reflexivity. Qed.

Example replace_ex : PyStr.replace "ab" "X" "aababb" = "aXXb".
Proof. reflexivity. Qed.

Example strip_ex : PyStr.strip ("  a b " ++ PyStr.nl) = "a b".
Proof. reflexivity. Qed.

Example int_ex :
  PyStr.parse_int " +1_0 " = Some 10%Z /\ PyStr.parse_int "1__0" = None
  /\ PyStr.parse_int "-0" = Some 0%Z /\ PyStr.parse_int "" = None.
Proof. repeat split. Qed.

Example range_ex : List.map PyStr.str (PyStr.range 9 12) = ["9"; "10"; "11"].
Proof. reflexivity. Qed.

(** * Further properties *)

(** ** Decimal strings *)

Section Decimal.

Lemma uint_string_decimal (d : Decimal.uint) :
  PyStr.all_chars PyStr.is_decimal (NilEmpty.string_of_uint d) = true.
Proof. induction d; cbn [NilEmpty.string_of_uint PyStr.all_chars]; by rewrite ?IHd. Qed.

Lemma uint_string_value_acc (d : Decimal.uint) (acc : positive) :
  Spec.value_from (Z.pos acc) (NilEmpty.string_of_uint d)
  = Z.pos (Pos.of_uint_acc d acc).
Proof.
  revert acc.
  induction d; intros acc; cbn [NilEmpty.string_of_uint Spec.value_from Pos.of_uint_acc];
    [done | ..];
    match goal with
    | |- Spec.value_from ?v _ = Z.pos (Pos.of_uint_acc _ ?p) =>
        replace v with (Z.pos p);
        [apply IHd |];
        match goal with
        | |- context [PyStr.digit_value ?c] =>
            let k := eval vm_compute in (PyStr.digit_value c) in
            change (PyStr.digit_value c) with k
        end; lia
    end.
Qed.

Lemma uint_string_value (d : Decimal.uint) :
  Spec.value_from 0 (NilEmpty.string_of_uint d) = Z.of_N (Pos.of_uint d).
Proof.
  induction d; cbn [NilEmpty.string_of_uint Spec.value_from Pos.of_uint];
    [done | exact IHd | ..];
    match goal with
    | |- Spec.value_from ?v _ = Z.of_N (N.pos (Pos.of_uint_acc _ ?p)) =>
        change v with (Z.pos p); apply uint_string_value_acc
    end.
Qed.

Lemma str_digits (z : Z) : (0 <= z)%Z -> Spec.is_digits (PyStr.str z) = true.
Proof.
  intros Hz. destruct z as [|p|p]; [done | | lia].
  unfold PyStr.str, Spec.is_digits. cbn [Z.to_int NilZero.string_of_int].
  unfold NilZero.string_of_uint.
  pose proof (DecimalPos.Unsigned.to_uint_nonnil p) as Hnil.
  pose proof (uint_string_decimal (Pos.to_uint p)) as Hd.
  destruct (Pos.to_uint p); [done | ..]; by rewrite Hd.
Qed.

Lemma str_value (z : Z) : (0 <= z)%Z -> Spec.decimal_value (PyStr.str z) = z.
Proof.
  intros Hz. destruct z as [|p|p]; [done | | lia].
  unfold PyStr.str, Spec.decimal_value. cbn [Z.to_int NilZero.string_of_int].
  unfold NilZero.string_of_uint.
  pose proof (DecimalPos.Unsigned.to_uint_nonnil p) as Hnil.
  pose proof (uint_string_value (Pos.to_uint p)) as Hv.
  rewrite DecimalPos.Unsigned.of_to in Hv.
  destruct (Pos.to_uint p); [done | ..]; exact Hv.
Qed.

Lemma str_isdigit (z : Z) : (0 <= z)%Z -> PyStr.isdigit (PyStr.str z) = true.
Proof.
  intros Hz. pose proof (str_digits z Hz) as Hd.
  unfold Spec.is_digits in Hd. unfold PyStr.isdigit.
  apply andb_true_iff in Hd as [-> Hd].
  by rewrite (all_chars_impl PyStr.is_decimal PyStr.char_isdigit _ decimal_isdigit Hd).
Qed.

Lemma int_str (z : Z) : (0 <= z)%Z -> PyStr.parse_int (PyStr.str z) = Some z.
Proof.
  intros Hz. by rewrite (parse_int_digits _ (str_digits z Hz)), str_value.
Qed.

Lemma range_elem (a b z : Z) : z ∈ PyStr.range a b <-> (a <= z < b)%Z.
Proof.
  unfold PyStr.range. rewrite list_elem_of_fmap. split.
  - intros (i & -> & Hi%list_elem_of_In%in_seq). lia.
  - intros Hz. exists (Z.to_nat (z - a)). split; [lia |].
    apply list_elem_of_In, in_seq. lia.
Qed.

Lemma range_NoDup (a b : Z) : NoDup (PyStr.range a b).
Proof.
  unfold PyStr.range. apply NoDup_fmap_2.
  - intros i j Hij. lia.
  - apply NoDup_ListNoDup, seq_NoDup.
Qed.

End Decimal.

(** ** The allow-list *)

Section AllowList.

Lemma literal_value_nonneg (s : string) (acc v : Z) (after_digit : bool) :
  PyStr.literal_value acc after_digit s = Some v -> (0 <= acc)%Z -> (0 <= v)%Z.
Proof.
  revert acc after_digit. induction s as [|c s IH]; intros acc after_digit.
  - cbn. destruct after_digit; [intros [= ->] | ]; done.
  - cbn [PyStr.literal_value]. destruct (PyStr.is_decimal c) eqn:Hc.
    + intros Hv Hacc. apply (IH _ _ Hv).
      assert (0 <= PyStr.digit_value c)%Z; [| lia].
      unfold PyStr.is_decimal in Hc. unfold PyStr.digit_value.
      apply andb_true_iff in Hc as [Hlo _]. apply N.leb_le in Hlo. lia.
    + destruct (Ascii.eqb c "_"); [| done].
      destruct after_digit; [| done]. intros Hv Hacc. by apply (IH _ _ Hv).
Qed.

Lemma lstrip_by_suffix (p : ascii -> bool) (s : string) :
  exists pre, s = pre ++ PyStr.lstrip_by p s.
Proof.
  induction s as [|x s [pre IH]]; [by exists "" |].
  cbn [PyStr.lstrip_by]. destruct (p x); [| by exists ""].
  exists (String x pre). cbn. by rewrite <- IH.
Qed.

Lemma parse_int_cases (s : string) :
  PyStr.parse_int s
  = match PyStr.rstrip_by PyStr.char_int_space
            (PyStr.lstrip_by PyStr.char_int_space s) with
    | "" => None
    | String c ds =>
        if Ascii.eqb c "+" then PyStr.literal_value 0 false ds
        else if Ascii.eqb c "-" then option_map Z.opp (PyStr.literal_value 0 false ds)
        else PyStr.literal_value 0 false (String c ds)
    end.
Proof.
  unfold PyStr.parse_int.
  destruct (PyStr.rstrip_by PyStr.char_int_space
              (PyStr.lstrip_by PyStr.char_int_space s)) as [|c ds]; [done |].
  by destruct c as [[] [] [] [] [] [] [] []].
Qed.

Lemma parse_int_nonneg (s : string) (a : Z) :
  PyStr.parse_int s = Some a -> PyStr.contains "-" s = false -> (0 <= a)%Z.
Proof.
  rewrite parse_int_cases.
  destruct (lstrip_by_suffix PyStr.char_int_space s) as [pre Hpre].
  destruct (rstrip_by_prefix PyStr.char_int_space
              (PyStr.lstrip_by PyStr.char_int_space s)) as [post Hpost].
  destruct (PyStr.rstrip_by PyStr.char_int_space
              (PyStr.lstrip_by PyStr.char_int_space s)) as [|c ds]; [done |].
  destruct (Ascii.eqb_spec c "+") as [-> | _].
  { intros Hv _. by apply (literal_value_nonneg _ _ _ _ Hv). }
  destruct (Ascii.eqb_spec c "-") as [-> | _].
  { intros _ Hc. assert (PyStr.contains "-" s = true); [| congruence].
    apply contains_iff. exists pre, (ds ++ post).
    transitivity (pre ++ PyStr.lstrip_by PyStr.char_int_space s); [exact Hpre |].
    by rewrite Hpost. }
  intros Hv _. by apply (literal_value_nonneg _ _ _ _ Hv).
Qed.

Lemma expand_range_digits (token : string) :
  exists l, _expand_range token = Ok l
            /\ Forall (fun s => PyStr.isdigit s = true) l.
Proof.
  destruct (PyStr.contains "-" token) eqn:Hc.
  - apply first_sep in Hc as (a & b & -> & Ha).
    change (a ++ String "-" b) with (a ++ "-" ++ b).
    rewrite (expand_range_dash a b Ha).
    destruct (PyStr.parse_int a) as [x|] eqn:Hx; [| by eexists].
    destruct (PyStr.parse_int b) as [y|]; [| by eexists].
    destruct (x <=? y)%Z; [| by eexists].
    eexists. split; [done |]. apply Forall_forall.
    intros s (z & -> & Hz%range_elem)%list_elem_of_fmap.
    apply str_isdigit. pose proof (parse_int_nonneg a x Hx Ha). lia.
  - rewrite (expand_range_bare token Hc).
    destruct (PyStr.isdigit token) eqn:Hd; eexists; (split; [done |]).
    + by constructor.
    + constructor.
Qed.

Lemma expansion_eq (token : string) : _expand_range token = Ok (Ref.expansion token).
Proof.
  unfold Ref.expansion. by destruct (expand_range_digits token) as (l & -> & _).
Qed.

Lemma parse_allowed_ips_loop_eq (ranges allowed : list string) :
  _parse_allowed_ips_loop ranges allowed
  = Ok (allowed ++ concat (List.map Ref.expansion ranges))%list.
Proof.
  revert allowed. induction ranges as [|r ranges IH]; intros allowed.
  - cbn. by rewrite app_nil_r.
  - cbn [_parse_allowed_ips_loop]. rewrite expansion_eq. cbn [rbind].
    rewrite IH. cbn. by rewrite <- app_assoc.
Qed.

Lemma split_ws_cons (c : ascii) (s : string) :
  PyStr.split_ws (String c s)
  = if PyStr.char_isspace c then PyStr.split_ws s
    else match s with
         | "" => [String c ""]
         | String d _ =>
             if PyStr.char_isspace d then String c "" :: PyStr.split_ws s
             else match PyStr.split_ws s with
                  | w :: ws => String c w :: ws
                  | [] => [String c ""]
                  end
         end.
Proof. by destruct s. Qed.

Lemma split_ws_token_then (t rest : string) :
  Ref.is_token t = true ->
  PyStr.split_ws (t ++ " " ++ rest) = t :: PyStr.split_ws rest.
Proof.
  unfold Ref.is_token. rewrite andb_true_iff. intros [Hne Ht].
  induction t as [|c t IH]; [done |].
  cbn [PyStr.all_chars] in Ht. apply andb_true_iff in Ht as [Hc Ht].
  apply negb_true_iff in Hc.
  change (String c t ++ " " ++ rest) with (String c (t ++ " " ++ rest)).
  rewrite split_ws_cons, Hc.
  destruct t as [|d t].
  - change ("" ++ " " ++ rest) with (String " " rest).
    by rewrite (split_ws_cons " " rest).
  - pose proof Ht as Ht'. cbn [PyStr.all_chars] in Ht'.
    apply andb_true_iff in Ht' as [Hd _]. apply negb_true_iff in Hd.
    rewrite IH by done.
    change (String d t ++ " " ++ rest) with (String d (t ++ " " ++ rest)).
    cbv iota beta. by rewrite Hd.
Qed.

Lemma split_ws_token (t : string) :
  Ref.is_token t = true -> PyStr.split_ws t = [t].
Proof.
  unfold Ref.is_token. rewrite andb_true_iff. intros [Hne Ht].
  induction t as [|c t IH]; [done |].
  cbn [PyStr.all_chars] in Ht. apply andb_true_iff in Ht as [Hc Ht].
  apply negb_true_iff in Hc.
  rewrite split_ws_cons, Hc.
  destruct t as [|d t]; [done |].
  pose proof Ht as Ht'. cbn [PyStr.all_chars] in Ht'.
  apply andb_true_iff in Ht' as [Hd _]. apply negb_true_iff in Hd.
  by rewrite IH, Hd.
Qed.

Lemma split_ws_join (tokens : list string) :
  Forall (fun t => Ref.is_token t = true) tokens ->
  PyStr.split_ws (PyStr.join " " tokens) = tokens.
Proof.
  induction tokens as [|t tokens IH]; [done |].
  intros [Ht Hts]%Forall_cons. destruct tokens as [|t' tokens].
  - by apply split_ws_token.
  - rewrite join_cons, split_ws_token_then by done. by rewrite IH.
Qed.

Lemma split_ws_blank (s : string) :
  Spec.is_blank s = true -> PyStr.split_ws s = [].
Proof.
  unfold Spec.is_blank. induction s as [|c s IH]; [done |].
  cbn [PyStr.all_chars PyStr.split_ws]. rewrite andb_true_iff.
  intros [-> Hs]. by apply IH.
Qed.

End AllowList.

(** X1. For integers [0 <= a <= b], the token made of the decimal strings
    of [a] and [b] around a dash expands to the decimal strings of
    [a .. b], each once; and the decimal string of [a] alone expands to
    itself. *)
Theorem expand_range_round_trip (a b : Z) :
  (0 <= a)%Z -> (a <= b)%Z ->
  _expand_range (PyStr.str a ++ "-" ++ PyStr.str b)
  = Ok (List.map PyStr.str (PyStr.range a (b + 1)))
  /\ NoDup (List.map PyStr.str (PyStr.range a (b + 1)))
  /\ _expand_range (PyStr.str a) = Ok [PyStr.str a].
Proof.
  intros Ha Hab. split; [| split].
  - rewrite expand_range_dash.
    + rewrite !int_str by lia. by apply Z.leb_le in Hab as ->.
    + pose proof (str_digits a Ha) as [_ Hd]%andb_true_iff.
      by apply (without_char PyStr.is_decimal).
  - apply NoDup_fmap_2_strong; [| apply range_NoDup].
    intros x y Hx%range_elem Hy%range_elem Heq.
    rewrite <- (str_value x), <- (str_value y) by lia. by rewrite Heq.
  - rewrite expand_range_bare.
    + by rewrite str_isdigit.
    + pose proof (str_digits a Ha) as [_ Hd]%andb_true_iff.
      by apply (without_char PyStr.is_decimal).
Qed.

Lemma expand_range_round_trip_witness :
  _expand_range (PyStr.str 8 ++ "-" ++ PyStr.str 11) = Ok ["8"; "9"; "10"; "11"].
Proof.
  apply (proj1 (expand_range_round_trip 8 11 ltac:(lia) ltac:(lia))).
Defined.

(** X2. Whatever the token, [_expand_range] returns without raising and
    every string it returns is all digits. *)
Theorem expand_range_yields_digit_strings (token : string) :
  exists l, _expand_range token = Ok l
            /\ Forall (fun s => PyStr.isdigit s = true) l.
Proof. apply expand_range_digits. Qed.

(** X3. [_parse_allowed_ips] returns without raising, every entry of the
    allow-list it returns is all digits, and for a hub with that
    allow-list a suffix passes [_validate_ip_suffix] exactly when it is
    in the list. *)
Theorem parse_allowed_ips_digit_strings (allowed_ips_str : string) :
  (exists l, _parse_allowed_ips allowed_ips_str = Ok l)
  /\ forall l,
      _parse_allowed_ips allowed_ips_str = Ok l ->
      Forall (fun s => PyStr.isdigit s = true) l
      /\ forall (self : SSHOperationsHub) (ip_suffix : string),
          allowed_ips self = l ->
          (_validate_ip_suffix self ip_suffix = true <-> ip_suffix ∈ l).
Proof.
  unfold _parse_allowed_ips. rewrite parse_allowed_ips_loop_eq. cbn [app].
  split; [by eexists |]. intros l [= <-].
  assert (Forall (fun s => PyStr.isdigit s = true)
            (concat (List.map Ref.expansion (PyStr.split_ws allowed_ips_str)))) as Hall.
  { apply Forall_concat, Forall_fmap, Forall_forall. intros token _. cbn.
    destruct (expand_range_digits token) as (l & Hl & Hd).
    unfold Ref.expansion. by rewrite Hl. }
  split; [done |].
  intros self ip_suffix Heq. unfold _validate_ip_suffix.
  rewrite Heq, andb_true_iff, bool_decide_eq_true. split; [tauto |].
  intros Hin. split; [| done].
  by apply (proj1 (Forall_forall _ _) Hall).
Qed.

Lemma parse_allowed_ips_digit_strings_witness :
  _validate_ip_suffix (set_allowed_ips default_hub ["1"; "2"; "3"; "7"]) "3" = true.
Proof.
  refine (proj2 (proj2 (proj2 (parse_allowed_ips_digit_strings "1-3 7")
                          ["1"; "2"; "3"; "7"] eq_refl)
                   (set_allowed_ips default_hub ["1"; "2"; "3"; "7"]) "3" eq_refl) _).
  by apply (bool_decide_unpack _).
Defined.

(** X4. For tokens without whitespace joined by single spaces,
    [_parse_allowed_ips] returns the expansions of the tokens, one after
    the other in the order of the tokens; a string of whitespace gives the
    empty allow-list. *)
Theorem parse_allowed_ips_space_separated :
  (forall tokens : list string,
      Forall (fun t => Ref.is_token t = true) tokens ->
      _parse_allowed_ips (PyStr.join " " tokens)
      = Ok (concat (List.map Ref.expansion tokens)))
  /\ (forall s : string,
         Spec.is_blank s = true -> _parse_allowed_ips s = Ok []).
Proof.
  split.
  - intros tokens Hts. unfold _parse_allowed_ips.
    by rewrite split_ws_join, parse_allowed_ips_loop_eq.
  - intros s Hs. unfold _parse_allowed_ips. by rewrite split_ws_blank.
Qed.

Lemma parse_allowed_ips_space_separated_witness :
  _parse_allowed_ips "1-3 5 9-8 x 7" = Ok ["1"; "2"; "3"; "5"; "7"].
Proof.
  apply (proj1 parse_allowed_ips_space_separated ["1-3"; "5"; "9-8"; "x"; "7"]).
  by repeat constructor.
Defined.

(** ** More on the validation of suffixes and prefixes *)

Section MoreValidation.

Variable self : SSHOperationsHub.

Lemma parse_ips_eq (ip_suffixes : list string) (w : world) :
  _parse_ips self ip_suffixes w
  = (Ok (List.map (Spec.host_of self)
           (Spec.with_disposition (_validate_ip_suffix self) Spec.Accepted ip_suffixes),
         List.map Spec.complaint
           (Spec.with_disposition (_validate_ip_suffix self) Spec.Rejected ip_suffixes)),
     World (shutdown_event w) (ssh_calls w)
       (logged w
        ++ List.map Spec.duplicate_notice
             (Spec.with_disposition (_validate_ip_suffix self) Spec.Duplicate
                ip_suffixes))).
Proof.
  unfold _parse_ips, bind.
  destruct (parse_loop_spec self ip_suffixes [] (ParseState [] [] ∅) w) as [seen' ->].
  { intros s. cbn [seen]. rewrite elem_of_empty, elem_of_nil. intuition. }
  done.
Qed.

Lemma dispositions_partition (full : list string) (n : nat) (rest : list string) :
  (List.length (Spec.with_disposition_from (_validate_ip_suffix self)
                  Spec.Accepted full n rest)
   + List.length (Spec.with_disposition_from (_validate_ip_suffix self)
                    Spec.Rejected full n rest)
   + List.length (Spec.with_disposition_from (_validate_ip_suffix self)
                    Spec.Duplicate full n rest))%nat
  = List.length rest.
Proof.
  unfold Spec.with_disposition_from. revert n.
  induction rest as [|x rest IH]; intros n; [done |].
  cbn [Spec.enumerate_from List.filter fst snd].
  specialize (IH (S n)).
  destruct (Spec.disposition_of (_validate_ip_suffix self) full n x);
    cbn [Spec.same List.map List.length]; lia.
Qed.

Lemma picks_clean (d : Spec.disposition) (rest pre : list string) :
  Forall (fun s => _validate_ip_suffix self s = true) rest ->
  NoDup (pre ++ rest) ->
  Spec.with_disposition_from (_validate_ip_suffix self) d
    (pre ++ rest) (List.length pre) rest
  = if Spec.same Spec.Accepted d then rest else [].
Proof.
  revert pre. induction rest as [|x rest IH]; intros pre Hv Hnd.
  - by destruct d.
  - apply Forall_cons in Hv as [Hx Hv]. rewrite picks_cons, Hx. cbn [negb].
    assert (x ∉ pre) as Hpre.
    { apply NoDup_app in Hnd as (_ & Hdisj & _). intros Hin.
      apply (Hdisj x Hin). by left. }
    rewrite (bool_decide_eq_false_2 _ Hpre).
    rewrite IH; [by destruct d | done |].
    by rewrite <- app_assoc.
Qed.

End MoreValidation.

(** X5. [_parse_ips] accounts for every suffix of its input exactly
    once: the hosts it returns, the errors it returns and the warnings it
    logs are together as many as the suffixes it was given. *)
Theorem parse_ips_accounts_for_every_suffix
    (self : SSHOperationsHub) (ip_suffixes : list string) (w : world) :
  exists hosts errors notices,
    _parse_ips self ip_suffixes w
    = (Ok (hosts, errors),
       World (shutdown_event w) (ssh_calls w) (logged w ++ notices))
    /\ (List.length hosts + List.length errors + List.length notices)%nat
       = List.length ip_suffixes.
Proof.
  rewrite parse_ips_eq. do 3 eexists. split; [done |].
  rewrite !length_map. apply dispositions_partition.
Qed.

(** X6. The hosts [_parse_ips] returns are built from suffixes of its
    input that are all digits and in the allow-list, and the client
    number read back from each host, its last dotted segment, is that
    suffix. *)
Theorem parse_ips_hosts_carry_their_suffix
    (self : SSHOperationsHub) (ip_suffixes : list string) (w : world) :
  exists suffixes errors,
    fst (_parse_ips self ip_suffixes w)
    = Ok (List.map (fun s => ip_prefix self ++ "." ++ s) suffixes, errors)
    /\ List.map client_num_of (List.map (fun s => ip_prefix self ++ "." ++ s) suffixes)
       = suffixes
    /\ Forall (fun s => s ∈ ip_suffixes /\ PyStr.isdigit s = true
                        /\ s ∈ allowed_ips self) suffixes.
Proof.
  rewrite parse_ips_eq. do 2 eexists. split; [done |].
  destruct (picks_accepted self ip_suffixes []) as [_ Hin].
  assert (Forall (fun s => s ∈ ip_suffixes /\ PyStr.isdigit s = true
                           /\ s ∈ allowed_ips self)
            (Spec.with_disposition (_validate_ip_suffix self) Spec.Accepted
               ip_suffixes)) as Hall.
  { apply Forall_forall. intros s (Hs & _ & Hv)%Hin.
    unfold _validate_ip_suffix in Hv.
    apply andb_true_iff in Hv as [Hd Ha%bool_decide_eq_true]. done. }
  split; [| done].
  induction Hall as [|s l (_ & Hd & _) _ IH]; [done |].
  cbn [List.map]. by rewrite client_num_of_host, IH.
Qed.

(** X7. A list of suffixes that all pass the validation and has no
    repetition goes through [_parse_ips] whole and in order, with no
    error and nothing logged. *)
Theorem parse_ips_clean_list
    (self : SSHOperationsHub) (ip_suffixes : list string) (w : world) :
  Forall (fun s => _validate_ip_suffix self s = true) ip_suffixes ->
  NoDup ip_suffixes ->
  _parse_ips self ip_suffixes w
  = (Ok (List.map (fun s => ip_prefix self ++ "." ++ s) ip_suffixes, []), w).
Proof.
  intros Hv Hnd. rewrite parse_ips_eq. unfold Spec.with_disposition.
  rewrite !(picks_clean self _ ip_suffixes [] Hv Hnd).
  cbn. rewrite app_nil_r. by destruct w.
Qed.

Lemma parse_ips_clean_list_witness :
  _parse_ips hub0 ["3"; "1"; "20"] w0
  = (Ok (["10.200.142.3"; "10.200.142.1"; "10.200.142.20"], []), w0).
Proof.
  apply (parse_ips_clean_list hub0 ["3"; "1"; "20"] w0).
  - by repeat constructor.
  - apply (bool_decide_unpack (NoDup ["3"; "1"; "20"])). reflexivity.
Defined.

Section PrefixTotal.

Lemma str_snoc_inj (a b : string) (c : ascii) :
  a ++ String c "" = b ++ String c "" -> a = b.
Proof.
  revert b. induction a as [|x a IH]; intros [|y b]; cbn; intros [= ]; subst.
  - done.
  - by destruct b.
  - by destruct a.
  - f_equal. by apply IH.
Qed.

Lemma without_final_lf_iff (s q : string) :
  Ref.without_final_lf s = Some q <-> s = q ++ PyStr.nl.
Proof.
  revert q. induction s as [|c s IH]; intros q.
  - cbn. split; [done | by destruct q].
  - cbn [Ref.without_final_lf]. destruct s as [|d s].
    + destruct (Ascii.eqb_spec c PyStr.LF) as [-> | Hne].
      * split; [by intros [= <-] |].
        destruct q as [|x [|y q]]; [done | discriminate | discriminate].
      * split; [done |].
        destruct q as [|x [|y q]]; cbn; intros [=]; by subst.
    + destruct (Ref.without_final_lf (String d s)) as [q'|].
      * pose proof (proj1 (IH q') eq_refl) as Hq'. cbn [option_map]. split.
        -- intros [= <-]. cbn. by rewrite <- Hq'.
        -- destruct q as [|x q]; [discriminate |]. cbn. intros [= <- Heq].
           f_equal. f_equal. rewrite Hq' in Heq. by apply str_snoc_inj in Heq.
      * cbn [option_map]. split; [done |].
        destruct q as [|x q]; [discriminate |]. cbn. intros [= <- Heq].
        by apply IH in Heq.
Qed.

Lemma all_chars_app (p : ascii -> bool) (a b : string) :
  PyStr.all_chars p (a ++ b) = PyStr.all_chars p a && PyStr.all_chars p b.
Proof.
  induction a as [|x a IH]; [done |].
  cbn [String.append PyStr.all_chars]. by rewrite IH, andb_assoc.
Qed.

Lemma digits_all (p : ascii -> bool) (g : string) :
  (forall c, PyStr.is_decimal c = true -> p c = true) ->
  Spec.is_digits g = true -> PyStr.all_chars p g = true.
Proof.
  intros Hp [_ Hd]%andb_true_iff. by apply (all_chars_impl PyStr.is_decimal).
Qed.

Lemma shape_without_lf (a b c : string) :
  Spec.is_digits a = true -> Spec.is_digits b = true -> Spec.is_digits c = true ->
  PyStr.contains PyStr.nl (a ++ "." ++ b ++ "." ++ c) = false.
Proof.
  intros Ha Hb Hc.
  apply (without_char (fun ch => PyStr.is_decimal ch || Ascii.eqb ch ".")); [done |].
  assert (forall g, Spec.is_digits g = true ->
                    PyStr.all_chars (fun ch => PyStr.is_decimal ch || Ascii.eqb ch ".") g
                    = true) as Hg.
  { intros g Hd. apply digits_all; [| done]. by intros ch ->. }
  rewrite !all_chars_app. by rewrite (Hg a Ha), (Hg b Hb), (Hg c Hc).
Qed.

Lemma parse_int_digits_lf (g : string) :
  Spec.is_digits g = true ->
  PyStr.parse_int (g ++ PyStr.nl) = Some (Spec.decimal_value g).
Proof.
  intros Hd. rewrite <- (parse_int_digits g Hd). unfold PyStr.parse_int.
  pose proof Hd as [Hne Hall]%andb_true_iff.
  destruct g as [|x g]; [done |].
  pose proof Hall as [Hx _]%andb_true_iff.
  cbn [String.append PyStr.lstrip_by]. rewrite (decimal_not_int_space x Hx).
  change (String x (g ++ PyStr.nl)) with (String x g ++ PyStr.nl).
  by rewrite rstrip_by_app_all.
Qed.

Lemma shape_lf_split (a b c : string) :
  Spec.is_digits a = true -> Spec.is_digits b = true -> Spec.is_digits c = true ->
  PyStr.split "." (a ++ "." ++ b ++ "." ++ c ++ PyStr.nl) = [a; b; c ++ PyStr.nl].
Proof.
  intros Ha Hb Hc.
  change (a ++ "." ++ b ++ "." ++ c ++ PyStr.nl)
    with (a ++ String "." (b ++ String "." (c ++ PyStr.nl))).
  rewrite !split_app_sep, !digits_split by done.
  rewrite (split_without_sep (fun ch => negb (Ascii.eqb ch ".")) "." (c ++ PyStr.nl));
    [done | done |].
  rewrite all_chars_app, (digits_all _ c); [done | | done].
  intros ch Hch. by destruct ch as [[] [] [] [] [] [] [] []].
Qed.

Lemma octet_in_range_lf (g : string) :
  Spec.is_digits g = true -> (String.length g <= 3)%nat ->
  (let? n := int (g ++ PyStr.nl) in Ok ((0 <=? n)%Z && (n <=? 255)%Z))
  = Ok (Spec.octet_group g).
Proof.
  intros Hd Hl. rewrite <- (octet_in_range g Hd Hl). unfold int.
  by rewrite (parse_int_digits_lf g Hd), (parse_int_digits g Hd).
Qed.

Lemma digits_lf_not_digits (g : string) : Spec.is_digits (g ++ PyStr.nl) = false.
Proof.
  unfold Spec.is_digits. rewrite all_chars_app. cbn.
  by rewrite !andb_false_r.
Qed.

Lemma validate_ip_prefix_everywhere (raw : string) :
  _validate_ip_prefix raw
  = Ok (Spec.three_groups (PyStr.rstrip "." raw)
        || match Ref.without_final_lf (PyStr.rstrip "." raw) with
           | Some q => Spec.three_groups q
           | None => false
           end).
Proof.
  unfold _validate_ip_prefix. set (p := PyStr.rstrip "." raw).
  destruct (Re.matches IP_PREFIX_RE p) eqn:Hm; cbn [negb].
  - apply prefix_matches_iff in Hm
      as (a & b & c & tail & Heq & Htail & [Ha La] & [Hb Lb] & [Hc Lc]).
    destruct Htail as [-> | ->].
    + rewrite str_app_nil_r in Heq. rewrite Heq.
      destruct (Ref.without_final_lf (a ++ "." ++ b ++ "." ++ c)) as [q|] eqn:Hq.
      { apply without_final_lf_iff in Hq.
        pose proof (shape_without_lf a b c Ha Hb Hc) as Hnl.
        assert (PyStr.contains PyStr.nl (a ++ "." ++ b ++ "." ++ c) = true);
          [| congruence].
        apply contains_iff. exists q, "". by rewrite Hq, str_app_nil_r. }
      rewrite orb_false_r. unfold Spec.three_groups. rewrite shape_split by done.
      cbn [py_all]. rewrite !octet_in_range by done.
      by destruct (Spec.octet_group a), (Spec.octet_group b), (Spec.octet_group c).
    + rewrite Heq.
      assert (Ref.without_final_lf (a ++ "." ++ b ++ "." ++ c ++ PyStr.nl)
              = Some (a ++ "." ++ b ++ "." ++ c)) as ->.
      { apply without_final_lf_iff. by rewrite !str_app_assoc. }
      unfold Spec.three_groups. rewrite shape_lf_split, shape_split by done.
      cbn [py_all]. rewrite !octet_in_range, octet_in_range_lf by done.
      unfold Spec.octet_group at 6. rewrite digits_lf_not_digits.
      by destruct (Spec.octet_group a), (Spec.octet_group b), (Spec.octet_group c).
  - assert (Spec.three_groups p = false) as ->.
    { apply not_true_is_false.
      intros (a & b & c & Heq & [Ha [La _]]%octet_group_iff
              & [Hb [Lb _]]%octet_group_iff & [Hc [Lc _]]%octet_group_iff)%three_groups_iff.
      assert (Re.matches IP_PREFIX_RE p = true); [| congruence].
      apply prefix_matches_iff. exists a, b, c, "".
      rewrite str_app_nil_r. split; [done |]. split; [by left |]. by repeat split. }
    destruct (Ref.without_final_lf p) as [q|] eqn:Hq; [| done].
    assert (Spec.three_groups q = false) as ->; [| done].
    apply not_true_is_false.
    intros (a & b & c & Heq & [Ha [La _]]%octet_group_iff
            & [Hb [Lb _]]%octet_group_iff & [Hc [Lc _]]%octet_group_iff)%three_groups_iff.
    apply without_final_lf_iff in Hq.
    assert (Re.matches IP_PREFIX_RE p = true); [| congruence].
    apply prefix_matches_iff. exists a, b, c, PyStr.nl.
    split; [by rewrite Hq, Heq, !str_app_assoc |]. split; [by right |]. by repeat split.
Qed.

End PrefixTotal.

(** X8. [_validate_ip_prefix] returns without raising on every string.
    With every trailing dot removed, it accepts exactly the strings of
    three octet groups between dots and those strings followed by one
    line feed. *)
Theorem validate_ip_prefix_on_every_string (raw : string) :
  _validate_ip_prefix raw
  = Ok (Spec.three_groups (PyStr.rstrip "." raw)
        || match Ref.without_final_lf (PyStr.rstrip "." raw) with
           | Some q => Spec.three_groups q
           | None => false
           end).
Proof. apply validate_ip_prefix_everywhere. Qed.

(** ** More on the remote executor *)

Section ExecutorCases.

Variable self : SSHOperationsHub.
Variable client : nat -> list string -> process.

(** Every way [_execute_ssh_command] can go. *)
Lemma execute_cases (user ip command : string) (w : world) :
  _execute_ssh_command self client user ip command w
  = (let once := World false (ssh_calls w ++ [Spec.probe_argv self user ip])
                   (logged w) in
     let twice := World false
                    (ssh_calls w ++ [Spec.probe_argv self user ip;
                                     Spec.command_argv self user ip command])
                    (logged w ++ [Spec.running_record user ip command]) in
     let refused :=
       (Ok (false, label_of ip ++ " Error: Could not establish SSH connection to "
                     ++ user ++ "@" ++ ip), once) in
     if shutdown_event w
     then (Ok (false, label_of ip ++ " Aborted due to shutdown"), w)
     else
       match client (List.length (ssh_calls w)) (Spec.probe_argv self user ip) with
       | NotLaunched => (Raise FileNotFoundError, once)
       | Fails e => if Ref.handled e then refused else (Raise e, once)
       | Hangs => refused
       | Exits rc _ _ =>
           if negb (rc =? 0)%Z then refused
           else
             match client (S (List.length (ssh_calls w)))
                     (Spec.command_argv self user ip command) with
             | NotLaunched => (Raise FileNotFoundError, twice)
             | Fails TimeoutExpired =>
                 (Ok (false, label_of ip ++ " Error: Command timed out"), twice)
             | Fails (CalledProcessError rc' _ err) =>
                 (Ok (false,
                      label_of ip ++ " Error: Command failed with status "
                      ++ PyStr.str rc' ++ PyStr.nl ++ label_of ip ++ " Output: "
                      ++ match err with
                         | Some e =>
                             if PyStr.nonempty e then PyStr.strip e else "Unknown error"
                         | None => "Unknown error"
                         end), twice)
             | Fails e => (Raise e, twice)
             | Hangs => (Ok (false, label_of ip ++ " Error: Command timed out"), twice)
             | Exits rc' out err =>
                 if (rc' =? 0)%Z
                 then (Ok (true,
                           Spec.labelled_lines Spec.is_empty (label_of ip)
                             (PyStr.strip out)), twice)
                 else (Ok (false,
                           label_of ip ++ " Error: Command failed with status "
                           ++ PyStr.str rc' ++ PyStr.nl ++ label_of ip ++ " Output: "
                           ++ (if PyStr.nonempty err then PyStr.strip err
                               else "Unknown error")), twice)
             end
       end).
Proof.
  cbv zeta. destruct (shutdown_event w) eqn:Hsd.
  { by apply execute_when_shutdown. }
  destruct (client (List.length (ssh_calls w)) (Spec.probe_argv self user ip))
    as [rc o e | | | e'] eqn:Hprobe.
  - destruct (Z.eqb_spec rc 0) as [-> | Hrc]; cbn [negb].
    + rewrite (execute_after_probe self client user ip command w o e Hsd Hprobe).
      cbv zeta.
      destruct (client (S (List.length (ssh_calls w)))
                  (Spec.command_argv self user ip command)) as [rc' out err | | | e'];
        [| done | done | by destruct e'].
      destruct (rc' =? 0)%Z; [| done].
      rewrite fold_left_keep. cbn [app]. unfold Spec.labelled_lines, Spec.is_empty.
      do 5 f_equal. apply filter_ext. intros line. by destruct (PyStr.nonempty line).
    + destruct w as [sd calls log]. cbn [shutdown_event ssh_calls logged] in *. subst sd.
      unfold _execute_ssh_command, bind, attempt, shutdown_is_set, subprocess_run, ret.
      cbn [shutdown_event ssh_calls logged].
      fold (Spec.probe_argv self user ip). rewrite Hprobe.
      apply Z.eqb_neq in Hrc. by rewrite Hrc.
  - destruct w as [sd calls log]. cbn [shutdown_event ssh_calls logged] in *. subst sd.
    unfold _execute_ssh_command, bind, attempt, shutdown_is_set, subprocess_run, ret.
    cbn [shutdown_event ssh_calls logged].
    fold (Spec.probe_argv self user ip). by rewrite Hprobe.
  - destruct w as [sd calls log]. cbn [shutdown_event ssh_calls logged] in *. subst sd.
    unfold _execute_ssh_command, bind, attempt, shutdown_is_set, subprocess_run, ret, raise.
    cbn [shutdown_event ssh_calls logged].
    fold (Spec.probe_argv self user ip). by rewrite Hprobe.
  - destruct w as [sd calls log]. cbn [shutdown_event ssh_calls logged] in *. subst sd.
    unfold _execute_ssh_command, bind, attempt, shutdown_is_set, subprocess_run, ret, raise.
    cbn [shutdown_event ssh_calls logged].
    fold (Spec.probe_argv self user ip). rewrite Hprobe. by destruct e'.
Qed.

(** What a call leaves behind, whatever its result. *)
Lemma execute_effects (user ip command : string) (w : world) :
  exists new records,
    snd (_execute_ssh_command self client user ip command w)
    = World (shutdown_event w) (ssh_calls w ++ new) (logged w ++ records)
    /\ (new = []
        \/ new = [Spec.probe_argv self user ip]
        \/ new = [Spec.probe_argv self user ip; Spec.command_argv self user ip command])
    /\ (records = [] \/ records = [Spec.running_record user ip command]).
Proof.
  rewrite execute_cases. cbv zeta.
  destruct (shutdown_event w) eqn:Hsd.
  { exists [], []. rewrite !app_nil_r. destruct w; cbn in *; subst. auto. }
  assert (exists new records,
             World false (ssh_calls w ++ [Spec.probe_argv self user ip]) (logged w)
             = World false (ssh_calls w ++ new) (logged w ++ records)
             /\ (new = [] \/ new = [Spec.probe_argv self user ip]
                 \/ new = [Spec.probe_argv self user ip;
                           Spec.command_argv self user ip command])
             /\ (records = [] \/ records = [Spec.running_record user ip command]))
    as Honce.
  { exists [Spec.probe_argv self user ip], []. rewrite app_nil_r. auto. }
  assert (exists new records,
             World false
               (ssh_calls w ++ [Spec.probe_argv self user ip;
                                Spec.command_argv self user ip command])
               (logged w ++ [Spec.running_record user ip command])
             = World false (ssh_calls w ++ new) (logged w ++ records)
             /\ (new = [] \/ new = [Spec.probe_argv self user ip]
                 \/ new = [Spec.probe_argv self user ip;
                           Spec.command_argv self user ip command])
             /\ (records = [] \/ records = [Spec.running_record user ip command]))
    as Htwice.
  { do 2 eexists. split; [done |]. auto. }
  destruct (client (List.length (ssh_calls w)) (Spec.probe_argv self user ip))
    as [rc o e | | | e']; [| done | done | by destruct (Ref.handled e')].
  destruct (negb (rc =? 0)%Z); [done |].
  destruct (client (S (List.length (ssh_calls w)))
              (Spec.command_argv self user ip command)) as [rc' out err | | | e'];
    [| done | done | by destruct e'].
  by destruct (rc' =? 0)%Z.
Qed.

End ExecutorCases.

(** X9. [_execute_ssh_command] reports success exactly when the
    shutdown event is not set and both the probe and the command exit
    with status zero.  An exception leaves it exactly when the event is
    not set and the call of the client for the probe, or after a probe
    that exited with status zero the call for the command, raises by
    itself an exception that is neither [TimeoutExpired] nor
    [CalledProcessError]; that exception is the one that leaves. *)
Theorem execute_succeeds_exactly_when_both_phases_do
    (self : SSHOperationsHub) (client : nat -> list string -> process)
    (user ip command : string) (w : world) :
  let probe := client (List.length (ssh_calls w)) (Spec.probe_argv self user ip) in
  let outcome :=
    client (S (List.length (ssh_calls w))) (Spec.command_argv self user ip command) in
  ((exists message,
       fst (_execute_ssh_command self client user ip command w) = Ok (true, message))
   <-> shutdown_event w = false
       /\ (exists o e, probe = Exits 0 o e)
       /\ (exists out err, outcome = Exits 0 out err))
  /\ (forall e,
        fst (_execute_ssh_command self client user ip command w) = Raise e
        <-> shutdown_event w = false
            /\ Ref.handled e = false
            /\ (Ref.call_raises probe e
                \/ ((exists o e', probe = Exits 0 o e') /\ Ref.call_raises outcome e))).
Proof.
  intros probe outcome. subst probe outcome.
  rewrite execute_cases. cbv zeta. unfold Ref.call_raises.
  destruct (shutdown_event w).
  { split; [split; [by intros [m [=]] | by intros [[=] _]] |].
    intros e. split; [by intros [=] | by intros [[=] _]]. }
  destruct (client (List.length (ssh_calls w)) (Spec.probe_argv self user ip))
    as [rc o e0 | | | e1].
  - destruct (Z.eqb_spec rc 0) as [-> | Hrc]; cbn [negb].
    + destruct (client (S (List.length (ssh_calls w)))
                  (Spec.command_argv self user ip command)) as [rc' out err | | | e2].
      * destruct (Z.eqb_spec rc' 0) as [-> | Hrc']; cbn [fst].
        -- split.
           ++ split; [intros _ | by eexists].
              split; [done |]. split; by do 2 eexists.
           ++ intros e. split; [by intros [=] |].
              by intros (_ & _ & [[[Hp _] | Hp] | [_ [[Hc _] | Hc]]]).
        -- split.
           ++ split; [by intros [m [=]] |].
              intros (_ & _ & out' & err' & [= ? _ _]). done.
           ++ intros e. split; [by intros [=] |].
              by intros (_ & _ & [[[Hp _] | Hp] | [_ [[Hc _] | Hc]]]).
      * split.
        -- split; [by intros [m [=]] | by intros (_ & _ & ? & ? & [=])].
        -- intros e. split; [by intros [=] |].
           by intros (_ & _ & [[[Hp _] | Hp] | [_ [[Hc _] | Hc]]]).
      * split.
        -- split; [by intros [m [=]] | by intros (_ & _ & ? & ? & [=])].
        -- intros e. cbn [fst]. split.
           ++ intros [= <-]. split; [done |]. split; [done |].
              right. split; [by do 2 eexists | by left].
           ++ by intros (_ & _ & [[[Hp _] | Hp] | [_ [[_ ->] | Hc]]]).
      * split.
        -- split; [by destruct e2; intros [m [=]] | by intros (_ & _ & ? & ? & [=])].
        -- intros e. split.
           ++ intros Hraise.
              assert (e = e2 /\ Ref.handled e2 = false) as [-> Hh].
              { by destruct e2; cbn [fst] in Hraise; try discriminate;
                  injection Hraise as <-. }
              split; [done |]. split; [done |].
              right. split; [by do 2 eexists | by right].
           ++ intros (_ & Hh & [[[Hp _] | Hp] | [_ [[Hc _] | Hc]]]); try done.
              injection Hc as ->. by destruct e.
    + split.
      * split; [by intros [m [=]] |].
        intros (_ & (o' & e' & [= ? _ _]) & _). done.
      * intros e. split; [by intros [=] |].
        intros (_ & _ & [[[Hp _] | Hp] | [(o' & e' & [= ? _ _]) _]]); done.
  - split.
    + split; [by intros [m [=]] | by intros (_ & (? & ? & [=]) & _)].
    + intros e. split; [by intros [=] |].
      by intros (_ & _ & [[[Hp _] | Hp] | [(o' & e' & Hp) _]]).
  - split.
    + split; [by intros [m [=]] | by intros (_ & (? & ? & [=]) & _)].
    + intros e. cbn [fst]. split.
      * intros [= <-]. split; [done |]. split; [done |]. left. by left.
      * by intros (_ & _ & [[[_ ->] | Hp] | [(o' & e' & Hp) _]]).
  - split.
    + split; [| by intros (_ & (? & ? & [=]) & _)].
      by destruct (Ref.handled e1); intros [m [=]].
    + intros e. split.
      * intros Hraise. destruct (Ref.handled e1) eqn:Hh; [done |].
        cbn [fst] in Hraise. injection Hraise as <-.
        split; [done |]. split; [done |]. left. by right.
      * intros (_ & Hh & [[[Hp _] | Hp] | [(o' & e' & Hp) _]]); try done.
        injection Hp as ->. by rewrite Hh.
Qed.

(** X10. A call of [_execute_ssh_command] never changes the shutdown
    event; it adds to the invocations of the client nothing, the probe, or
    the probe followed by the command, and to the log at most its record
    that the command is being run. *)
Theorem execute_leaves_bounded_effects
    (self : SSHOperationsHub) (client : nat -> list string -> process)
    (user ip command : string) (w : world) :
  exists new records,
    snd (_execute_ssh_command self client user ip command w)
    = World (shutdown_event w) (ssh_calls w ++ new) (logged w ++ records)
    /\ (new = []
        \/ new = [Spec.probe_argv self user ip]
        \/ new = [Spec.probe_argv self user ip; Spec.command_argv self user ip command])
    /\ (records = [] \/ records = [Spec.running_record user ip command]).
Proof. apply execute_effects. Qed.

(** ** More on the dispatcher *)

Section Dispatch.

Variable self : SSHOperationsHub.
Variable client : nat -> list string -> process.
Variable exn_text : exn -> string.

Lemma execute_commands_unfold (completed : list nat)
    (primary_ips secondary_ips : list string)
    (primary_user secondary_user command : string) :
  execute_commands self client exn_text completed primary_ips secondary_ips
    primary_user secondary_user command
  = match primary_ips, secondary_ips with
    | [], [] => logger WARNING "No IP addresses specified"
    | _, _ =>
        if negb (PyStr.nonempty command) then logger WARNING "No command specified"
        else
          let* futures :=
            submit_all self client
              (build_tasks primary_ips secondary_ips primary_user secondary_user
                 command) in
          for_each completed (Ref.report exn_text futures)
    end.
Proof. reflexivity. Qed.

End Dispatch.

Section Attribution.

Lemma contains_char_false_iff (c : ascii) (s : string) :
  PyStr.contains (String c "") s = false
  <-> PyStr.all_chars (fun x => negb (Ascii.eqb x c)) s = true.
Proof.
  induction s as [|x s IH]; [done |].
  cbn [PyStr.contains PyStr.all_chars].
  rewrite orb_false_iff, andb_true_iff, IH, negb_true_iff.
  assert (String.prefix (String c "") (String x s) = false <-> Ascii.eqb x c = false)
    as Hp; [| tauto].
  cbn [String.prefix]. destruct (ascii_dec c x) as [<- | Hne].
  - rewrite Ascii.eqb_refl. by destruct s.
  - split; [intros _ | done]. apply Ascii.eqb_neq. congruence.
Qed.

Lemma split_pieces (p : ascii -> bool) (sep : ascii) (s : string) :
  PyStr.all_chars p s = true ->
  Forall (fun piece => PyStr.all_chars p piece = true) (PyStr.split sep s).
Proof.
  induction s as [|x s IH]; [by repeat constructor |].
  cbn [PyStr.all_chars PyStr.split]. rewrite andb_true_iff. intros [Hx Hs].
  specialize (IH Hs). destruct (Ascii.eqb x sep); [by constructor |].
  destruct (PyStr.split sep s) as [|w ws].
  { constructor; [cbn; by rewrite Hx | constructor]. }
  apply Forall_cons in IH as [Hw Hws]. constructor; [| done]. cbn. by rewrite Hx, Hw.
Qed.

Lemma split_pieces_without_sep (sep : ascii) (s : string) :
  Forall (fun piece => PyStr.all_chars (fun x => negb (Ascii.eqb x sep)) piece = true)
    (PyStr.split sep s).
Proof.
  induction s as [|x s IH]; [by repeat constructor |].
  cbn [PyStr.split]. destruct (Ascii.eqb x sep) eqn:Hx; [by constructor |].
  destruct (PyStr.split sep s) as [|w ws]; [constructor; [cbn; by rewrite Hx | done] |].
  apply Forall_cons in IH as [Hw Hws]. constructor; [| done]. cbn. by rewrite Hx, Hw.
Qed.

Lemma split_join (sep : ascii) (l : list string) :
  l <> [] ->
  Forall (fun piece => PyStr.all_chars (fun x => negb (Ascii.eqb x sep)) piece = true) l ->
  PyStr.split sep (PyStr.join (String sep "") l) = l.
Proof.
  induction l as [|x l IH]; [done |]. intros _ [Hx Hl]%Forall_cons.
  assert (PyStr.split sep x = [x]) as Hsx.
  { apply (split_without_sep (fun c => negb (Ascii.eqb c sep))); [| done].
    by rewrite Ascii.eqb_refl. }
  destruct l as [|y l]; [done |].
  rewrite join_cons.
  change (x ++ String sep "" ++ PyStr.join (String sep "") (y :: l))
    with (x ++ String sep (PyStr.join (String sep "") (y :: l))).
  by rewrite split_app_sep, Hsx, IH.
Qed.

Lemma last_Forall {A} (P : A -> Prop) (l : list A) (d : A) :
  Forall P l -> P d -> P (List.last l d).
Proof.
  induction l as [|x l IH]; [done |]. intros [Hx Hl]%Forall_cons Hd.
  destruct l as [|y l]; [done |]. by apply IH.
Qed.

Lemma label_without_lf (ip : string) :
  PyStr.contains PyStr.nl ip = false ->
  PyStr.all_chars (fun x => negb (Ascii.eqb x PyStr.LF)) (label_of ip ++ " ") = true.
Proof.
  intros Hip%contains_char_false_iff. unfold label_of, client_num_of.
  rewrite !all_chars_app, Hip.
  rewrite (last_Forall (fun s => PyStr.all_chars _ s = true)
             (PyStr.split "." ip) "" (split_pieces _ "." ip Hip) eq_refl).
  done.
Qed.

End Attribution.

(** X11. When the host holds no line feed and [_execute_ssh_command]
    reports success with a message that is not empty, every line of the
    message starts with the label of the host and a space: split at line
    feeds, the message gives back exactly the labelled lines. *)
Theorem success_lines_carry_the_label
    (self : SSHOperationsHub) (client : nat -> list string -> process)
    (user ip command : string) (w : world) (message : string) :
  PyStr.contains PyStr.nl ip = false ->
  fst (_execute_ssh_command self client user ip command w) = Ok (true, message) ->
  message <> "" ->
  Forall (fun line => String.prefix (label_of ip ++ " ") line = true)
    (PyStr.split PyStr.LF message).
Proof.
  intros Hip Hrun Hne. rewrite execute_cases in Hrun. cbv zeta in Hrun.
  destruct (shutdown_event w); [done |].
  destruct (client (List.length (ssh_calls w)) (Spec.probe_argv self user ip))
    as [rc o e | | | e']; [| done | done | by destruct (Ref.handled e')].
  destruct (negb (rc =? 0)%Z); [done |].
  destruct (client (S (List.length (ssh_calls w)))
              (Spec.command_argv self user ip command)) as [rc' out err | | | e'];
    [| done | done | by destruct e'].
  destruct (rc' =? 0)%Z; [| done].
  cbn [fst] in Hrun. injection Hrun as <-.
  unfold Spec.labelled_lines in *.
  set (kept := List.filter (fun line => negb (Spec.is_empty line))
                 (PyStr.split PyStr.LF (PyStr.strip out))) in *.
  assert (Forall (fun piece =>
                    PyStr.all_chars (fun x => negb (Ascii.eqb x PyStr.LF)) piece = true)
            kept) as Hkept.
  { apply Forall_forall. intros line [Hin _]%list_elem_of_In%filter_In.
    apply (proj1 (Forall_forall _ _) (split_pieces_without_sep PyStr.LF (PyStr.strip out))).
    by apply list_elem_of_In. }
  assert (kept <> []) as Hk.
  { intros Hk. apply Hne. by rewrite Hk. }
  rewrite split_join.
  - apply Forall_fmap, Forall_forall. intros line _. unfold compose.
    apply prefix_iff. exists line. symmetry. apply str_app_assoc.
  - by destruct kept.
  - apply Forall_fmap. eapply Forall_impl; [exact Hkept |].
    intros line Hline. unfold compose.
    pose proof (label_without_lf ip Hip) as Hl.
    rewrite all_chars_app in Hl. apply andb_true_iff in Hl as [Hl _].
    by rewrite !all_chars_app, Hl, Hline.
Qed.

Lemma success_lines_carry_the_label_witness :
  Forall (fun line => String.prefix "[Client 1 | 10.200.142.1] " line = true)
    (PyStr.split PyStr.LF
       ("[Client 1 | 10.200.142.1] a" ++ PyStr.nl ++ "[Client 1 | 10.200.142.1] b")).
Proof.
  apply (success_lines_carry_the_label hub0
           (fun _ _ => Exits 0 ("a" ++ PyStr.nl ++ PyStr.nl ++ "b" ++ PyStr.nl) "")
           "root" "10.200.142.1" "ls" w0).
  - reflexivity.
  - reflexivity.
  - discriminate.
Defined.

Section DispatchMore.

Variable self : SSHOperationsHub.
Variable client : nat -> list string -> process.
Variable exn_text : exn -> string.

Lemma strip_blank (out : string) : Spec.is_blank out = true -> PyStr.strip out = "".
Proof.
  unfold Spec.is_blank, PyStr.strip. intros Hb.
  assert (PyStr.lstrip_by PyStr.char_isspace out = "") as ->; [| done].
  induction out as [|c out IH]; [done |].
  cbn [PyStr.all_chars PyStr.lstrip_by] in *.
  apply andb_true_iff in Hb as [-> Hb]. by apply IH.
Qed.

End DispatchMore.

(** X12. For a hub with the built-in limits (two calls of the client of
    at most [connection_timeout] each are far within [global_timeout]),
    the dispatch of a single host, with the shutdown event not set and a
    command that is not empty, does what [_execute_ssh_command] does for
    that host and then logs its outcome: a message that is not
    empty goes to the log at level INFO whether the call succeeded or
    failed, an empty message is not logged, and an exception that left
    the call is logged as an unexpected error at level ERROR and goes no
    further. *)
Theorem dispatch_of_one_host_logs_its_outcome
    (self : SSHOperationsHub) (client : nat -> list string -> process)
    (exn_text : exn -> string) (ip primary_user secondary_user command : string)
    (w : world) :
  let user := _substitute_variables primary_user (client_num_of ip) in
  let cmd := _substitute_variables command (client_num_of ip) in
  let outcome := _execute_ssh_command self client user ip cmd w in
  Ref.same_settings default_hub self ->
  shutdown_event w = false ->
  PyStr.nonempty command = true ->
  execute_commands self client exn_text [0%nat] [ip] []
    primary_user secondary_user command w
  = (Ok tt,
     World false (ssh_calls (snd outcome))
       (logged (snd outcome)
        ++ match fst outcome with
           | Ok (_, message) =>
               if PyStr.nonempty message then [(INFO, message)] else []
           | Raise e => [(ERROR, label_of ip ++ " Unexpected error: " ++ exn_text e)]
           end)).
Proof.
  intros user cmd outcome _ Hsd Hcmd. subst outcome.
  rewrite execute_commands_unfold, Hcmd. cbn [negb].
  unfold build_tasks. cbn [List.fold_left app].
  fold (client_num_of ip). fold user. fold cmd.
  cbn [submit_all]. unfold bind at 1, bind at 1, attempt.
  destruct (execute_effects self client user ip cmd w) as (new & records & Hw & _).
  destruct (_execute_ssh_command self client user ip cmd w) as [r w'].
  cbn [fst snd] in *. subst w'. rewrite Hsd.
  unfold bind, ret. cbn [for_each]. unfold bind, Ref.report, bind, shutdown_is_set, ret.
  cbn [shutdown_event ssh_calls logged lookup list_lookup].
  destruct r as [[success message]|e].
  - destruct (PyStr.nonempty message); [done |]. by rewrite app_nil_r.
  - done.
Qed.

Lemma dispatch_of_one_host_logs_its_outcome_witness :
  logged (snd (execute_commands hub0
                 (fun n _ => match n with
                             | O => Exits 0 "" ""
                             | S _ => Exits 1 "" "boom"
                             end)
                 (fun _ => "") [0%nat] ["10.200.142.1"] [] "root" "admin" "false" w0))
  = [(INFO, "[Client 1 | 10.200.142.1] Running 'false' on root@10.200.142.1");
     (INFO, "[Client 1 | 10.200.142.1] Error: Command failed with status 1"
            ++ PyStr.nl ++ "[Client 1 | 10.200.142.1] Output: boom")].
Proof.
  exact (f_equal (fun r => logged (snd r))
           (dispatch_of_one_host_logs_its_outcome hub0
              (fun n _ => match n with
                          | O => Exits 0 "" ""
                          | S _ => Exits 1 "" "boom"
                          end)
              (fun _ => "") "10.200.142.1" "root" "admin" "false" w0
              (conj eq_refl (conj eq_refl (conj eq_refl eq_refl))) eq_refl eq_refl)).
Defined.

(** X13. A command that succeeds and prints nothing but whitespace gives
    a success with an empty message, and the dispatcher logs no result
    for it: after the dispatch of that one host the log holds only the
    record that the command was being run. *)
Theorem silent_success_is_not_reported
    (self : SSHOperationsHub) (client : nat -> list string -> process)
    (exn_text : exn -> string) (ip primary_user secondary_user command : string)
    (w : world) (o e out err : string) :
  let user := _substitute_variables primary_user (client_num_of ip) in
  let cmd := _substitute_variables command (client_num_of ip) in
  shutdown_event w = false ->
  PyStr.nonempty command = true ->
  client (List.length (ssh_calls w)) (Spec.probe_argv self user ip) = Exits 0 o e ->
  client (S (List.length (ssh_calls w))) (Spec.command_argv self user ip cmd)
  = Exits 0 out err ->
  Spec.is_blank out = true ->
  fst (_execute_ssh_command self client user ip cmd w) = Ok (true, "")
  /\ execute_commands self client exn_text [0%nat] [ip] []
       primary_user secondary_user command w
     = (Ok tt,
        World false
          (ssh_calls w ++ [Spec.probe_argv self user ip;
                           Spec.command_argv self user ip cmd])
          (logged w ++ [Spec.running_record user ip cmd])).
Proof.
  intros user cmd Hsd Hcmd Hprobe Hrun Hblank.
  assert (_execute_ssh_command self client user ip cmd w
          = (Ok (true, ""),
             World false
               (ssh_calls w ++ [Spec.probe_argv self user ip;
                                Spec.command_argv self user ip cmd])
               (logged w ++ [Spec.running_record user ip cmd]))) as Hexec.
  { rewrite execute_cases. cbv zeta. rewrite Hsd, Hprobe. cbn [Z.eqb negb].
    rewrite Hrun. cbn [Z.eqb]. by rewrite (strip_blank out Hblank). }
  split; [by rewrite Hexec |].
  rewrite execute_commands_unfold, Hcmd. cbn [negb].
  unfold build_tasks. cbn [List.fold_left app].
  fold (client_num_of ip). fold user. fold cmd.
  cbn [submit_all]. unfold bind at 1, bind at 1, attempt. rewrite Hexec.
  unfold bind, ret. cbn [for_each]. unfold bind, Ref.report, bind, shutdown_is_set, ret.
  done.
Qed.

Lemma silent_success_is_not_reported_witness :
  logged (snd (execute_commands hub0 (fun _ _ => Exits 0 "  " "") (fun _ => "")
                 [0%nat] ["10.200.142.1"] [] "root" "admin" "true" w0))
  = [(INFO, "[Client 1 | 10.200.142.1] Running 'true' on root@10.200.142.1")].
Proof.
  pose proof (proj2 (silent_success_is_not_reported hub0 (fun _ _ => Exits 0 "  " "")
                       (fun _ => "") "10.200.142.1" "root" "admin" "true" w0
                       "  " "" "  " "" eq_refl eq_refl eq_refl eq_refl eq_refl)) as H.
  exact (f_equal (fun r => logged (snd r)) H).
Defined.

(** ** Loading the configuration *)

Section LoadConfig.

Variable exn_text : exn -> string.

Lemma parse_allowed_ips_ok (s : string) :
  exists l, _parse_allowed_ips s = Ok l
            /\ Forall (fun x => PyStr.isdigit x = true) l.
Proof.
  unfold _parse_allowed_ips. rewrite parse_allowed_ips_loop_eq. cbn [app].
  eexists. split; [done |].
  apply Forall_concat, Forall_fmap, Forall_forall. intros token _. unfold compose.
  destruct (expand_range_digits token) as (l & Hl & Hd).
  unfold Ref.expansion. by rewrite Hl.
Qed.

Lemma load_config_line_ok (self : SSHOperationsHub) (line : string) :
  exists self',
    _load_config_line self line = Ok self'
    /\ Ref.same_settings self self'
    /\ (Forall (fun x => PyStr.isdigit x = true) (allowed_ips self) ->
        Forall (fun x => PyStr.isdigit x = true) (allowed_ips self')).
Proof.
  unfold _load_config_line.
  assert (exists self', Ok self = Ok self' /\ Ref.same_settings self self'
                        /\ (Forall (fun x => PyStr.isdigit x = true) (allowed_ips self) ->
                            Forall (fun x => PyStr.isdigit x = true) (allowed_ips self')))
    as Hsame.
  { by exists self. }
  destruct (PyStr.nonempty (PyStr.strip line)
            && negb (PyStr.startswith "#" (PyStr.strip line))); [| done].
  destruct (PyStr.contains "=" (PyStr.strip line)) eqn:Hc; [| done].
  apply first_sep in Hc as (key & value & -> & Hkey).
  rewrite (split_max_first "=" key value Hkey).
  destruct (String.eqb (PyStr.strip key) "IP_PREFIX").
  { eexists. split; [done |]. by split. }
  destruct (String.eqb (PyStr.strip key) "ALLOWED_IPS"); [| done].
  destruct (parse_allowed_ips_ok
              (PyStr.strip_chars PyStr.dquote (PyStr.strip value))) as (l & -> & Hl).
  eexists. split; [done |]. by split.
Qed.

Lemma load_config_file_ok (lines : list string) (failure : option exn)
    (self : SSHOperationsHub) :
  exists self',
    _load_config_file self lines failure = (self', failure)
    /\ Ref.same_settings self self'
    /\ (Forall (fun x => PyStr.isdigit x = true) (allowed_ips self) ->
        Forall (fun x => PyStr.isdigit x = true) (allowed_ips self')).
Proof.
  revert self. induction lines as [|line lines IH]; intros self.
  - by exists self.
  - cbn [_load_config_file].
    destruct (load_config_line_ok self line) as (self1 & -> & Hs1 & Hd1).
    destruct (IH self1) as (self2 & -> & Hs2 & Hd2).
    exists self2. split; [done |]. split; [| tauto].
    unfold Ref.same_settings in *. intuition congruence.
Qed.

Lemma load_config_spec (config_locations : list (string * config_file))
    (self : SSHOperationsHub) (w : world) :
  exists r records,
    _load_config exn_text config_locations self w
    = (r, World (shutdown_event w) (ssh_calls w) (logged w ++ records))
    /\ Forall (fun r => fst r = WARNING) records
    /\ (List.length records <= List.length config_locations)%nat
    /\ match r with
       | Ok self' =>
           Ref.same_settings self self'
           /\ (Forall (fun x => PyStr.isdigit x = true) (allowed_ips self) ->
               Forall (fun x => PyStr.isdigit x = true) (allowed_ips self'))
       | Raise e => exists path, (path, Inaccessible e) ∈ config_locations
       end.
Proof.
  revert self w. induction config_locations as [|[path file] rest IH]; intros self w.
  - exists (Ok self), []. rewrite app_nil_r. unfold ret.
    split; [by destruct w |]. by repeat split.
  - cbn [_load_config]. destruct file as [|lines failure|e].
    + destruct (IH self w) as (r & records & -> & Hw & Hl & Hr).
      exists r, records. split; [done |]. split; [done |]. split; [cbn; lia |].
      destruct r as [self'|e]; [done |].
      destruct Hr as [p Hp]. exists p. by right.
    + destruct (load_config_file_ok lines failure self) as (self1 & -> & Hs1 & Hd1).
      destruct failure as [e|].
      * unfold bind, logger.
        destruct (IH self1
                    (World (shutdown_event w) (ssh_calls w)
                       (logged w
                        ++ [(WARNING, "Failed to load config from " ++ path ++ ": "
                                      ++ exn_text e)])))
          as (r & records & -> & Hw & Hl & Hr).
        cbn [shutdown_event ssh_calls logged].
        eexists r, (_ :: records). rewrite <- (app_assoc (logged w)).
        split; [done |]. split; [by constructor |]. split; [cbn; lia |].
        destruct r as [self2|e2].
        -- destruct Hr as [Hs2 Hd2].
           split; [unfold Ref.same_settings in *; intuition congruence | tauto].
        -- destruct Hr as [p Hp]. exists p. by right.
      * exists (Ok self1), []. rewrite app_nil_r. unfold ret.
        split; [by destruct w |]. split; [constructor |]. split; [cbn; lia | done].
    + exists (Raise e), []. rewrite app_nil_r. unfold raise.
      split; [by destruct w |]. split; [constructor |]. split; [cbn; lia |].
      exists path. by left.
Qed.

Lemma rstrip_by_last (p : ascii -> bool) (s : string) (c : ascii) :
  p c = false -> PyStr.rstrip_by p (s ++ String c "") = s ++ String c "".
Proof.
  intros Hc. induction s as [|x s IH]; cbn [String.append PyStr.rstrip_by].
  - by rewrite Hc.
  - rewrite IH. by destruct s.
Qed.

Lemma quoted_value (v : string) :
  PyStr.contains PyStr.dquote v = false ->
  PyStr.strip_chars PyStr.dquote
    (PyStr.strip (PyStr.dquote ++ v ++ PyStr.dquote))
  = v.
Proof.
  intros Hv%contains_char_false_iff.
  assert (PyStr.strip (PyStr.dquote ++ v ++ PyStr.dquote)
          = PyStr.dquote ++ v ++ PyStr.dquote) as ->.
  { unfold PyStr.strip, PyStr.dquote. cbn [String.append PyStr.lstrip_by].
    change (PyStr.char_isspace "034") with false. cbv iota.
    change (String "034" (v ++ String "034" ""))
      with ((String "034" v) ++ String "034" "").
    by apply rstrip_by_last. }
  unfold PyStr.strip_chars, PyStr.dquote. cbn [String.append PyStr.lstrip_by].
  change (PyStr.char_in "034" (String "034" "")) with true. cbv iota.
  destruct v as [|c v]; [done |].
  pose proof Hv as [Hc _]%andb_true_iff. apply negb_true_iff in Hc.
  cbn [String.append PyStr.lstrip_by PyStr.char_in]. rewrite Hc. cbn [orb].
  change (String c (v ++ String "034" "")) with (String c v ++ String "034" "").
  rewrite rstrip_by_app_all by done.
  apply rstrip_by_keeps. eapply all_chars_impl; [| exact Hv].
  intros x Hx. cbn. by rewrite orb_false_r.
Qed.

Lemma strip_token (t : string) : Ref.is_token t = true -> PyStr.strip t = t.
Proof.
  unfold Ref.is_token, PyStr.strip. rewrite andb_true_iff. intros [Hne Ht].
  destruct t as [|c t]; [done |].
  pose proof Ht as [Hc _]%andb_true_iff. apply negb_true_iff in Hc.
  cbn [PyStr.lstrip_by]. rewrite Hc. by apply rstrip_by_keeps.
Qed.

Lemma lstrip_token_app (t rest : string) :
  Ref.is_token t = true ->
  PyStr.lstrip_by PyStr.char_isspace (t ++ rest) = t ++ rest.
Proof.
  unfold Ref.is_token. rewrite andb_true_iff. intros [Hne Ht].
  destruct t as [|c t]; [done |].
  pose proof Ht as [Hc _]%andb_true_iff. apply negb_true_iff in Hc.
  cbn [String.append PyStr.lstrip_by]. by rewrite Hc.
Qed.

End LoadConfig.

(** X14. Nothing that a configuration file holds, and no failure to open
    or read one, makes the construction of the hub fail: [__init__]
    raises only what the registration of the signal handlers raises, what
    [Path.home()] raises, or what the test [exists()] of a location
    raises.  It makes no client call, leaves the shutdown event alone and
    logs only warnings, at most one for each location.  The hub it
    returns has the built-in connection limit, client options and
    timeouts, every entry of its allow-list is a digit string, and so a
    suffix is valid for it exactly when it is in its allow-list. *)
Theorem init_builds_a_well_formed_hub (exn_text : exn -> string)
    (signal_signal : result unit)
    (config_locations : result (list (string * config_file))) (w : world) :
  exists r records,
    __init__ exn_text signal_signal config_locations w
    = (r, World (shutdown_event w) (ssh_calls w) (logged w ++ records))
    /\ Forall (fun record => fst record = WARNING) records
    /\ (forall locations,
          config_locations = Ok locations ->
          (List.length records <= List.length locations)%nat)
    /\ match r with
       | Ok self =>
           Ref.same_settings default_hub self
           /\ Forall (fun x => PyStr.isdigit x = true) (allowed_ips self)
           /\ (forall ip_suffix,
                 _validate_ip_suffix self ip_suffix = true
                 <-> ip_suffix ∈ allowed_ips self)
       | Raise e =>
           signal_signal = Raise e
           \/ config_locations = Raise e
           \/ (exists locations path,
                  config_locations = Ok locations
                  /\ (path, Inaccessible e) ∈ locations)
       end.
Proof.
  unfold __init__.
  destruct signal_signal as [[]|e].
  2: { exists (Raise e), []. rewrite app_nil_r. unfold raise.
       split; [by destruct w |]. split; [constructor |]. split; [| by left].
       intros locations _. cbn. lia. }
  destruct config_locations as [locations|e].
  2: { exists (Raise e), []. rewrite app_nil_r. unfold raise.
       split; [by destruct w |]. split; [constructor |]. split; [done |].
       right. by left. }
  destruct (load_config_spec exn_text locations default_hub w)
    as (r & records & Hrun & Hw & Hl & Hr).
  exists r, records. split; [done |]. split; [done |].
  split; [by intros ? [= <-] |].
  destruct r as [self|e].
  - destruct Hr as [Hs Hd].
    assert (Forall (fun x => PyStr.isdigit x = true) (allowed_ips self)) as Hdigits.
    { apply Hd. cbn. repeat constructor. }
    split; [done |]. split; [done |]. intros ip_suffix.
    unfold _validate_ip_suffix. rewrite andb_true_iff, bool_decide_eq_true.
    split; [tauto |]. intros Hin. split; [| done].
    by apply (proj1 (Forall_forall _ _) Hdigits).
  - destruct Hr as [path Hpath]. right. right. by exists locations, path.
Qed.

(** X15. The first configuration file that exists and is read to its end
    decides the configuration: locations before it where nothing exists
    are passed over in silence, its lines are applied in order (no line,
    whatever its content, makes the loading fail), nothing is logged, and
    the locations after it are never looked at. *)
Theorem load_config_first_readable_file_wins (exn_text : exn -> string)
    (skipped rest : list (string * config_file)) (path : string)
    (lines : list string) (self : SSHOperationsHub) (w : world) :
  Forall (fun location => snd location = Absent) skipped ->
  _load_config exn_text (skipped ++ (path, Present lines None) :: rest) self w
  = (Ok (fst (_load_config_file self lines None)), w).
Proof.
  intros Hskipped. induction Hskipped as [|[p f] skipped Hf _ IH].
  - cbn [app _load_config].
    destruct (load_config_file_ok lines None self) as (self' & -> & _). done.
  - cbn in Hf. subst f. done.
Qed.

Lemma load_config_first_readable_file_wins_witness :
  _load_config (fun _ => "")
    ([("~/.config/ssh-operations-hub/defaults.conf", Absent)]
     ++ ("config/defaults.conf",
         Present ["# defaults" ++ PyStr.nl; "IP_PREFIX=192.168.7" ++ PyStr.nl] None)
        :: [("/etc/ssh-operations-hub/defaults.conf",
             Present ["IP_PREFIX=10.0.0" ++ PyStr.nl] None)])
    default_hub w0
  = (Ok (set_ip_prefix default_hub "192.168.7"), w0).
Proof.
  refine (load_config_first_readable_file_wins _ _ _ _ _ _ _ _).
  repeat constructor.
Defined.

(** X16. A line of the bash-style form [KEY="value"] followed by a line
    feed, with a key that is a token without [=] and not starting with
    [#], and a value without a double quote, is read as that key and that
    value: [IP_PREFIX] sets the prefix to the value as written (it is not
    validated), [ALLOWED_IPS] sets the allow-list to the parsed value,
    and every other key leaves the hub as it is. *)
Theorem config_line_assigns_the_quoted_value (self : SSHOperationsHub)
    (key v : string) :
  Ref.is_token key = true ->
  PyStr.contains "=" key = false ->
  PyStr.startswith "#" key = false ->
  PyStr.contains PyStr.dquote v = false ->
  _load_config_line self (key ++ "=" ++ PyStr.dquote ++ v ++ PyStr.dquote ++ PyStr.nl)
  = if String.eqb key "IP_PREFIX" then Ok (set_ip_prefix self v)
    else if String.eqb key "ALLOWED_IPS"
         then (let? allowed := _parse_allowed_ips v in Ok (set_allowed_ips self allowed))
         else Ok self.
Proof.
  intros Hkey Heq Hhash Hv. unfold _load_config_line.
  assert (PyStr.strip (key ++ "=" ++ PyStr.dquote ++ v ++ PyStr.dquote ++ PyStr.nl)
          = key ++ String "=" (PyStr.dquote ++ v ++ PyStr.dquote)) as ->.
  { unfold PyStr.strip. rewrite (lstrip_token_app key _ Hkey).
    assert (key ++ "=" ++ PyStr.dquote ++ v ++ PyStr.dquote ++ PyStr.nl
            = ((key ++ String "=" (PyStr.dquote ++ v)) ++ PyStr.dquote) ++ PyStr.nl)
      as ->.
    { by rewrite !str_app_assoc. }
    assert (key ++ String "=" (PyStr.dquote ++ v ++ PyStr.dquote)
            = (key ++ String "=" (PyStr.dquote ++ v)) ++ PyStr.dquote) as ->.
    { by rewrite !str_app_assoc. }
    rewrite rstrip_by_app_all by done. by apply rstrip_by_last. }
  assert (PyStr.nonempty (key ++ String "=" (PyStr.dquote ++ v ++ PyStr.dquote)) = true)
    as ->.
  { by destruct key. }
  assert (PyStr.startswith "#" (key ++ String "=" (PyStr.dquote ++ v ++ PyStr.dquote))
          = false) as ->.
  { destruct key as [|c key]; [done |]. unfold PyStr.startswith in *.
    cbn [String.append String.prefix] in *.
    destruct (ascii_dec "#" c); [by destruct key | done]. }
  cbn [andb negb].
  assert (PyStr.contains "=" (key ++ String "=" (PyStr.dquote ++ v ++ PyStr.dquote))
          = true) as ->.
  { apply contains_iff. by exists key, (PyStr.dquote ++ v ++ PyStr.dquote). }
  rewrite (split_max_first "=" key _ Heq), (strip_token key Hkey), (quoted_value v Hv).
  done.
Qed.

Lemma config_line_assigns_the_quoted_value_witness :
  _load_config_line default_hub
    ("ALLOWED_IPS" ++ "=" ++ PyStr.dquote ++ "1-3 9" ++ PyStr.dquote ++ PyStr.nl)
  = Ok (set_allowed_ips default_hub ["1"; "2"; "3"; "9"]).
Proof.
  exact (config_line_assigns_the_quoted_value default_hub "ALLOWED_IPS" "1-3 9"
           eq_refl eq_refl eq_refl eq_refl).
Defined.

(** X17. The signal handler logs the interruption, sets the shutdown
    event and ends the process with exit status 1, without any client
    call; from the state it leaves, every task is aborted before its
    probe, and a dispatch makes no client call at all. *)
Theorem interrupt_stops_all_later_work (client : nat -> list string -> process)
    (exn_text : exn -> string) (self : SSHOperationsHub) (w : world) :
  exists w1,
    _signal_handler w = (Ok (SystemExit 1), w1)
    /\ w1 = World true (ssh_calls w)
              (logged w ++ [(INFO, "Interrupted! Stopping all SSH connections...")])
    /\ (forall user ip command,
          _execute_ssh_command self client user ip command w1
          = (Ok (false, label_of ip ++ " Aborted due to shutdown"), w1))
    /\ forall completed primary_ips secondary_ips primary_user secondary_user command,
         exists w2,
           execute_commands self client exn_text completed primary_ips secondary_ips
             primary_user secondary_user command w1 = (Ok tt, w2)
           /\ ssh_calls w2 = ssh_calls w.
Proof.
  eexists. split; [reflexivity |]. split; [reflexivity |]. split.
  - intros user ip command. by apply execute_when_shutdown.
  - intros completed primary_ips secondary_ips primary_user secondary_user command.
    destruct (dispatch_when_shutdown self client exn_text completed primary_ips
                secondary_ips primary_user secondary_user command
                (World true (ssh_calls w)
                   (logged w ++ [(INFO, "Interrupted! Stopping all SSH connections...")]))
                eq_refl) as (w2 & Hrun & _ & Hcalls & _).
    by exists w2.
Qed.

(** ** The entry point *)

Section RunProperties.

Variable client : nat -> list string -> process.
Variable exn_text : exn -> string.
Variable parse_args : list string -> ending Namespace.

Lemma rstrip_by_idem (p : ascii -> bool) (s : string) :
  PyStr.rstrip_by p (PyStr.rstrip_by p s) = PyStr.rstrip_by p s.
Proof.
  induction s as [|c s IH]; [done |].
  cbn [PyStr.rstrip_by].
  destruct (PyStr.rstrip_by p s) as [|y r] eqn:Hr.
  - destruct (p c) eqn:Hc; [done |]. cbn [PyStr.rstrip_by]. by rewrite Hc.
  - cbn [PyStr.rstrip_by]. cbn [PyStr.rstrip_by] in IH. by rewrite IH.
Qed.

Lemma validate_ip_prefix_rstrip (raw : string) :
  _validate_ip_prefix (PyStr.rstrip "." raw) = _validate_ip_prefix raw.
Proof.
  unfold _validate_ip_prefix, PyStr.rstrip. by rewrite rstrip_by_idem.
Qed.

Lemma validate_ip_prefix_total (raw : string) :
  exists b, _validate_ip_prefix raw = Ok b.
Proof. rewrite validate_ip_prefix_everywhere. by eexists. Qed.

Lemma validate_ip_prefix_empty : _validate_ip_prefix "" = Ok false.
Proof. reflexivity. Qed.

Lemma check_ssh_cases (w : world) :
  _check_ssh client w
  = (match client (List.length (ssh_calls w)) ["ssh"; "-V"] with
     | Exits rc _ _ => Ok (Returns (rc =? 0)%Z)
     | Hangs => Ok NeverReturns
     | NotLaunched => Ok (Returns false)
     | Fails e => if Ref.check_catches e then Ok (Returns false) else Raise e
     end,
     World (shutdown_event w) (ssh_calls w ++ [["ssh"; "-V"]]) (logged w)).
Proof.
  unfold _check_ssh, bind, attempt, subprocess_run_untimed.
  destruct (client (List.length (ssh_calls w)) ["ssh"; "-V"]) as [rc out err| | |e];
    [| done | done | by destruct e].
  by destruct (rc =? 0)%Z.
Qed.

Lemma log_errors_spec (errors : list string) (w : world) :
  log_errors errors w
  = (Ok tt,
     World (shutdown_event w) (ssh_calls w)
       (logged w ++ List.map (fun e => (ERROR, "Error: " ++ e)) errors)).
Proof.
  revert w. induction errors as [|e errors IH]; intros w.
  - cbn. rewrite app_nil_r. by destruct w.
  - cbn [log_errors List.map]. unfold bind, logger. rewrite IH.
    cbn [shutdown_event ssh_calls logged]. by rewrite <- (app_assoc (logged w)).
Qed.

Lemma run_parse_group_spec (self : SSHOperationsHub) (group : option (list string))
    (w : world) :
  run_parse_group self group w
  = (Ok (List.map (Spec.host_of self)
           (Spec.with_disposition (_validate_ip_suffix self) Spec.Accepted
              (default [] group))),
     World (shutdown_event w) (ssh_calls w)
       (logged w ++ Ref.group_records self group)).
Proof.
  unfold run_parse_group, Ref.group_records.
  destruct group as [[|s l]|]; cbn [default];
    try (cbn; rewrite app_nil_r; by destruct w).
  unfold bind. rewrite parse_ips_eq. cbn [fst snd]. rewrite log_errors_spec.
  cbn [shutdown_event ssh_calls logged].
  by rewrite <- (app_assoc (logged w)), map_map.
Qed.

Lemma accepted_valid (self : SSHOperationsHub) (l : list string) :
  NoDup (Spec.with_disposition (_validate_ip_suffix self) Spec.Accepted l)
  /\ Forall (fun s => s ∈ l /\ _validate_ip_suffix self s = true)
       (Spec.with_disposition (_validate_ip_suffix self) Spec.Accepted l).
Proof.
  destruct (picks_accepted self l []) as [Hnd Hin]. split; [exact Hnd |].
  apply Forall_forall. intros s (Hs & _ & Hv)%Hin. done.
Qed.

Lemma accepted_none (self : SSHOperationsHub) (l : list string) :
  Forall (fun s => _validate_ip_suffix self s = false) l ->
  Spec.with_disposition (_validate_ip_suffix self) Spec.Accepted l = [].
Proof.
  intros Hall.
  destruct (Spec.with_disposition (_validate_ip_suffix self) Spec.Accepted l)
    as [|s r] eqn:Hacc; [done |].
  pose proof (proj2 (accepted_valid self l)) as Hv. rewrite Hacc in Hv.
  apply Forall_cons in Hv as [[Hin Hs] _].
  apply (proj1 (Forall_forall _ _) Hall) in Hin. congruence.
Qed.

Lemma accepted_some (self : SSHOperationsHub) (l : list string) (s : string) :
  s ∈ l -> _validate_ip_suffix self s = true ->
  Spec.with_disposition (_validate_ip_suffix self) Spec.Accepted l <> [].
Proof.
  intros Hin Hv Hnil.
  destruct (picks_accepted self l []) as [_ Hacc].
  assert (s ∈ Spec.with_disposition (_validate_ip_suffix self) Spec.Accepted l) as Hs.
  { apply Hacc. split; [done |]. split; [apply not_elem_of_nil | done]. }
  rewrite Hnil in Hs. by apply elem_of_nil in Hs.
Qed.

Lemma duplicates_of_invalid (self : SSHOperationsHub) (full : list string) (n : nat)
    (rest : list string) :
  Forall (fun s => _validate_ip_suffix self s = false) rest ->
  Spec.with_disposition_from (_validate_ip_suffix self) Spec.Duplicate full n rest = [].
Proof.
  unfold Spec.with_disposition_from. revert n.
  induction rest as [|x rest IH]; intros n Hall; [done |].
  apply Forall_cons in Hall as [Hx Hall].
  cbn [Spec.enumerate_from List.filter fst snd]. unfold Spec.disposition_of at 1.
  rewrite Hx. cbn [negb Spec.same]. by apply IH.
Qed.

Lemma group_records_invalid (self : SSHOperationsHub) (group : option (list string)) :
  Forall (fun s => _validate_ip_suffix self s = false) (default [] group) ->
  Ref.group_records self group
  = List.map (fun s => (ERROR, "Error: Invalid or disallowed IP suffix '" ++ s ++ "'"))
      (default [] group).
Proof.
  intros Hall. unfold Ref.group_records, Spec.with_disposition.
  rewrite duplicates_of_invalid by done. rewrite picks_rejected. cbn [List.map app].
  f_equal. induction Hall as [|x l Hx _ IH]; [done |].
  cbn [List.filter]. rewrite Hx. cbn [negb]. by rewrite IH.
Qed.

Lemma group_records_clean (self : SSHOperationsHub) (group : option (list string)) :
  Forall (fun s => _validate_ip_suffix self s = true) (default [] group) ->
  NoDup (default [] group) ->
  Ref.group_records self group = []
  /\ Spec.with_disposition (_validate_ip_suffix self) Spec.Accepted (default [] group)
     = default [] group.
Proof.
  intros Hv Hnd. unfold Ref.group_records, Spec.with_disposition.
  by rewrite !(picks_clean self _ _ [] Hv Hnd).
Qed.

(** [run] from the point where the client has been found and the command
    line parsed, for the hub as the override prefix has left it. *)
Lemma run_groups_eq (self' : SSHOperationsHub) (ns : Namespace)
    (completed : list nat) (w : world) :
  (let* primary_ips := run_parse_group self' (primary ns) in
   let* secondary_ips := run_parse_group self' (secondary ns) in
   match primary_ips, secondary_ips with
   | [], [] =>
       let* _ := logger ERROR "Error: No valid IP addresses found" in
       ret (SystemExit 1)
   | _, _ =>
       if negb (PyStr.nonempty (cmd ns)) then
         let* _ := logger ERROR "Error: No command specified" in
         ret (SystemExit 1)
       else
         let* _ := execute_commands self' client exn_text completed
                     primary_ips secondary_ips (puser ns) (suser ns) (cmd ns) in
         ret (Returns tt)
   end) w
  = (let P := Spec.with_disposition (_validate_ip_suffix self') Spec.Accepted
                (default [] (primary ns)) in
     let S := Spec.with_disposition (_validate_ip_suffix self') Spec.Accepted
                (default [] (secondary ns)) in
     let records :=
       (Ref.group_records self' (primary ns)
        ++ Ref.group_records self' (secondary ns))%list in
     let stop message :=
       (Ok (@SystemExit unit 1),
        World (shutdown_event w) (ssh_calls w)
          (logged w ++ records ++ [(ERROR, message)])) in
     match P, S with
     | [], [] => stop "Error: No valid IP addresses found"
     | _, _ =>
         if PyStr.nonempty (cmd ns) then
           (let* _ := execute_commands self' client exn_text completed
                        (List.map (Spec.host_of self') P)
                        (List.map (Spec.host_of self') S)
                        (puser ns) (suser ns) (cmd ns) in
            ret (Returns tt))
             (World (shutdown_event w) (ssh_calls w) (logged w ++ records))
         else stop "Error: No command specified"
     end).
Proof.
  cbv zeta. unfold bind at 1.
  rewrite run_parse_group_spec. cbn [shutdown_event ssh_calls logged].
  unfold bind at 1.
  rewrite run_parse_group_spec. cbn [shutdown_event ssh_calls logged].
  rewrite <- !(app_assoc (logged w)).
  destruct (Spec.with_disposition (_validate_ip_suffix self') Spec.Accepted
              (default [] (primary ns))) as [|p P'];
    destruct (Spec.with_disposition (_validate_ip_suffix self') Spec.Accepted
                (default [] (secondary ns))) as [|s S'];
    cbn [List.map]; try (destruct (PyStr.nonempty (cmd ns)); cbn [negb]);
    try done;
    unfold bind, logger, ret; cbn [shutdown_event ssh_calls logged];
    by rewrite <- !(app_assoc (logged w)).
Qed.

(** Every way [run] can go before it reaches the two groups. *)
Lemma run_eq (self : SSHOperationsHub) (completed : list nat) (args : list string)
    (w : world) :
  run client exn_text parse_args self completed args w
  = (let w1 := World (shutdown_event w) (ssh_calls w ++ [["ssh"; "-V"]]) (logged w) in
     let stop message :=
       (Ok (@SystemExit unit 1),
        World (shutdown_event w) (ssh_calls w ++ [["ssh"; "-V"]])
          (logged w ++ [(ERROR, message)])) in
     let groups self' ns :=
       (let* primary_ips := run_parse_group self' (primary ns) in
        let* secondary_ips := run_parse_group self' (secondary ns) in
        match primary_ips, secondary_ips with
        | [], [] =>
            let* _ := logger ERROR "Error: No valid IP addresses found" in
            ret (SystemExit 1)
        | _, _ =>
            if negb (PyStr.nonempty (cmd ns)) then
              let* _ := logger ERROR "Error: No command specified" in
              ret (SystemExit 1)
            else
              let* _ := execute_commands self' client exn_text completed
                          primary_ips secondary_ips (puser ns) (suser ns) (cmd ns) in
              ret (Returns tt)
        end) w1 in
     match client (List.length (ssh_calls w)) ["ssh"; "-V"] with
     | Hangs => (Ok NeverReturns, w1)
     | NotLaunched => stop "Error: SSH client is not installed"
     | Fails e =>
         if Ref.check_catches e then stop "Error: SSH client is not installed"
         else (Raise e, w1)
     | Exits rc _ _ =>
         if (rc =? 0)%Z then
           match parse_args args with
           | SystemExit code => (Ok (SystemExit code), w1)
           | NeverReturns => (Ok NeverReturns, w1)
           | Returns ns =>
               match ip_prefix_arg ns with
               | Some (String c given) =>
                   match _validate_ip_prefix (String c given) with
                   | Ok true =>
                       groups (set_ip_prefix self (PyStr.rstrip "." (String c given))) ns
                   | _ =>
                       stop "Error: Invalid IP prefix format. Use format: XXX.XXX.XXX (0-255)"
                   end
               | _ => groups self ns
               end
           end
         else stop "Error: SSH client is not installed"
     end).
Proof.
  cbv zeta. unfold run, ebind. unfold bind at 1. rewrite check_ssh_cases.
  destruct (client (List.length (ssh_calls w)) ["ssh"; "-V"]) as [rc out err| | |e];
    [| done | done | by destruct (Ref.check_catches e)].
  destruct (rc =? 0)%Z; cbn [negb]; [| done].
  unfold bind at 1. unfold ret at 1.
  destruct (parse_args args) as [ns|code|]; [| done | done].
  unfold bind at 1.
  destruct (ip_prefix_arg ns) as [[|c given]|]; [done | | done].
  rewrite validate_ip_prefix_rstrip.
  by destruct (validate_ip_prefix_total (String c given)) as [[|] ->].
Qed.

Lemma groups_outcome (self self' : SSHOperationsHub) (ns : Namespace)
    (completed : list nat) (w : world) :
  allowed_ips self' = allowed_ips self ->
  exists records,
    let w2 := World (shutdown_event w) (ssh_calls w) (logged w ++ records) in
    (let* primary_ips := run_parse_group self' (primary ns) in
            let* secondary_ips := run_parse_group self' (secondary ns) in
            match primary_ips, secondary_ips with
            | [], [] =>
                let* _ := logger ERROR "Error: No valid IP addresses found" in
                ret (SystemExit 1)
            | _, _ =>
                if negb (PyStr.nonempty (cmd ns)) then
                  let* _ := logger ERROR "Error: No command specified" in
                  ret (SystemExit 1)
                else
                  let* _ := execute_commands self' client exn_text completed
                              primary_ips secondary_ips (puser ns) (suser ns) (cmd ns) in
                  ret (Returns tt)
            end) w = (Ok (SystemExit 1), w2)
    \/ (exists P S,
          NoDup P /\ NoDup S
          /\ Forall (fun s => s ∈ default [] (primary ns)
                              /\ _validate_ip_suffix self s = true) P
          /\ Forall (fun s => s ∈ default [] (secondary ns)
                              /\ _validate_ip_suffix self s = true) S
          /\ (P ++ S)%list <> []
          /\ cmd ns <> ""
          /\ (let* primary_ips := run_parse_group self' (primary ns) in
            let* secondary_ips := run_parse_group self' (secondary ns) in
            match primary_ips, secondary_ips with
            | [], [] =>
                let* _ := logger ERROR "Error: No valid IP addresses found" in
                ret (SystemExit 1)
            | _, _ =>
                if negb (PyStr.nonempty (cmd ns)) then
                  let* _ := logger ERROR "Error: No command specified" in
                  ret (SystemExit 1)
                else
                  let* _ := execute_commands self' client exn_text completed
                              primary_ips secondary_ips (puser ns) (suser ns) (cmd ns) in
                  ret (Returns tt)
            end) w
             = (let* _ := execute_commands self' client exn_text completed
                            (List.map (fun s => ip_prefix self' ++ "." ++ s) P)
                            (List.map (fun s => ip_prefix self' ++ "." ++ s) S)
                            (puser ns) (suser ns) (cmd ns) in
                ret (Returns tt)) w2).
Proof.
  intros Hallowed. rewrite run_groups_eq. cbv zeta.
  assert (forall s, _validate_ip_suffix self' s = _validate_ip_suffix self s) as Hsame.
  { intros s. unfold _validate_ip_suffix. by rewrite Hallowed. }
  destruct (accepted_valid self' (default [] (primary ns))) as [Hpn Hp].
  destruct (accepted_valid self' (default [] (secondary ns))) as [Hsn Hs].
  set (P := Spec.with_disposition (_validate_ip_suffix self') Spec.Accepted
              (default [] (primary ns))) in *.
  set (S := Spec.with_disposition (_validate_ip_suffix self') Spec.Accepted
              (default [] (secondary ns))) in *.
  assert (Forall (fun s => s ∈ default [] (primary ns)
                           /\ _validate_ip_suffix self s = true) P) as Hp'.
  { eapply Forall_impl; [exact Hp |]. intros s [? ?]. by rewrite <- Hsame. }
  assert (Forall (fun s => s ∈ default [] (secondary ns)
                           /\ _validate_ip_suffix self s = true) S) as Hs'.
  { eapply Forall_impl; [exact Hs |]. intros s [? ?]. by rewrite <- Hsame. }
  assert ((P ++ S)%list <> [] ->
          exists records,
            (if PyStr.nonempty (cmd ns)
             then
               (let* _ := execute_commands self' client exn_text completed
                            (List.map (Spec.host_of self') P)
                            (List.map (Spec.host_of self') S)
                            (puser ns) (suser ns) (cmd ns) in
                ret (Returns tt))
                 (World (shutdown_event w) (ssh_calls w)
                    (logged w ++ Ref.group_records self' (primary ns)
                     ++ Ref.group_records self' (secondary ns)))
             else
               (Ok (@SystemExit unit 1),
                World (shutdown_event w) (ssh_calls w)
                  (logged w
                   ++ (Ref.group_records self' (primary ns)
                       ++ Ref.group_records self' (secondary ns))
                   ++ [(ERROR, "Error: No command specified")])))
            = (Ok (SystemExit 1),
               World (shutdown_event w) (ssh_calls w) (logged w ++ records))
            \/ (exists P0 S0,
                  NoDup P0 /\ NoDup S0
                  /\ Forall (fun s => s ∈ default [] (primary ns)
                                      /\ _validate_ip_suffix self s = true) P0
                  /\ Forall (fun s => s ∈ default [] (secondary ns)
                                      /\ _validate_ip_suffix self s = true) S0
                  /\ (P0 ++ S0)%list <> []
                  /\ cmd ns <> ""
                  /\ (if PyStr.nonempty (cmd ns)
                      then
                        (let* _ := execute_commands self' client exn_text completed
                                     (List.map (Spec.host_of self') P)
                                     (List.map (Spec.host_of self') S)
                                     (puser ns) (suser ns) (cmd ns) in
                         ret (Returns tt))
                          (World (shutdown_event w) (ssh_calls w)
                             (logged w ++ Ref.group_records self' (primary ns)
                              ++ Ref.group_records self' (secondary ns)))
                      else
                        (Ok (@SystemExit unit 1),
                         World (shutdown_event w) (ssh_calls w)
                           (logged w
                            ++ (Ref.group_records self' (primary ns)
                                ++ Ref.group_records self' (secondary ns))
                            ++ [(ERROR, "Error: No command specified")])))
                     = (let* _ := execute_commands self' client exn_text completed
                                    (List.map (fun s => ip_prefix self' ++ "." ++ s) P0)
                                    (List.map (fun s => ip_prefix self' ++ "." ++ s) S0)
                                    (puser ns) (suser ns) (cmd ns) in
                        ret (Returns tt))
                         (World (shutdown_event w) (ssh_calls w)
                            (logged w ++ records)))) as Hgo.
  { intros Hsome. destruct (PyStr.nonempty (cmd ns)) eqn:Hcmd.
    - eexists. right. exists P, S. repeat (split; [done |]).
      split; [by destruct (cmd ns) |]. reflexivity.
    - eexists. by left. }
  destruct P as [|p P'] eqn:HP.
  - destruct S as [|s S'] eqn:HS.
    + eexists. by left.
    + by apply Hgo.
  - destruct S as [|s S'] eqn:HS; by apply Hgo.
Qed.

Lemma groups_refused_invalid (self self' : SSHOperationsHub) (ns : Namespace)
    (completed : list nat) (w : world) :
  _validate_ip_suffix self' = _validate_ip_suffix self ->
  Forall (fun s => _validate_ip_suffix self s = false)
    (default [] (primary ns) ++ default [] (secondary ns)) ->
  (let* primary_ips := run_parse_group self' (primary ns) in
         let* secondary_ips := run_parse_group self' (secondary ns) in
         match primary_ips, secondary_ips with
         | [], [] =>
             let* _ := logger ERROR "Error: No valid IP addresses found" in
             ret (SystemExit 1)
         | _, _ =>
             if negb (PyStr.nonempty (cmd ns)) then
               let* _ := logger ERROR "Error: No command specified" in
               ret (SystemExit 1)
             else
               let* _ := execute_commands self' client exn_text completed
                           primary_ips secondary_ips (puser ns) (suser ns) (cmd ns) in
               ret (Returns tt)
         end) w
  = (Ok (SystemExit 1),
     World (shutdown_event w) (ssh_calls w)
       (logged w
        ++ List.map
             (fun s => (ERROR, "Error: Invalid or disallowed IP suffix '" ++ s ++ "'"))
             (default [] (primary ns) ++ default [] (secondary ns))
        ++ [(ERROR, "Error: No valid IP addresses found")])).
Proof.
  intros Hsame [Hp Hs]%Forall_app. rewrite <- Hsame in Hp, Hs.
  rewrite run_groups_eq. cbv zeta.
  rewrite (accepted_none self' _ Hp), (accepted_none self' _ Hs).
  rewrite (group_records_invalid self' _ Hp), (group_records_invalid self' _ Hs).
  by rewrite map_app.
Qed.

Lemma groups_refused_command (self self' : SSHOperationsHub) (ns : Namespace)
    (completed : list nat) (w : world) :
  _validate_ip_suffix self' = _validate_ip_suffix self ->
  Exists (fun s => _validate_ip_suffix self s = true)
    (default [] (primary ns) ++ default [] (secondary ns)) ->
  cmd ns = "" ->
  (let* primary_ips := run_parse_group self' (primary ns) in
         let* secondary_ips := run_parse_group self' (secondary ns) in
         match primary_ips, secondary_ips with
         | [], [] =>
             let* _ := logger ERROR "Error: No valid IP addresses found" in
             ret (SystemExit 1)
         | _, _ =>
             if negb (PyStr.nonempty (cmd ns)) then
               let* _ := logger ERROR "Error: No command specified" in
               ret (SystemExit 1)
             else
               let* _ := execute_commands self' client exn_text completed
                           primary_ips secondary_ips (puser ns) (suser ns) (cmd ns) in
               ret (Returns tt)
         end) w
  = (Ok (SystemExit 1),
     World (shutdown_event w) (ssh_calls w)
       (logged w
        ++ (Ref.group_records self (primary ns)
            ++ Ref.group_records self (secondary ns))
        ++ [(ERROR, "Error: No command specified")])).
Proof.
  intros Hsame Hsome Hcmd. rewrite run_groups_eq. cbv zeta.
  unfold Ref.group_records. rewrite Hsame, Hcmd. cbn [PyStr.nonempty].
  apply Exists_app in Hsome.
  destruct (Spec.with_disposition (_validate_ip_suffix self) Spec.Accepted
              (default [] (primary ns))) as [|p P'] eqn:HP; [| done].
  destruct (Spec.with_disposition (_validate_ip_suffix self) Spec.Accepted
              (default [] (secondary ns))) as [|s S'] eqn:HS; [| done].
  exfalso. destruct Hsome as [Hsome | Hsome];
    apply Exists_exists in Hsome as (x & Hin & Hx).
  - by apply (accepted_some self _ x Hin Hx).
  - by apply (accepted_some self _ x Hin Hx).
Qed.

Lemma groups_clean (self self' : SSHOperationsHub) (ns : Namespace)
    (completed : list nat) (w : world) :
  _validate_ip_suffix self' = _validate_ip_suffix self ->
  Forall (fun s => _validate_ip_suffix self s = true)
    (default [] (primary ns) ++ default [] (secondary ns)) ->
  NoDup (default [] (primary ns)) ->
  NoDup (default [] (secondary ns)) ->
  (default [] (primary ns) ++ default [] (secondary ns))%list <> [] ->
  cmd ns <> "" ->
  (let* primary_ips := run_parse_group self' (primary ns) in
         let* secondary_ips := run_parse_group self' (secondary ns) in
         match primary_ips, secondary_ips with
         | [], [] =>
             let* _ := logger ERROR "Error: No valid IP addresses found" in
             ret (SystemExit 1)
         | _, _ =>
             if negb (PyStr.nonempty (cmd ns)) then
               let* _ := logger ERROR "Error: No command specified" in
               ret (SystemExit 1)
             else
               let* _ := execute_commands self' client exn_text completed
                           primary_ips secondary_ips (puser ns) (suser ns) (cmd ns) in
               ret (Returns tt)
         end) w
  = (let* _ := execute_commands self' client exn_text completed
                 (List.map (fun s => ip_prefix self' ++ "." ++ s)
                    (default [] (primary ns)))
                 (List.map (fun s => ip_prefix self' ++ "." ++ s)
                    (default [] (secondary ns)))
                 (puser ns) (suser ns) (cmd ns) in
     ret (Returns tt)) w.
Proof.
  intros Hsame [Hp Hs]%Forall_app Hpn Hsn Hsome Hcmd. rewrite <- Hsame in Hp, Hs.
  rewrite run_groups_eq. cbv zeta.
  destruct (group_records_clean self' (primary ns) Hp Hpn) as [-> ->].
  destruct (group_records_clean self' (secondary ns) Hs Hsn) as [-> ->].
  cbn [app]. rewrite app_nil_r.
  assert (World (shutdown_event w) (ssh_calls w) (logged w) = w) as -> by by destruct w.
  assert (PyStr.nonempty (cmd ns) = true) as -> by by destruct (cmd ns).
  change (Spec.host_of self') with (fun s => ip_prefix self' ++ "." ++ s).
  destruct (default [] (primary ns)) as [|p P'], (default [] (secondary ns)) as [|s S'];
    done.
Qed.

End RunProperties.

(** X18. Before it hands anything to the dispatcher, [run] invokes the
    client once, for the availability check, and contacts no host.  Then
    either it stops there (the process exits, the check never returns, or
    the check raises what the call of the client raised), or it calls
    [execute_commands] once, with a command that is not empty and with
    hosts [prefix.suffix] only, at least one, where every suffix is a
    suffix of its group on the command line that is all digits and in the
    allow-list of the hub, no suffix is repeated within a group, and the
    prefix is the override without its trailing dots when there is one,
    which then has passed the validation, and the prefix of the hub
    otherwise.  What [run] does from there on is what that call does. *)
Theorem run_hands_only_allowed_hosts_to_the_dispatcher
    (client : nat -> list string -> process) (exn_text : exn -> string)
    (parse_args : list string -> ending Namespace)
    (self : SSHOperationsHub) (completed : list nat) (args : list string) (w : world) :
  exists records,
    let w2 := World (shutdown_event w) (ssh_calls w ++ [["ssh"; "-V"]])
                (logged w ++ records) in
    (exists r,
        run client exn_text parse_args self completed args w = (r, w2)
        /\ r <> Ok (Returns tt)
        /\ (forall e, r = Raise e ->
                      client (List.length (ssh_calls w)) ["ssh"; "-V"] = Fails e)
        /\ (forall code, r = Ok (SystemExit code) ->
                         code = 1%Z \/ parse_args args = SystemExit code))
    \/ (exists ns prefix P S,
          parse_args args = Returns ns
          /\ match ip_prefix_arg ns with
             | Some (String c given) =>
                 prefix = PyStr.rstrip "." (String c given)
                 /\ _validate_ip_prefix (String c given) = Ok true
             | _ => prefix = ip_prefix self
             end
          /\ NoDup P /\ NoDup S
          /\ Forall (fun s => s ∈ default [] (primary ns)
                              /\ _validate_ip_suffix self s = true) P
          /\ Forall (fun s => s ∈ default [] (secondary ns)
                              /\ _validate_ip_suffix self s = true) S
          /\ (P ++ S)%list <> []
          /\ cmd ns <> ""
          /\ run client exn_text parse_args self completed args w
             = (let* _ := execute_commands (set_ip_prefix self prefix) client exn_text
                            completed
                            (List.map (fun s => prefix ++ "." ++ s) P)
                            (List.map (fun s => prefix ++ "." ++ s) S)
                            (puser ns) (suser ns) (cmd ns) in
                ret (Returns tt)) w2).
Proof.
  rewrite run_eq. cbv beta zeta.
  assert (forall (r : result (ending unit)) records,
             r <> Ok (Returns tt) ->
             (forall e, r = Raise e ->
                        client (List.length (ssh_calls w)) ["ssh"; "-V"] = Fails e) ->
             (forall code, r = Ok (SystemExit code) ->
                           code = 1%Z \/ parse_args args = SystemExit code) ->
             exists r0,
               (r, World (shutdown_event w) (ssh_calls w ++ [["ssh"; "-V"]])
                     (logged w ++ records))
               = (r0, World (shutdown_event w) (ssh_calls w ++ [["ssh"; "-V"]])
                        (logged w ++ records))
               /\ r0 <> Ok (Returns tt)
               /\ (forall e, r0 = Raise e ->
                             client (List.length (ssh_calls w)) ["ssh"; "-V"] = Fails e)
               /\ (forall code, r0 = Ok (SystemExit code) ->
                                code = 1%Z \/ parse_args args = SystemExit code))
    as Hstop.
  { intros r records ? ? ?. by exists r. }
  assert (forall ns self',
             parse_args args = Returns ns ->
             allowed_ips self' = allowed_ips self ->
             set_ip_prefix self (ip_prefix self') = self' ->
             match ip_prefix_arg ns with
             | Some (String c given) =>
                 ip_prefix self' = PyStr.rstrip "." (String c given)
                 /\ _validate_ip_prefix (String c given) = Ok true
             | _ => ip_prefix self' = ip_prefix self
             end ->
             exists records,
               (exists r,
                   (let* primary_ips := run_parse_group self' (primary ns) in
                    let* secondary_ips := run_parse_group self' (secondary ns) in
                    match primary_ips, secondary_ips with
                    | [], [] =>
                        let* _ := logger ERROR "Error: No valid IP addresses found" in
                        ret (SystemExit 1)
                    | _, _ =>
                        if negb (PyStr.nonempty (cmd ns)) then
                          let* _ := logger ERROR "Error: No command specified" in
                          ret (SystemExit 1)
                        else
                          let* _ := execute_commands self' client exn_text completed
                                      primary_ips secondary_ips
                                      (puser ns) (suser ns) (cmd ns) in
                          ret (Returns tt)
                    end)
                     (World (shutdown_event w) (ssh_calls w ++ [["ssh"; "-V"]])
                        (logged w))
                   = (r, World (shutdown_event w) (ssh_calls w ++ [["ssh"; "-V"]])
                           (logged w ++ records))
                   /\ r <> Ok (Returns tt)
                   /\ (forall e, r = Raise e ->
                                 client (List.length (ssh_calls w)) ["ssh"; "-V"]
                                 = Fails e)
                   /\ (forall code, r = Ok (SystemExit code) ->
                                    code = 1%Z \/ parse_args args = SystemExit code))
               \/ (exists ns0 prefix P S,
                     parse_args args = Returns ns0
                     /\ match ip_prefix_arg ns0 with
                        | Some (String c given) =>
                            prefix = PyStr.rstrip "." (String c given)
                            /\ _validate_ip_prefix (String c given) = Ok true
                        | _ => prefix = ip_prefix self
                        end
                     /\ NoDup P /\ NoDup S
                     /\ Forall (fun s => s ∈ default [] (primary ns0)
                                         /\ _validate_ip_suffix self s = true) P
                     /\ Forall (fun s => s ∈ default [] (secondary ns0)
                                         /\ _validate_ip_suffix self s = true) S
                     /\ (P ++ S)%list <> []
                     /\ cmd ns0 <> ""
                     /\ (let* primary_ips := run_parse_group self' (primary ns) in
                         let* secondary_ips := run_parse_group self' (secondary ns) in
                         match primary_ips, secondary_ips with
                         | [], [] =>
                             let* _ := logger ERROR
                                         "Error: No valid IP addresses found" in
                             ret (SystemExit 1)
                         | _, _ =>
                             if negb (PyStr.nonempty (cmd ns)) then
                               let* _ := logger ERROR "Error: No command specified" in
                               ret (SystemExit 1)
                             else
                               let* _ := execute_commands self' client exn_text
                                           completed primary_ips secondary_ips
                                           (puser ns) (suser ns) (cmd ns) in
                               ret (Returns tt)
                         end)
                          (World (shutdown_event w) (ssh_calls w ++ [["ssh"; "-V"]])
                             (logged w))
                        = (let* _ := execute_commands (set_ip_prefix self prefix) client
                                       exn_text completed
                                       (List.map (fun s => prefix ++ "." ++ s) P)
                                       (List.map (fun s => prefix ++ "." ++ s) S)
                                       (puser ns0) (suser ns0) (cmd ns0) in
                           ret (Returns tt))
                            (World (shutdown_event w) (ssh_calls w ++ [["ssh"; "-V"]])
                               (logged w ++ records)))) as Hgroups.
  { intros ns self' Hparse Hallowed Hself Hprefix.
    destruct (groups_outcome client exn_text self self' ns completed
                (World (shutdown_event w) (ssh_calls w ++ [["ssh"; "-V"]]) (logged w))
                Hallowed) as (records & Hout).
    cbn [shutdown_event ssh_calls logged] in Hout. exists records.
    destruct Hout as [Hout | (P & S & HP & HS & HPv & HSv & Hsome & Hcmd & Hout)].
    - left. exists (Ok (SystemExit 1)). split; [exact Hout |]. split; [done |].
      split; [done |]. intros code [= <-]. by left.
    - right. exists ns, (ip_prefix self'), P, S. rewrite Hself.
      repeat (split; [done |]). exact Hout. }
  destruct (client (List.length (ssh_calls w)) ["ssh"; "-V"]) as [rc out err| | |e] eqn:Hc.
  - destruct (rc =? 0)%Z.
    + destruct (parse_args args) as [ns|code|] eqn:Hparse.
      * destruct (ip_prefix_arg ns) as [[|c given]|] eqn:Hp.
        -- apply (Hgroups ns self); try done; [by destruct self | by rewrite Hp].
        -- destruct (_validate_ip_prefix (String c given)) as [[|]|e] eqn:Hv.
           ++ apply (Hgroups ns (set_ip_prefix self (PyStr.rstrip "." (String c given))));
                try done.
              by rewrite Hp.
           ++ exists [(ERROR, "Error: Invalid IP prefix format. Use format: XXX.XXX.XXX (0-255)")].
              left. apply Hstop; [done | done |]. intros code [= <-]. by left.
           ++ exists [(ERROR, "Error: Invalid IP prefix format. Use format: XXX.XXX.XXX (0-255)")].
              left. apply Hstop; [done | done |]. intros code [= <-]. by left.
        -- apply (Hgroups ns self); try done; [by destruct self | by rewrite Hp].
      * exists []. left. rewrite app_nil_r. exists (Ok (SystemExit code)).
        split; [done |]. split; [done |]. split; [done |].
        intros c [= <-]. by right.
      * exists []. left. rewrite app_nil_r. by exists (Ok NeverReturns).
    + exists [(ERROR, "Error: SSH client is not installed")].
      left. apply Hstop; [done | done |]. intros code [= <-]. by left.
  - exists []. left. rewrite app_nil_r. by exists (Ok NeverReturns).
  - exists [(ERROR, "Error: SSH client is not installed")].
    left. apply Hstop; [done | done |]. intros code [= <-]. by left.
  - destruct (Ref.check_catches e).
    + exists [(ERROR, "Error: SSH client is not installed")].
      left. apply Hstop; [done | done |]. intros code [= <-]. by left.
    + exists []. left. rewrite app_nil_r. exists (Raise e).
      split; [done |]. split; [done |]. split; [by intros e' [= <-] | done].
Qed.

(** X19. When the client is not found ([FileNotFoundError]) or exits from
    the availability check with a non-zero status, [run] ends the
    process with exit status 1 after that single invocation and one error
    record, whatever the command line.  When the call of the client
    raises another exception (a client that is found and cannot be
    executed raises [PermissionError]), [_check_ssh] does not catch it:
    it leaves [run] after that single invocation, and nothing is
    logged. *)
Theorem run_without_client_exits
    (client : nat -> list string -> process) (exn_text : exn -> string)
    (parse_args : list string -> ending Namespace)
    (self : SSHOperationsHub) (completed : list nat) (args : list string) (w : world) :
  let check := client (List.length (ssh_calls w)) ["ssh"; "-V"] in
  (check = NotLaunched
   \/ (exists rc out err, check = Exits rc out err /\ rc <> 0%Z)
   \/ (exists e, check = Fails e /\ Ref.check_catches e = true) ->
   run client exn_text parse_args self completed args w
   = (Ok (SystemExit 1),
      World (shutdown_event w) (ssh_calls w ++ [["ssh"; "-V"]])
        (logged w ++ [(ERROR, "Error: SSH client is not installed")])))
  /\ (forall e,
        check = Fails e -> Ref.check_catches e = false ->
        run client exn_text parse_args self completed args w
        = (Raise e,
           World (shutdown_event w) (ssh_calls w ++ [["ssh"; "-V"]]) (logged w))).
Proof.
  intros check. subst check. rewrite run_eq. cbv beta zeta. split.
  - intros [-> | [(rc & out & err & -> & Hrc) | (e & -> & ->)]]; [done | | done].
    apply Z.eqb_neq in Hrc. by rewrite Hrc.
  - by intros e -> ->.
Qed.

Lemma run_without_client_exits_witness :
  run (fun _ _ => NotLaunched) (fun _ => "") (fun _ => NeverReturns)
    default_hub [] ["-ip"; "1"; "-cmd"; "uptime"] w0
  = (Ok (SystemExit 1),
     World false [["ssh"; "-V"]] [(ERROR, "Error: SSH client is not installed")])
  /\ run (fun _ _ => Fails PermissionError) (fun _ => "") (fun _ => NeverReturns)
       default_hub [] ["-ip"; "1"; "-cmd"; "uptime"] w0
     = (Raise PermissionError, World false [["ssh"; "-V"]] []).
Proof.
  split.
  - exact (proj1 (run_without_client_exits (fun _ _ => NotLaunched) (fun _ => "")
                    (fun _ => NeverReturns) default_hub []
                    ["-ip"; "1"; "-cmd"; "uptime"] w0)
             (or_introl eq_refl)).
  - exact (proj2 (run_without_client_exits (fun _ _ => Fails PermissionError)
                    (fun _ => "") (fun _ => NeverReturns) default_hub []
                    ["-ip"; "1"; "-cmd"; "uptime"] w0)
             PermissionError eq_refl eq_refl).
Defined.

(** X20. With the client available and the command line parsed, [run]
    refuses bad input in this order, each time with exit status 1, no
    host contacted and the error of the cause as its last record.  An
    override prefix that fails the validation: the error about the
    prefix format, and nothing else logged.  Otherwise, no valid suffix
    in either group: one error for each suffix, in the order of the
    command line, then the error that no valid address was found.
    Otherwise, an empty command: the records of the validation of the two
    groups, then the error that no command was specified. *)
Theorem run_refuses_bad_input
    (client : nat -> list string -> process) (exn_text : exn -> string)
    (parse_args : list string -> ending Namespace)
    (self : SSHOperationsHub) (completed : list nat) (args : list string) (w : world)
    (out err : string) (ns : Namespace) :
  client (List.length (ssh_calls w)) ["ssh"; "-V"] = Exits 0 out err ->
  parse_args args = Returns ns ->
  let exits_logging records :=
    run client exn_text parse_args self completed args w
    = (Ok (SystemExit 1),
       World (shutdown_event w) (ssh_calls w ++ [["ssh"; "-V"]])
         (logged w ++ records)) in
  let override_passes :=
    match ip_prefix_arg ns with
    | Some (String c given) => _validate_ip_prefix (String c given) = Ok true
    | _ => True
    end in
  let suffixes := (default [] (primary ns) ++ default [] (secondary ns))%list in
  (match ip_prefix_arg ns with
   | Some (String c given) => _validate_ip_prefix (String c given) = Ok false
   | _ => False
   end ->
   exits_logging
     [(ERROR, "Error: Invalid IP prefix format. Use format: XXX.XXX.XXX (0-255)")])
  /\ (override_passes ->
      Forall (fun s => _validate_ip_suffix self s = false) suffixes ->
      exits_logging
        (List.map
           (fun s => (ERROR, ("Error: Invalid or disallowed IP suffix '" ++ s ++ "'")%string))
           suffixes
         ++ [(ERROR, "Error: No valid IP addresses found")])%list)
  /\ (override_passes ->
      Exists (fun s => _validate_ip_suffix self s = true) suffixes ->
      cmd ns = "" ->
      exits_logging
        ((Ref.group_records self (primary ns) ++ Ref.group_records self (secondary ns))
         ++ [(ERROR, "Error: No command specified")])%list).
Proof.
  intros Hcheck Hparse exits_logging override_passes suffixes.
  subst exits_logging override_passes suffixes. cbv beta.
  rewrite run_eq, Hcheck, Hparse. cbv beta zeta. cbn [Z.eqb].
  split; [| split].
  - destruct (ip_prefix_arg ns) as [[|c given]|]; [done | | done]. by intros ->.
  - intros Hpasses Hinvalid.
    destruct (ip_prefix_arg ns) as [[|c given]|]; [| rewrite Hpasses |].
    + by apply (groups_refused_invalid client exn_text self self).
    + by apply (groups_refused_invalid client exn_text self
                  (set_ip_prefix self (PyStr.rstrip "." (String c given)))).
    + by apply (groups_refused_invalid client exn_text self self).
  - intros Hpasses Hsome Hcmd.
    destruct (ip_prefix_arg ns) as [[|c given]|]; [| rewrite Hpasses |].
    + by apply (groups_refused_command client exn_text self self).
    + by apply (groups_refused_command client exn_text self
                  (set_ip_prefix self (PyStr.rstrip "." (String c given)))).
    + by apply (groups_refused_command client exn_text self self).
Qed.

Lemma run_refuses_bad_input_witness :
  run (fun _ _ => Exits 0 "" "") (fun _ => "")
    (fun _ => Returns (Parsed (Some ["99"; "x"]) None "pi" "" "uptime" (Some "10.0.1")))
    default_hub [] ["-ip"; "99"; "x"; "-ip-prefix"; "10.0.1"; "-cmd"; "uptime"] w0
  = (Ok (SystemExit 1),
     World false [["ssh"; "-V"]]
       [(ERROR, "Error: Invalid or disallowed IP suffix '99'");
        (ERROR, "Error: Invalid or disallowed IP suffix 'x'");
        (ERROR, "Error: No valid IP addresses found")]).
Proof.
  refine (proj1 (proj2 (run_refuses_bad_input (fun _ _ => Exits 0 "" "") (fun _ => "")
                          (fun _ => Returns (Parsed (Some ["99"; "x"]) None "pi" ""
                                               "uptime" (Some "10.0.1")))
                          default_hub []
                          ["-ip"; "99"; "x"; "-ip-prefix"; "10.0.1"; "-cmd"; "uptime"]
                          w0 "" "" _ eq_refl eq_refl)) _ _).
  - vm_compute. reflexivity.
  - by repeat constructor.
Defined.

(** X21. With the client available, a command line whose override prefix,
    if there is one, passes the validation, whose suffixes are all valid
    and without repetition within each group, with at least one suffix
    and a command that is not empty, is dispatched as it stands: after
    the check [run] logs nothing and calls [execute_commands] with the
    hosts [prefix.suffix] in the order of the command line, the prefix
    being the override without its trailing dots, or the prefix of the
    hub when there is no override; what that call does, or raises, is
    what [run] does, and [run] returns when the call does. *)
Theorem run_dispatches_a_clean_request
    (client : nat -> list string -> process) (exn_text : exn -> string)
    (parse_args : list string -> ending Namespace)
    (self : SSHOperationsHub) (completed : list nat) (args : list string) (w : world)
    (out err : string) (ns : Namespace) :
  let prefix :=
    match ip_prefix_arg ns with
    | Some p => PyStr.rstrip "." p
    | None => ip_prefix self
    end in
  client (List.length (ssh_calls w)) ["ssh"; "-V"] = Exits 0 out err ->
  parse_args args = Returns ns ->
  match ip_prefix_arg ns with
  | Some p => _validate_ip_prefix p = Ok true
  | None => True
  end ->
  Forall (fun s => _validate_ip_suffix self s = true)
    (default [] (primary ns) ++ default [] (secondary ns)) ->
  NoDup (default [] (primary ns)) ->
  NoDup (default [] (secondary ns)) ->
  (default [] (primary ns) ++ default [] (secondary ns))%list <> [] ->
  cmd ns <> "" ->
  run client exn_text parse_args self completed args w
  = (let* _ := execute_commands (set_ip_prefix self prefix) client exn_text completed
                 (List.map (fun s => prefix ++ "." ++ s) (default [] (primary ns)))
                 (List.map (fun s => prefix ++ "." ++ s) (default [] (secondary ns)))
                 (puser ns) (suser ns) (cmd ns) in
     ret (Returns tt))
      (World (shutdown_event w) (ssh_calls w ++ [["ssh"; "-V"]]) (logged w)).
Proof.
  intros prefix Hcheck Hparse Hprefix Hvalid Hpn Hsn Hsome Hcmd. subst prefix.
  rewrite run_eq, Hcheck, Hparse. cbv beta zeta. cbn [Z.eqb].
  destruct (ip_prefix_arg ns) as [[|c given]|].
  - by rewrite validate_ip_prefix_empty in Hprefix.
  - rewrite Hprefix.
    by apply (groups_clean client exn_text self
                (set_ip_prefix self (PyStr.rstrip "." (String c given)))).
  - assert (set_ip_prefix self (ip_prefix self) = self) as -> by by destruct self.
    by apply (groups_clean client exn_text self self).
Qed.

Lemma run_dispatches_a_clean_request_witness :
  run (fun _ _ => Exits 0 "" "") (fun _ => "")
    (fun _ => Returns (Parsed (Some ["3"; "1"]) None "pi" "" "uptime"
                         (Some "192.168.7.")))
    default_hub [0%nat] ["-ip"; "3"; "1"; "-ip-prefix"; "192.168.7."; "-cmd"; "uptime"]
    w0
  = (let* _ := execute_commands (set_ip_prefix default_hub "192.168.7")
                 (fun _ _ => Exits 0 "" "") (fun _ => "") [0%nat]
                 ["192.168.7.3"; "192.168.7.1"] [] "pi" "" "uptime" in
     ret (Returns tt)) (World false [["ssh"; "-V"]] []).
Proof.
  refine (run_dispatches_a_clean_request (fun _ _ => Exits 0 "" "") (fun _ => "")
            (fun _ => Returns (Parsed (Some ["3"; "1"]) None "pi" "" "uptime"
                                 (Some "192.168.7.")))
            default_hub [0%nat]
            ["-ip"; "3"; "1"; "-ip-prefix"; "192.168.7."; "-cmd"; "uptime"] w0 "" ""
            (Parsed (Some ["3"; "1"]) None "pi" "" "uptime" (Some "192.168.7."))
            eq_refl eq_refl _ _ _ _ _ _).
  - vm_compute. reflexivity.
  - by repeat constructor.
  - apply (bool_decide_unpack (NoDup ["3"; "1"])). reflexivity.
  - constructor.
  - discriminate.
  - discriminate.
Defined.
